(** * email-visual-tester: the polling loops, the setup script and the
      Gmail payload walk, embedded and verified.

    Sources embedded here:
    - [src/services/email-on-acid-service.ts]  ([EmailOnAcid]),
    - [get-full-eoa-results.ts]                ([FullResults]),
    - [src/global-setup.ts], [src/utils/service-factory.ts] ([GlobalSetup]),
    - [tests/blueprint.spec.ts], Gmail part    ([Gmail], [Extractor]),
    - [tests/blueprint.spec.ts], test part, and [playwright.config.ts]
                                               ([TestFile], [PlaywrightConfig]),
    - [getBasicAuthHeader] of both scripts     ([BasicAuth]).

    Conventions of the embedding.
    - A JavaScript string is the byte string of its UTF-8 encoding.
    - A JavaScript object is the list of its own enumerable properties in
      enumeration order; a property read looks at own properties only.
    - The network is an oracle: the outcome of the [axios.get] made on
      attempt [n] of a polling loop.  What a run does to the outside
      (fetch, sleep, console output) is recorded as a list of events. *)

From stdpp Require Import base strings list gmap pretty.
From Stdlib Require Import ZArith Ascii.

Set Warnings "-register-all".

Local Open Scope string_scope.
Local Open Scope list_scope.
Local Open Scope Z_scope.
Local Open Scope nat_scope.

(* ===================================================================== *)
(** ** JavaScript values *)
(* ===================================================================== *)

Module Js.

(** A value of type [any] as it comes out of a JSON body.  Numbers are
    kept as integers: the code only ever tests them against zero. *)
Inductive Json : Type :=
| JUndefined
| JNull
| JBool (b : bool)
| JNum (n : Z)
| JStr (s : string)
| JArr (items : list Json)
| JObj (props : list (string * Json)).

(** [Record<string, V>] *)
Definition JsObject (V : Type) : Type := list (string * V).

(** ToBoolean *)
Definition truthy (v : Json) : bool :=
  match v with
  | JUndefined | JNull => false
  | JBool b => b
  | JNum n => negb (n =? 0)%Z
  | JStr s => negb (String.eqb s "")
  | JArr _ | JObj _ => true
  end.

(** [a || b] *)
Definition js_or (a b : Json) : Json := if truthy a then a else b.

(** [v === 'literal'] *)
Definition is_str (v : Json) (lit : string) : bool :=
  match v with
  | JStr s => String.eqb s lit
  | _ => false
  end.

(** [o[k]] on a record, [None] standing for [undefined]. *)
Fixpoint obj_get {V} (o : JsObject V) (k : string) : option V :=
  match o with
  | [] => None
  | (k', v) :: o' => if String.eqb k' k then Some v else obj_get o' k
  end.

Definition obj_has {V} (o : JsObject V) (k : string) : bool :=
  match obj_get o k with Some _ => true | None => false end.

(** [v.k] for a value [v] that is neither [null] nor [undefined], and a
    name [k] that no built-in prototype defines. *)
Definition js_get (v : Json) (k : string) : Json :=
  match v with
  | JObj o => default JUndefined (obj_get o k)
  | _ => JUndefined
  end.

(** [v?.k] *)
Definition js_get_opt (v : Json) (k : string) : Json :=
  match v with
  | JUndefined | JNull => JUndefined
  | _ => js_get v k
  end.

(** [Object.keys(o)], [Object.entries(o)] *)
Definition Object_keys {V} (o : JsObject V) : list string := map fst o.
Definition Object_entries {V} (o : JsObject V) : list (string * V) := o.

(** *** Property order

    An object enumerates its array-index keys first, in ascending
    numeric order, and then its other string keys in the order they were
    created.  [obj_set] keeps a record in that order. *)

Definition is_digit (c : ascii) : bool :=
  let n := nat_of_ascii c in (48 <=? n) && (n <=? 57).

Fixpoint digits_value (s : string) (acc : N) : option N :=
  match s with
  | EmptyString => Some acc
  | String c s' =>
      if is_digit c
      then digits_value s' (acc * 10 + (N_of_ascii c - 48))%N
      else None
  end.

(** A canonical numeric string below 2^32 - 1. *)
Definition array_index (k : string) : option N :=
  match k with
  | EmptyString => None
  | String c rest =>
      if Ascii.eqb c "0"
      then (if String.eqb rest "" then Some 0%N else None)
      else match digits_value k 0 with
           | Some n => if (n <? 2 ^ 32 - 1)%N then Some n else None
           | None => None
           end
  end.

Fixpoint obj_replace {V} (o : JsObject V) (k : string) (v : V) : JsObject V :=
  match o with
  | [] => []
  | (k', v') :: o' =>
      if String.eqb k' k then (k', v) :: o' else (k', v') :: obj_replace o' k v
  end.

Fixpoint obj_insert_index {V} (n : N) (k : string) (v : V) (o : JsObject V)
  : JsObject V :=
  match o with
  | [] => [(k, v)]
  | (k', v') :: o' =>
      match array_index k' with
      | Some m =>
          if (m <? n)%N then (k', v') :: obj_insert_index n k v o'
          else (k, v) :: o
      | None => (k, v) :: o
      end
  end.

(** [o[k] = v] *)
Definition obj_set {V} (o : JsObject V) (k : string) (v : V) : JsObject V :=
  if obj_has o k then obj_replace o k v
  else match array_index k with
       | Some n => obj_insert_index n k v o
       | None => o ++ [(k, v)]
       end.

End Js.

(* ===================================================================== *)
(** ** What a polling run does to the outside world *)
(* ===================================================================== *)

Inductive Level : Type := LLog | LWarn | LError.

(** [Msg] is the type of console messages of the program at hand. *)
Inductive Event (Msg : Type) : Type :=
| EvFetch (attempt : nat)          (* axios.get issued on this attempt *)
| EvSleep (ms : Z)                 (* setTimeout awaited *)
| EvLog (level : Level) (m : Msg). (* console.log / warn / error *)

Arguments EvFetch {Msg} attempt.
Arguments EvSleep {Msg} ms.
Arguments EvLog {Msg} level m.

(** The attempts on which a run fetched, and the sleeps it took, in order. *)
Definition fetches {Msg} (tr : list (Event Msg)) : list nat :=
  flat_map (fun e => match e with EvFetch a => [a] | _ => [] end) tr.

Definition sleeps {Msg} (tr : list (Event Msg)) : list Z :=
  flat_map (fun e => match e with EvSleep ms => [ms] | _ => [] end) tr.

(** The same trace without its console output. *)
Definition timeline {Msg} (tr : list (Event Msg)) : list (Event Msg) :=
  List.filter (fun e => match e with EvLog _ _ => false | _ => true end) tr.

(** The timeline of [n] attempts from attempt [a] on, with one sleep of
    [interval] between any two consecutive attempts and nothing else. *)
Fixpoint schedule {Msg} (interval : Z) (a n : nat) : list (Event Msg) :=
  match n with
  | 0 => []
  | S n' =>
      EvFetch a :: match n' with
                   | 0 => []
                   | S _ => EvSleep interval :: schedule interval (S a) n'
                   end
  end.

(** How an [axios.get] can fail: with a response carrying an HTTP status
    ([axios.isAxiosError(error) && error.response]), or in any other way
    (network failure, timeout). *)
Inductive FetchError : Type :=
| ResponseError (status : Z)
| NoResponseError.

(* ===================================================================== *)
(** ** src/services/email-on-acid-service.ts *)
(* ===================================================================== *)

Module EmailOnAcid.
Import Js.

Definition MAX_POLLING_ATTEMPTS : nat := 60.
Definition POLLING_INTERVAL_MS : Z := 10000.

(** [response.data], typed [Record<string, any>] by the code; [None] is
    a falsy body. *)
Inductive FetchOutcome : Type :=
| FetchOk (data : option (JsObject Json))
| FetchFailed (e : FetchError).

Inductive Msg : Type :=
| MNoClientsGiven
| MAttempt (attempt : nat)
| MNoResultsYet
| MClientMissing (id : string)
| MStored (id url : string)
| MSameUrl (id : string)
| MInvalidUrl (id : string) (value : Json)
| MFailed (id : string) (status reason : Json)
| MStillPending (id : string) (status : Json)
| MAllFinal
| MProgress (extractedCount : nat) (remainingToProcess : list string)
| MNotFound404
| MAuthFailed401
| MStatus (status : Z)
| MNetwork
| MNoneRetrieved (clients : list string)
| MOnlySome (count total : nat) (missingClients : list string)
| MAllRetrieved (count : nat)
| MRetrievedUnrequested (count : nat).

Abbreviation Ev := (Event Msg).

Inductive Error : Type :=
| TestIdRequired                 (* new Error('... test_id is required ...') *)
| Rethrown (e : FetchError).     (* throw error *)

Inductive Outcome : Type :=
| Returned (extractedUrls : JsObject string)
| Thrown (e : Error).

(** The variables of one iteration of the polling loop. *)
Record Scan : Type := mkScan {
  extractedUrls : JsObject string;
  allTargetClientsProcessed : bool;
  console : list Ev
}.

Definition say (l : Level) (m : Msg) (s : Scan) : Scan :=
  mkScan (extractedUrls s) (allTargetClientsProcessed s) (console s ++ [EvLog l m]).

Definition not_processed (s : Scan) : Scan :=
  mkScan (extractedUrls s) false (console s).

Definition store (id url : string) (s : Scan) : Scan :=
  mkScan (obj_set (extractedUrls s) id url) (allTargetClientsProcessed s) (console s).

(** [currentApiResults[id]] *)
Definition result_of (currentApiResults : JsObject Json) (id : string) : Json :=
  default JUndefined (obj_get currentApiResults id).

Definition final_status (status : Json) : bool :=
  is_str status "Complete" || is_str status "Failed" || is_str status "Bounced".

(** The three branches on [clientResult.status]. *)
Inductive Class : Type := Complete | FailedOrBounced | Pending.

Definition classify (clientResult : Json) : Class :=
  if is_str (js_get clientResult "status") "Complete" then Complete
  else if is_str (js_get clientResult "status") "Failed"
          || is_str (js_get clientResult "status") "Bounced" then FailedOrBounced
  else Pending.

(** [clientResult.screenshots?.default && typeof ... === 'string'] *)
Definition default_screenshot (clientResult : Json) : Json :=
  js_get_opt (js_get clientResult "screenshots") "default".

Definition valid_url (v : Json) : option string :=
  match v with
  | JStr url => if truthy v then Some url else None
  | _ => None
  end.

(** [status_details?.bounce_message || error_message || 'No specific ...'] *)
Definition failure_reason (clientResult : Json) : Json :=
  js_or (js_or (js_get_opt (js_get clientResult "status_details") "bounce_message")
               (js_get clientResult "error_message"))
        (JStr "No specific error message provided.").

(** Body of [for (const targetClientId of clientsToMonitor)]. *)
Definition scan_client (currentApiResults : JsObject Json)
    (s : Scan) (targetClientId : string) : Scan :=
  let clientResult := result_of currentApiResults targetClientId in
  if negb (truthy clientResult) then
    say LLog (MClientMissing targetClientId) (not_processed s)
  else
    match classify clientResult with
    | Complete =>
        match valid_url (default_screenshot clientResult) with
        | Some url =>
            if bool_decide (obj_get (extractedUrls s) targetClientId = Some url)
            then say LLog (MSameUrl targetClientId) s
            else say LLog (MStored targetClientId url) (store targetClientId url s)
        | None =>
            not_processed
              (say LWarn (MInvalidUrl targetClientId (default_screenshot clientResult)) s)
        end
    | FailedOrBounced =>
        match obj_get (extractedUrls s) targetClientId with
        | Some (String _ _) => s
        | _ => say LWarn (MFailed targetClientId (js_get clientResult "status")
                                  (failure_reason clientResult)) s
        end
    | Pending =>
        say LLog (MStillPending targetClientId (js_get clientResult "status"))
            (not_processed s)
    end.

(** [clientData && (status === 'Complete' || 'Failed' || 'Bounced')] *)
Definition finalized (currentApiResults : JsObject Json) (id : string) : bool :=
  let clientData := result_of currentApiResults id in
  truthy clientData && final_status (js_get clientData "status").

(** [emailClients && emailClients.length > 0 ? emailClients
     : Object.keys(currentApiResults)] *)
Definition clientsToMonitor (emailClients : list string)
    (currentApiResults : JsObject Json) : list string :=
  if 0 <? length emailClients then emailClients else Object_keys currentApiResults.

Inductive Control : Type :=
| Continue                       (* fall out of try/catch *)
| Break                          (* break *)
| Throw (e : FetchError).        (* throw error *)

Section Polling.
(** The service as seen on each attempt, and the arguments of the call. *)
Variable service : nat -> FetchOutcome.
Variable emailClients : list string.

(** The [try] block once the response is there. *)
Definition on_response (data : option (JsObject Json)) (s : Scan) : Control * Scan :=
  let currentApiResults := default [] data in
  let monitored := clientsToMonitor emailClients currentApiResults in
  let s1 :=
    if (length (Object_keys currentApiResults) =? 0) && (0 <? length monitored)
    then say LLog MNoResultsYet (not_processed s) else s in
  let s2 := fold_left (scan_client currentApiResults) monitored s1 in
  let finalizedTargetClientsCount :=
    length (List.filter (finalized currentApiResults) monitored) in
  if finalizedTargetClientsCount =? length monitored
  then (Break, say LLog MAllFinal s2)
  else
    let extractedCount := length (Object_keys (extractedUrls s2)) in
    let remainingToProcess :=
      List.filter (fun id => negb (finalized currentApiResults id)) monitored in
    (Continue, say LLog (MProgress extractedCount remainingToProcess) s2).

(** The [catch] block. *)
Definition on_error (e : FetchError) (s : Scan) : Control * Scan :=
  match e with
  | ResponseError status =>
      if (status =? 404)%Z then (Continue, not_processed (say LWarn MNotFound404 s))
      else if (status =? 401)%Z then (Throw e, say LError MAuthFailed401 s)
      else (Continue, not_processed (say LWarn (MStatus status) s))
  | NoResponseError => (Continue, not_processed (say LWarn MNetwork s))
  end.

(** One iteration of the loop up to, not including, the final sleep. *)
Definition attempt_body (attempt : nat) (urls : JsObject string) : Control * Scan :=
  let s := mkScan urls true [EvLog LLog (MAttempt attempt); EvFetch attempt] in
  match service attempt with
  | FetchOk data => on_response data s
  | FetchFailed e => on_error e s
  end.

(** [if (attempt < MAX - 1 && !allTargetClientsProcessed) await sleep] *)
Definition pause (attempt : nat) (s : Scan) : list Ev :=
  if (attempt <? MAX_POLLING_ATTEMPTS - 1) && negb (allTargetClientsProcessed s)
  then [EvSleep POLLING_INTERVAL_MS] else [].

(** [for (let attempt = 0; attempt < MAX; attempt++)], entered at
    [attempt] with [remaining = MAX - attempt] iterations to go. *)
Fixpoint poll (remaining attempt : nat) (urls : JsObject string)
  : Outcome * list Ev :=
  match remaining with
  | 0 => (Returned urls, [])
  | S remaining' =>
      match attempt_body attempt urls with
      | (Throw e, s) => (Thrown (Rethrown e), console s)
      | (Break, s) => (Returned (extractedUrls s), console s)
      | (Continue, s) =>
          let (out, tr) := poll remaining' (S attempt) (extractedUrls s) in
          (out, console s ++ pause attempt s ++ tr)
      end
  end.

(** The closing message. *)
Definition final_log (urls : JsObject string) : Ev :=
  let count := length (Object_keys urls) in
  let total := length emailClients in
  if (count =? 0) && (0 <? total) then
    EvLog LWarn (MNoneRetrieved emailClients)
  else if (0 <? total) && (count <? total) then
    EvLog LWarn (MOnlySome count total
      (List.filter (fun id => match obj_get urls id with
                              | Some (String _ _) => false
                              | _ => true
                              end) emailClients))
  else if 0 <? total then EvLog LLog (MAllRetrieved count)
  else EvLog LLog (MRetrievedUnrequested count).

Definition getPreviewUrls (test_id : Json) : Outcome * list Ev :=
  if negb (truthy test_id) then (Thrown TestIdRequired, [])
  else
    let intro := if length emailClients =? 0
                 then [EvLog LWarn MNoClientsGiven] else [] in
    match poll MAX_POLLING_ATTEMPTS 0 [] with
    | (Returned urls, tr) => (Returned urls, intro ++ tr ++ [final_log urls])
    | (Thrown e, tr) => (Thrown e, intro ++ tr)
    end.

(** [extractedUrls] as the first [n] iterations leave it. *)
Fixpoint urls_after (n : nat) : JsObject string :=
  match n with
  | 0 => []
  | S n' => extractedUrls (snd (attempt_body n' (urls_after n')))
  end.

End Polling.

(** *** Vocabulary of the statements *)

(** The client's entry carries one of the three final statuses. *)
Definition terminal_in (currentApiResults : JsObject Json) (id : string) : Prop :=
  exists r, obj_get currentApiResults id = Some r /\
    (js_get r "status" = JStr "Complete" \/
     js_get r "status" = JStr "Failed" \/
     js_get r "status" = JStr "Bounced").

(** [url] is the default screenshot of [id], reported complete. *)
Definition completed_with (currentApiResults : JsObject Json) (id url : string) : Prop :=
  exists r, obj_get currentApiResults id = Some r /\
    js_get r "status" = JStr "Complete" /\
    js_get_opt (js_get r "screenshots") "default" = JStr url.


End EmailOnAcid.

(* ===================================================================== *)
(** ** get-full-eoa-results.ts *)
(* ===================================================================== *)

Module FullResults.
Import Js.

Definition MAX_POLLING_ATTEMPTS : nat := 60.
Definition POLLING_INTERVAL_MS : Z := 10000.
Definition testId : string := "5IwKDsvNfngdEujSOLfqAbOZyAac8MI43OwX487N94jkr".

(** [response.data] is untyped here. *)
Inductive FetchOutcome : Type :=
| FetchOk (data : Json)
| FetchFailed (e : FetchError).

Inductive Msg : Type :=
| MCredentialsMissing
| MTestIdMissing
| MRetrieving
| MCurrentTime
| MAttempt (attempt : nat)
| MSummary (complete pending failed total : nat)
| MAllFinal
| MMaxReached
| MNotFound404
| MAuthFailed401
| MStatus (status : Z)
| MNetwork
| MNoResponse
| MRetrieved
| MSaving
| MSaved
| MSaveError
| MComplete.

Abbreviation Ev := (Event Msg).

(** How the script ends: [process.exit(code)], or by running off its
    end after writing [JSON.stringify(saved, null, 2)] to the output
    file. *)
Inductive Outcome : Type :=
| Exited (code : Z)
| Finished (saved : Json).

Record Counts : Type := mkCounts { complete : nat; pending : nat; failed : nat }.

(** Body of [for (const clientResult of results)], on the counters and
    [allClientStatusesFinal]. *)
Definition count_client (st : Counts * bool) (clientResult : Json) : Counts * bool :=
  let (c, allFinal) := st in
  let status := js_get_opt clientResult "status" in
  if is_str status "complete" then (mkCounts (S (complete c)) (pending c) (failed c), allFinal)
  else if is_str status "pending" then (mkCounts (complete c) (S (pending c)) (failed c), false)
  else if is_str status "failed" then (mkCounts (complete c) (pending c) (S (failed c)), allFinal)
  else st.

(** [fullApiResponse?.results || []] as the loop sees it: something
    [for ... of] can walk, or a value on which it throws a TypeError
    (kept with its [length] property).  A string is walked character by
    character, which is exact for ASCII. *)
Inductive Results : Type :=
| Iterable (items : list Json)
| NotIterable (length : Json).

Definition results_of (fullApiResponse : Json) : Results :=
  let results := js_or (js_get_opt fullApiResponse "results") (JArr []) in
  match results with
  | JArr items => Iterable items
  | JStr s => Iterable (map (fun c => JStr (String c "")) (String.list_ascii_of_string s))
  | JObj _ => NotIterable (js_get results "length")
  | _ => NotIterable JUndefined
  end.

Definition is_zero (v : Json) : bool :=
  match v with JNum n => (n =? 0)%Z | _ => false end.

(** The counting part of the [try] block: the counters, the flag and
    [total]; [None] when [for ... of] throws. *)
Definition tally (attempt : nat) (results : Results) : option (Counts * bool * nat) :=
  match results with
  | Iterable items =>
      if (length items =? 0) && (attempt =? 0)
      then Some (mkCounts 0 0 0, false, length items)
      else Some (fold_left count_client items (mkCounts 0 0 0, true), length items)
  | NotIterable len =>
      if is_zero len && (attempt =? 0)
      then Some (mkCounts 0 0 0, false, 0)
      else None
  end.

Inductive Control : Type :=
| Continue
| Break
| Exit (code : Z).               (* process.exit(code) *)

(** The variables one iteration leaves behind. *)
Record Iter : Type := mkIter {
  fullApiResponse : Json;
  allClientStatusesFinal : bool;
  console : list Ev
}.

Section Polling.
Variable service : nat -> FetchOutcome.

(** The [catch] block. *)
Definition on_error (e : FetchError) (resp : Json) (tr : list Ev) : Control * Iter :=
  match e with
  | ResponseError status =>
      if (status =? 404)%Z
      then (Continue, mkIter resp false (tr ++ [EvLog LWarn MNotFound404]))
      else if (status =? 401)%Z
      then (Exit 1, mkIter resp true (tr ++ [EvLog LError MAuthFailed401]))
      else (Continue, mkIter resp false (tr ++ [EvLog LWarn (MStatus status)]))
  | NoResponseError =>
      (Continue, mkIter resp false (tr ++ [EvLog LWarn MNetwork]))
  end.

(** The [try] block once the response is there. *)
Definition on_response (attempt : nat) (data : Json) (tr : list Ev) : Control * Iter :=
  match tally attempt (results_of data) with
  | None => on_error NoResponseError data tr
  | Some (c, allFinal, total) =>
      let tr1 := tr ++ [EvLog LLog (MSummary (complete c) (pending c) (failed c) total)] in
      if allFinal && (0 <? total)
      then (Break, mkIter data allFinal (tr1 ++ [EvLog LLog MAllFinal]))
      else if attempt =? MAX_POLLING_ATTEMPTS - 1
      then (Continue, mkIter data allFinal (tr1 ++ [EvLog LWarn MMaxReached]))
      else (Continue, mkIter data allFinal tr1)
  end.

Definition attempt_body (attempt : nat) (resp : Json) : Control * Iter :=
  let tr := [EvLog LLog (MAttempt attempt); EvFetch attempt] in
  match service attempt with
  | FetchOk data => on_response attempt data tr
  | FetchFailed e => on_error e resp tr
  end.

(** [if (attempt < MAX - 1 && !allClientStatusesFinal) await sleep] *)
Definition pause (attempt : nat) (i : Iter) : list Ev :=
  if (attempt <? MAX_POLLING_ATTEMPTS - 1) && negb (allClientStatusesFinal i)
  then [EvSleep POLLING_INTERVAL_MS] else [].

(** [None]: the process exited inside the loop. *)
Fixpoint poll (remaining attempt : nat) (resp : Json) : option Json * list Ev :=
  match remaining with
  | 0 => (Some resp, [])
  | S remaining' =>
      match attempt_body attempt resp with
      | (Exit _, i) => (None, console i)
      | (Break, i) => (Some (fullApiResponse i), console i)
      | (Continue, i) =>
          let (out, tr) := poll remaining' (S attempt) (fullApiResponse i) in
          (out, console i ++ pause attempt i ++ tr)
      end
  end.

(** The script, given the two environment variables and whether the
    output file can be written. *)
Definition getFullEmailOnAcidResults
    (apiKey accountPassword : option string) (writable : bool) : Outcome * list Ev :=
  let unset (v : option string) :=
    match v with Some (String _ _) => false | _ => true end in
  if unset apiKey || unset accountPassword
  then (Exited 1, [EvLog LError MCredentialsMissing])
  else if String.eqb testId ""
  then (Exited 1, [EvLog LError MTestIdMissing])
  else
    let intro := [EvLog LLog MRetrieving; EvLog LLog MCurrentTime] in
    match poll MAX_POLLING_ATTEMPTS 0 JNull with
    | (None, tr) => (Exited 1, intro ++ tr)
    | (Some resp, tr) =>
        if negb (truthy resp)
        then (Exited 1, intro ++ tr ++ [EvLog LWarn MNoResponse])
        else
          let tr' := intro ++ tr ++ [EvLog LLog MRetrieved; EvLog LLog MSaving] in
          if writable
          then (Finished resp, tr' ++ [EvLog LLog MSaved; EvLog LLog MComplete])
          else (Exited 1, tr' ++ [EvLog LError MSaveError])
    end.

End Polling.

End FullResults.

(* ===================================================================== *)
(** ** tests/blueprint.spec.ts: the Gmail payload walk *)
(* ===================================================================== *)

Module Gmail.

(** [gmail_v1.Schema$MessagePartBody], [gmail_v1.Schema$MessagePart]:
    the fields the walk reads.  An absent [parts] is the empty list. *)
Record MessagePartBody : Type := mkBody { data : option string }.

Inductive MessagePart : Type :=
| mkPart (mimeType : option string) (body : option MessagePartBody)
         (parts : list MessagePart).

Definition mimeType (p : MessagePart) : option string :=
  match p with mkPart m _ _ => m end.
Definition body (p : MessagePart) : option MessagePartBody :=
  match p with mkPart _ b _ => b end.
Definition parts (p : MessagePart) : list MessagePart :=
  match p with mkPart _ _ ps => ps end.

(** [payload.mimeType === 'text/html'] and then
    [payload.body && payload.body.data]: the data to decode, if any. *)
Definition html_data (p : MessagePart) : option string :=
  match mimeType p with
  | Some m =>
      if String.eqb m "text/html" then
        match body p with
        | Some b => match data b with
                    | Some (String c d) => Some (String c d)
                    | _ => None
                    end
        | None => None
        end
      else None
  | None => None
  end.

Section Walk.
(** [Buffer.from(data, 'base64').toString('utf8')] *)
Variable decode : string -> string.

Fixpoint getHtmlFromPayload (payload : MessagePart) : option string :=
  match html_data payload with
  | Some d => Some (decode d)
  | None =>
      (fix each (ps : list MessagePart) : option string :=
         match ps with
         | [] => None
         | part :: rest =>
             match getHtmlFromPayload part with
             | Some (String c html) => Some (String c html)     (* if (html) *)
             | _ => each rest
             end
         end) (parts payload)
  end.

(** The [for] loop over the parts, on its own. *)
Fixpoint search_parts (ps : list MessagePart) : option string :=
  match ps with
  | [] => None
  | part :: rest =>
      match getHtmlFromPayload part with
      | Some (String c html) => Some (String c html)
      | _ => search_parts rest
      end
  end.

(** *** The walk as the documentation describes it *)

(** The part tree in depth-first pre-order. *)
Fixpoint preorder (p : MessagePart) : list MessagePart :=
  p :: (fix each (ps : list MessagePart) : list MessagePart :=
          match ps with
          | [] => []
          | q :: rest => preorder q ++ each rest
          end) (parts p).

Fixpoint preorder_all (ps : list MessagePart) : list MessagePart :=
  match ps with
  | [] => []
  | q :: rest => preorder q ++ preorder_all rest
  end.


End Walk.

(** *** Node's base64 decoder

    Both alphabets are accepted, characters outside them are skipped
    and the first ['='] ends the input.  Groups of four sextets give
    three bytes; two or three left-over sextets give one or two. *)

Definition unbase64 (c : ascii) : option N :=
  let n := N_of_ascii c in
  if (65 <=? n)%N && (n <=? 90)%N then Some (n - 65)%N
  else if (97 <=? n)%N && (n <=? 122)%N then Some (n - 71)%N
  else if (48 <=? n)%N && (n <=? 57)%N then Some (n + 4)%N
  else if (n =? 43)%N || (n =? 45)%N then Some 62%N
  else if (n =? 47)%N || (n =? 95)%N then Some 63%N
  else None.

Fixpoint sextets (s : string) : list N :=
  match s with
  | EmptyString => []
  | String c s' =>
      if Ascii.eqb c "=" then []
      else match unbase64 c with
           | Some v => v :: sextets s'
           | None => sextets s'
           end
  end.

Definition byte (n : N) : ascii := ascii_of_N (n mod 256).

Fixpoint bytes_of_sextets (l : list N) : string :=
  match l with
  | a :: b :: c :: d :: rest =>
      String (byte (a * 4 + b / 16))
        (String (byte (b * 16 + c / 4))
           (String (byte (c * 64 + d)) (bytes_of_sextets rest)))
  | [a; b; c] =>
      String (byte (a * 4 + b / 16)) (String (byte (b * 16 + c / 4)) EmptyString)
  | [a; b] => String (byte (a * 4 + b / 16)) EmptyString
  | _ => EmptyString
  end%N.

(** [Buffer.from(data, 'base64').toString('utf8')], exact where the
    decoded bytes are well-formed UTF-8. *)
Definition base64_utf8 (data : string) : string := bytes_of_sextets (sextets data).

End Gmail.

(* ===================================================================== *)
(** ** src/utils/service-factory.ts and src/global-setup.ts *)
(* ===================================================================== *)

Module GlobalSetup.
Import Js.

Record GeneratedPreview : Type := mkPreview {
  name : string;
  url : string;
  client : string
}.

(** *** Strings.  The helpers below are exact on ASCII input. *)

Definition code (c : ascii) : nat := nat_of_ascii c.
Definition is_upper (c : ascii) : bool := (65 <=? code c) && (code c <=? 90).
Definition is_lower (c : ascii) : bool := (97 <=? code c) && (code c <=? 122).
Definition is_word (c : ascii) : bool :=
  is_upper c || is_lower c || is_digit c || (code c =? 95).
(** [\s] *)
Definition is_space (c : ascii) : bool :=
  (code c =? 32) || ((9 <=? code c) && (code c <=? 13)).

Definition lower (c : ascii) : ascii :=
  if is_upper c then ascii_of_nat (code c + 32) else c.
Definition upper (c : ascii) : ascii :=
  if is_lower c then ascii_of_nat (code c - 32) else c.

Fixpoint map_string (f : ascii -> ascii) (s : string) : string :=
  match s with
  | EmptyString => EmptyString
  | String c s' => String (f c) (map_string f s')
  end.

Definition toLowerCase : string -> string := map_string lower.
Definition toUpperCase : string -> string := map_string upper.

Fixpoint filter_string (keep : ascii -> bool) (s : string) : string :=
  match s with
  | EmptyString => EmptyString
  | String c s' =>
      if keep c then String c (filter_string keep s') else filter_string keep s'
  end.

(** [.replace(/\s+/g, sep)] *)
Fixpoint replace_spaces (sep : ascii) (in_run : bool) (s : string) : string :=
  match s with
  | EmptyString => EmptyString
  | String c s' =>
      if is_space c
      then (if in_run then replace_spaces sep true s'
            else String sep (replace_spaces sep true s'))
      else String c (replace_spaces sep false s')
  end.

Definition sanitizeFilename (name : string) (isKebabCase : bool) : string :=
  let sanitized :=
    filter_string
      (fun c => is_lower c || is_digit c || is_space c
                || (code c =? 45) || (code c =? 46))
      (toLowerCase name) in
  let sanitized :=
    if isKebabCase then replace_spaces "-" false sanitized
    else replace_spaces "_" false sanitized in
  String.substring 0 100 sanitized.

(** [.replace(/\b\w/g, char => char.toUpperCase())] *)
Fixpoint capitalize_words (after_word : bool) (s : string) : string :=
  match s with
  | EmptyString => EmptyString
  | String c s' =>
      String (if is_word c && negb after_word then upper c else c)
             (capitalize_words (is_word c) s')
  end.

(** [`${client.replace(/_/g, ' ').replace(/\b\w/g, ...)} Preview`] *)
Definition preview_name (client : string) : string :=
  capitalize_words false
    (map_string (fun c => if code c =? 95 then " "%char else c) client)
  +:+ " Preview".

(** [n.toString().padStart(width, '0')] *)
Definition padStart (width : nat) (n : nat) : string :=
  let s := pretty n in
  String.concat "" (replicate (width - String.length s) "0") +:+ s.

(** *** [JSON.stringify(generatedPreviews, null, 2)] *)

Definition dquote : ascii := ascii_of_nat 34.
Definition backslash : ascii := ascii_of_nat 92.
Definition newline : string := String (ascii_of_nat 10) EmptyString.

Definition hex_digit (n : nat) : ascii :=
  if n <? 10 then ascii_of_nat (48 + n) else ascii_of_nat (87 + n).

Definition escape (c : ascii) : string :=
  let n := code c in
  if n =? 34 then String backslash (String dquote EmptyString)
  else if n =? 92 then String backslash (String backslash EmptyString)
  else if n =? 8 then String backslash "b"
  else if n =? 9 then String backslash "t"
  else if n =? 10 then String backslash "n"
  else if n =? 12 then String backslash "f"
  else if n =? 13 then String backslash "r"
  else if n <? 32
  then String backslash "u00"
       +:+ String (hex_digit (n / 16)) (String (hex_digit (n mod 16)) EmptyString)
  else String c EmptyString.

Fixpoint escape_string (s : string) : string :=
  match s with
  | EmptyString => EmptyString
  | String c s' => escape c +:+ escape_string s'
  end.

Definition quote (s : string) : string :=
  String dquote (escape_string s) +:+ String dquote EmptyString.

Definition stringify_preview (p : GeneratedPreview) : string :=
  "  {" +:+ newline
  +:+ "    " +:+ quote "name" +:+ ": " +:+ quote (name p) +:+ "," +:+ newline
  +:+ "    " +:+ quote "url" +:+ ": " +:+ quote (url p) +:+ "," +:+ newline
  +:+ "    " +:+ quote "client" +:+ ": " +:+ quote (client p) +:+ newline
  +:+ "  }".

Definition JSON_stringify (previews : list GeneratedPreview) : string :=
  match previews with
  | [] => "[]"
  | _ => "[" +:+ newline
         +:+ String.concat ("," +:+ newline) (map stringify_preview previews)
         +:+ newline +:+ "]"
  end.

(** *** The file system *)

Record FS : Type := mkFS {
  files : gmap string string;      (* regular files and their bytes *)
  dirs : gset string               (* directories *)
}.

Definition existsSync (fs : FS) (p : string) : bool :=
  bool_decide (is_Some (files fs !! p)) || bool_decide (p ∈ dirs fs).

(** [None]: the call throws. *)
Definition readFileSync (fs : FS) (p : string) : option string := files fs !! p.

(** [new Date()] with the getters the script calls; [getUTCMonth] counts
    from zero. *)
Record Date : Type := mkDate {
  getUTCFullYear : nat;
  getUTCMonth : nat;
  getUTCDate : nat;
  getUTCHours : nat;
  getUTCMinutes : nat;
  getUTCSeconds : nat;
  getUTCMilliseconds : nat;
  toLocaleString : string
}.

Definition verboseTimestamp (now : Date) : string :=
  String.concat "-"
    [ pretty (getUTCFullYear now);
      padStart 2 (getUTCMonth now + 1);
      padStart 2 (getUTCDate now);
      padStart 2 (getUTCHours now);
      padStart 2 (getUTCMinutes now);
      padStart 2 (getUTCSeconds now);
      padStart 3 (getUTCMilliseconds now) ].

(** [resolve(dir, name)] for an absolute [dir] and a plain file name. *)
Definition resolve (dir name : string) : string := dir +:+ "/" +:+ name.

(** ToString, as applied to a value used as a property key. *)
Fixpoint to_string (v : Json) : string :=
  match v with
  | JUndefined => "undefined"
  | JNull => "null"
  | JBool b => if b then "true" else "false"
  | JNum n => pretty n
  | JStr s => s
  | JArr items =>
      String.concat ","
        ((fix each (l : list Json) : list string :=
            match l with
            | [] => []
            | x :: l' =>
                match x with
                | JUndefined | JNull => ""
                | _ => to_string x
                end :: each l'
            end) items)
  | JObj _ => "[object Object]"
  end.

(** [Object.values(clientsConfig).map(client => client.id)];
    [None] when it throws a TypeError. *)
Definition Object_values (v : Json) : option (list Json) :=
  match v with
  | JUndefined | JNull => None
  | JObj o => Some (map snd o)
  | JArr items => Some items
  | JStr s => Some (map (fun c => JStr (String c "")) (String.list_ascii_of_string s))
  | _ => Some []
  end.

Fixpoint client_ids (clients : list Json) : option (list Json) :=
  match clients with
  | [] => Some []
  | c :: rest =>
      match c with
      | JUndefined | JNull => None
      | _ => match client_ids rest with
             | Some ids => Some (js_get c "id" :: ids)
             | None => None
             end
      end
  end.

Inductive Error : Type :=
| HtmlFileMissing (path : string)
| ClientsLoadFailed
| ClientsFileMissing (path : string)
| EnvironmentMissing
| FsError (path : string)               (* an error thrown by fs *)
| ServiceInitFailed (serviceName : string)
| PreviewGenerationFailed.

Inductive Msg : Type :=
| MTaskNameUnset
| MRunning (taskName : string)
| MSaved (path : string)
| MArchived (path : string)
| MCritical
| MFinished.

(** How the returned promise settles: resolved before any work was
    done, resolved at the end of the script, or rejected. *)
Inductive Outcome : Type :=
| Skipped
| Finished
| Failed (e : Error).

(** [IEmailPreviewService], with a rejected promise as [None];
    [getSupportedClients], which the setup script never calls, is left
    out. *)
Record IEmailPreviewService : Type := mkService {
  injectHtml : string -> string -> list Json -> option Json;
  getPreviewUrls : Json -> list Json -> option (JsObject string)
}.

Inductive InitError : Type :=
| PasswordRequired               (* thrown by the factory *)
| CredentialsRequired            (* thrown by the constructor *)
| Unsupported (serviceName : string).

Definition nonempty (s : option string) : option string :=
  match s with
  | Some (String c r) => Some (String c r)
  | _ => None
  end.

Section Setup.
(** The directories fixed by [__dirname], the parser, the network and
    whether the file system accepts a write at a path. *)
Variables TEMP_DIR EMAILS_DIR DEFAULT_CLIENTS_FILE : string.
Variable JSON_parse : string -> option Json.
Variable writable : string -> bool.
Variable create_test : string -> string -> list Json -> option Json.
Variable service : nat -> EmailOnAcid.FetchOutcome.

Definition ARCHIVE_DIR : string := resolve TEMP_DIR "archives".

(** [class EmailOnAcidService]; console output of its methods is not
    repeated here. *)
Definition EmailOnAcidService (apiKey accountPassword : string)
  : InitError + IEmailPreviewService :=
  if String.eqb apiKey "" || String.eqb accountPassword ""
  then inl CredentialsRequired
  else inr {|
    injectHtml := fun htmlContent subject clients =>
      match create_test htmlContent subject clients with
      | Some data =>
          if negb (truthy data) || negb (truthy (js_get data "id")) then None
          else Some (JObj [("test_id", js_get data "id")])
      | None => None
      end;
    getPreviewUrls := fun injectionResponse emailClients =>
      match fst (EmailOnAcid.getPreviewUrls service (map to_string emailClients)
                   (js_get injectionResponse "test_id")) with
      | EmailOnAcid.Returned urls => Some urls
      | EmailOnAcid.Thrown _ => None
      end
  |}.

Definition getEmailPreviewService (serviceName apiKey : string)
    (accountPassword : option string) : InitError + IEmailPreviewService :=
  if String.eqb (toLowerCase serviceName) "emailonacid" then
    match nonempty accountPassword with
    | None => inl PasswordRequired
    | Some pw => EmailOnAcidService apiKey pw
    end
  else inl (Unsupported serviceName).

Definition mkdirSync (fs : FS) (p : string) : option FS :=
  if writable p then Some (mkFS (files fs) ({[p]} ∪ dirs fs)) else None.

Definition writeFileSync (fs : FS) (p content : string) : option FS :=
  if writable p && negb (bool_decide (p ∈ dirs fs))
  then Some (mkFS (<[p := content]> (files fs)) (dirs fs))
  else None.

Definition ensure_dir (fs : FS) (p : string) : option FS :=
  if existsSync fs p then Some fs else mkdirSync fs p.

Definition generatedPreviews (previewUrlsMap : JsObject string) : list GeneratedPreview :=
  map (fun '(client, url) => mkPreview (preview_name client) url client)
      (Object_entries previewUrlsMap).

Definition GENERATED_URLS_FILE (taskName : string) : string :=
  resolve TEMP_DIR
    ("generated-preview-urls-" +:+ sanitizeFilename taskName false +:+ ".json").

Definition archiveFilePath (taskName : string) (now : Date) : string :=
  resolve ARCHIVE_DIR
    ("generated-preview-urls-" +:+ sanitizeFilename taskName false
     +:+ "-" +:+ verboseTimestamp now +:+ ".json").

Definition EMAIL_HTML_FILE (taskName : string) : string :=
  resolve EMAILS_DIR (sanitizeFilename taskName true +:+ ".html").

(** The inner [try] block: whether it ran to its end without throwing,
    the file system it leaves and what it logged. *)
Definition generate (previewService : IEmailPreviewService)
    (taskName : string) (now : Date) (emailHtmlContent : string)
    (desiredApiClients : list Json) (fs : FS)
  : bool * FS * list (Level * Msg) :=
  let emailSubject := taskName +:+ " - EOA Preview - " +:+ toLocaleString now in
  match injectHtml previewService emailHtmlContent emailSubject desiredApiClients with
  | None => (false, fs, [])
  | Some injectionResponse =>
      match getPreviewUrls previewService injectionResponse desiredApiClients with
      | None => (false, fs, [])
      | Some previewUrlsMap =>
          let previews := generatedPreviews previewUrlsMap in
          match writeFileSync fs (GENERATED_URLS_FILE taskName) (JSON_stringify previews) with
          | None => (false, fs, [])
          | Some fs1 =>
              let saved := [(LLog, MSaved (GENERATED_URLS_FILE taskName))] in
              match writeFileSync fs1 (archiveFilePath taskName now)
                      (JSON_stringify previews) with
              | None => (false, fs1, saved)
              | Some fs2 =>
                  (true, fs2,
                   saved ++ [(LLog, MArchived (archiveFilePath taskName now))])
              end
          end
      end
  end.

Definition load_clients (fs : FS) : option (list Json) :=
  clientsConfigString ← readFileSync fs DEFAULT_CLIENTS_FILE;
  clientsConfig ← JSON_parse clientsConfigString;
  values ← Object_values clientsConfig;
  client_ids values.

Definition globalSetup (env : gmap string string) (now : Date) (fs : FS)
  : Outcome * FS * list (Level * Msg) :=
  match nonempty (env !! "TASK_NAME") with
  | None => (Skipped, fs, [(LWarn, MTaskNameUnset)])
  | Some taskName =>
      let running := [(LLog, MRunning taskName)] in
      if negb (existsSync fs (EMAIL_HTML_FILE taskName))
      then (Failed (HtmlFileMissing (EMAIL_HTML_FILE taskName)), fs, running)
      else if negb (existsSync fs DEFAULT_CLIENTS_FILE)
      then (Failed (ClientsFileMissing DEFAULT_CLIENTS_FILE), fs, running)
      else
      match load_clients fs with
      | None => (Failed ClientsLoadFailed, fs, running)
      | Some desiredApiClients =>
      let serviceToUse := toLowerCase <$> env !! "EMAIL_PREVIEW_SERVICE" in
      let apiKey :=
        env !! (default "undefined" (toUpperCase <$> serviceToUse) +:+ "_API_KEY") in
      let accountPassword := env !! "EMAILONACID_ACCOUNT_PASSWORD" in
      match nonempty serviceToUse, nonempty apiKey, nonempty accountPassword with
      | Some serviceToUse, Some apiKey, Some accountPassword =>
      match ensure_dir fs TEMP_DIR with
      | None => (Failed (FsError TEMP_DIR), fs, running)
      | Some fs1 =>
      match ensure_dir fs1 ARCHIVE_DIR with
      | None => (Failed (FsError ARCHIVE_DIR), fs1, running)
      | Some fs2 =>
      match readFileSync fs2 (EMAIL_HTML_FILE taskName) with
      | None => (Failed (FsError (EMAIL_HTML_FILE taskName)), fs2, running)
      | Some emailHtmlContent =>
      match getEmailPreviewService serviceToUse apiKey (Some accountPassword) with
      | inl _ => (Failed (ServiceInitFailed serviceToUse), fs2, running)
      | inr previewService =>
          match generate previewService taskName now emailHtmlContent
                  desiredApiClients fs2 with
                    | (true, fs3, out) =>
              (Finished, fs3, running ++ out ++ [(LLog, MFinished)])
          | (false, fs3, out) =>
              (Failed PreviewGenerationFailed, fs3,
               running ++ out ++ [(LError, MCritical)])
          end
      end end end end
      | _, _, _ => (Failed EnvironmentMissing, fs, running)
      end
      end
  end.

End Setup.

End GlobalSetup.

(** The UTC getters of a [Date] within their ranges, and a check, by
    running it, that [padStart] gives numbers below [bound] digits that
    read back as the number. *)
Module Clock.
Import Js GlobalSetup.

Definition utc_in_range (d : Date) : Prop :=
  getUTCMonth d <= 11 /\ getUTCDate d <= 31 /\ getUTCHours d <= 23 /\
  getUTCMinutes d <= 59 /\ getUTCSeconds d <= 59 /\ getUTCMilliseconds d <= 999.

Definition reads_back (width bound : nat) : bool :=
  forallb (fun n =>
             match digits_value (padStart width n) 0 with
             | Some v => (v =? N.of_nat n)%N
             | None => false
             end) (seq 0 bound).

End Clock.

(** The characters of a string. *)
Abbreviation chars := String.list_ascii_of_string.

(* ===================================================================== *)
(** ** [getBasicAuthHeader]

    The helper stands, word for word, at the head of both
    [src/services/email-on-acid-service.ts] and
    [get-full-eoa-results.ts]. *)
(* ===================================================================== *)

Module BasicAuth.

(** [buffer.toString('base64')]: the standard alphabet, three bytes to
    four characters, the last group padded with ['=']. *)
Definition base64_char (v : N) : ascii :=
  if (v <? 26)%N then ascii_of_N (v + 65)
  else if (v <? 52)%N then ascii_of_N (v + 71)
  else if (v <? 62)%N then ascii_of_N (v - 4)
  else if (v =? 62)%N then "+"%char
  else "/"%char.

Fixpoint base64 (bytes : string) : string :=
  match bytes with
  | EmptyString => EmptyString
  | String a EmptyString =>
      let a := N_of_ascii a in
      String (base64_char (a / 4))
        (String (base64_char (a mod 4 * 16)) "==")
  | String a (String b EmptyString) =>
      let a := N_of_ascii a in
      let b := N_of_ascii b in
      String (base64_char (a / 4))
        (String (base64_char (a mod 4 * 16 + b / 16))
           (String (base64_char (b mod 16 * 4)) "="))
  | String a (String b (String c rest)) =>
      let a := N_of_ascii a in
      let b := N_of_ascii b in
      let c := N_of_ascii c in
      String (base64_char (a / 4))
        (String (base64_char (a mod 4 * 16 + b / 16))
           (String (base64_char (b mod 16 * 4 + c / 64))
              (String (base64_char (c mod 64)) (base64 rest))))
  end%N.

Definition getBasicAuthHeader (apiKey accountPassword : string) : string :=
  "Basic " +:+ base64 (apiKey +:+ ":" +:+ accountPassword).

End BasicAuth.

(* ===================================================================== *)
(** ** tests/blueprint.spec.ts, the Playwright part, and
       playwright.config.ts *)
(* ===================================================================== *)

Module PlaywrightConfig.
Import Js GlobalSetup.

Definition sanitizeFilename (name : string) : string :=
  String.substring 0 100
    (replace_spaces "-" false
       (filter_string
          (fun c => is_lower c || is_digit c || is_space c
                    || (code c =? 45) || (code c =? 46))
          (toLowerCase name))).

End PlaywrightConfig.

Module TestFile.
Import Js GlobalSetup.

Definition sanitizeFilename (name : string) : string :=
  String.substring 0 100
    (replace_spaces "_" false
       (filter_string
          (fun c => is_lower c || is_digit c || is_space c
                    || (code c =? 45) || (code c =? 46))
          (toLowerCase name))).

(** [.replace(/[^a-z0-9]+/g, '-')] *)
Fixpoint replace_non_alnum (in_run : bool) (s : string) : string :=
  match s with
  | EmptyString => EmptyString
  | String c s' =>
      if is_lower c || is_digit c
      then String c (replace_non_alnum false s')
      else if in_run then replace_non_alnum true s'
      else String "-" (replace_non_alnum true s')
  end.

Definition screenshotName (client : string) : string :=
  replace_non_alnum false (toLowerCase client) +:+ ".png".

(** One generated test: its title, the two annotations, the page it
    opens and the screenshot it compares. *)
Record Test : Type := mkTest {
  title : string;
  annotations : list (string * string);
  goto : string;
  toHaveScreenshot : string
}.

Definition test_of (preview : GeneratedPreview) : Test :=
  mkTest ("Tests Staging - " +:+ name preview +:+ " (" +:+ client preview +:+ ")")
         [("client", client preview); ("previewUrl", url preview)]
         (url preview)
         (screenshotName (client preview)).

(** What the file registers with Playwright. *)
Inductive Suite : Type :=
| NoTaskName                                   (* test.skip('No task name defined') *)
| NoPreviews (taskId : string)                 (* describe with one skipped test *)
| Previews (taskId : string) (tests : list Test).

Section Load.
(** [resolve(__dirname, '..', 'temp')], which is the [TEMP_DIR] of the
    setup script, and [JSON.parse] on the text of a manifest: the array
    it holds, [None] when it throws. *)
Variable TEMP_DIR : string.
Variable JSON_parse : string -> option (list GeneratedPreview).

Definition GENERATED_URLS_FILE (taskId : string) : string :=
  resolve TEMP_DIR ("generated-preview-urls-" +:+ sanitizeFilename taskId +:+ ".json").

Definition generatedPreviews (taskId : string) (fs : FS) : list GeneratedPreview :=
  if existsSync fs (GENERATED_URLS_FILE taskId) then
    match readFileSync fs (GENERATED_URLS_FILE taskId) with
    | Some fileContent => default [] (JSON_parse fileContent)
    | None => []
    end
  else [].

Definition suite (env : gmap string string) (fs : FS) : Suite :=
  match nonempty (env !! "TASK_NAME") with
  | None => NoTaskName
  | Some taskId =>
      let previews := generatedPreviews taskId fs in
      if 0 <? length previews
      then Previews taskId (map test_of previews)
      else NoPreviews taskId
  end.

End Load.

End TestFile.

(* ===================================================================== *)
(** ** tests/blueprint.spec.ts: the Gmail extractor around the walk *)
(* ===================================================================== *)

Module Extractor.
Import Gmail.

(** [gmail_v1.Schema$MessagePartHeader] *)
Record Header : Type := mkHeader {
  header_name : option string;
  header_value : option string
}.

(** [fullMessage.data.payload]: the root part with the headers it
    carries. *)
Record Payload : Type := mkPayload {
  headers : option (list Header);
  root : MessagePart
}.

(** [number | null]; [new Date(s).getTime()] is [NaN] for a string that
    is not a date. *)
Inductive Timestamp : Type :=
| Null
| NaN
| Num (ms : Z).

Record EmailHTMLData : Type := mkEmail {
  id : string;
  html : string;
  timestamp : Timestamp
}.

Record Config : Type := mkConfig {
  scopes : list string;
  keyfilePath : string;
  messageId : string
}.

Inductive Msg : Type :=
| MConfigFailed
| MNoPayload (messageId : string)
| MNoHtml (messageId : string)
| MProcessingError (messageId : string)
| MSavedTo (filename : string)
| MSaveError
| MNoEmail (messageId : string)
| MRunRejected.

Section Run.
(** The world around the script: the base64 decoder, [Date] parsing
    ([None] is an invalid date), the Gmail request ([None]: it
    rejects), the clock, whether [authenticate] resolves and whether a
    file can be written. *)
Variable decode : string -> string.
Variable Date_parse : string -> option Z.
Variable messages_get : string -> option (option Payload).
Variable Date_now : Z.
Variable authenticate : list string -> string -> bool.
Variable writable : string -> bool.

Definition is_date (header : Header) : bool :=
  match header_name header with
  | Some n => String.eqb n "Date"
  | None => false
  end.

Definition receivedTimestamp (payload : Payload) : Timestamp :=
  match headers payload with
  | Some hs =>
      match List.find is_date hs with
      | Some dateHeader =>
          match header_value dateHeader with
          | Some (String c v) =>
              match Date_parse (String c v) with
              | Some ms => Num ms
              | None => NaN
              end
          | _ => Null
          end
      | None => Null
      end
  | None => Null
  end.

Definition getEmailHtmlById (messageId : string)
  : list EmailHTMLData * list (Level * Msg) :=
  match messages_get messageId with
  | None => ([], [(LError, MProcessingError messageId)])
  | Some None => ([], [(LLog, MNoPayload messageId)])
  | Some (Some payload) =>
      match getHtmlFromPayload decode (root payload) with
      | Some (String c h) =>
          ([mkEmail messageId (String c h) (receivedTimestamp payload)], [])
      | _ => ([], [(LLog, MNoHtml messageId)])
      end
  end.

(** [emailData.timestamp || Date.now()] *)
Definition timestamp_or_now (t : Timestamp) : Z :=
  match t with
  | Num ms => if (ms =? 0)%Z then Date_now else ms
  | _ => Date_now
  end.

Definition outputFilename (emailData : EmailHTMLData) : string :=
  "email_" +:+ id emailData +:+ "_"
  +:+ pretty (timestamp_or_now (timestamp emailData)) +:+ ".html".

(** [run().catch(console.error)]: the files written, with their bytes,
    and the console.  [config] is what [loadConfig] returned. *)
Definition run (config : option Config) : list (string * string) * list (Level * Msg) :=
  match config with
  | None => ([], [(LError, MConfigFailed)])
  | Some config =>
      if negb (authenticate (scopes config) (keyfilePath config))
      then ([], [(LError, MRunRejected)])
      else
        match getEmailHtmlById (messageId config) with
        | (emailData :: _, out) =>
            if writable (outputFilename emailData)
            then ([(outputFilename emailData, html emailData)],
                  out ++ [(LLog, MSavedTo (outputFilename emailData))])
            else ([], out ++ [(LError, MSaveError)])
        | ([], out) => ([], out ++ [(LLog, MNoEmail (messageId config))])
        end
  end.

End Run.

End Extractor.

(* ===================================================================== *)
(** ** Concrete runs used as examples below *)
(* ===================================================================== *)

Module Scenarios.
Import Js.

(** One client entry of a results object. *)
Definition entry (status : string) (url : option string) : Json :=
  JObj (("status", JStr status)
        :: match url with
           | Some u => [("screenshots", JObj [("default", JStr u)])]
           | None => []
           end).

(** Client [a] is processing on the first attempt, complete afterwards. *)
Definition completes_second (attempt : nat) : EmailOnAcid.FetchOutcome :=
  match attempt with
  | 0 => EmailOnAcid.FetchOk (Some [("a", entry "Processing" None)])
  | _ => EmailOnAcid.FetchOk (Some [("a", entry "Complete" (Some "https://p/a.png"))])
  end.

(** The full results show one pending client first, then a complete one. *)
Definition full_completes_second (attempt : nat) : FullResults.FetchOutcome :=
  match attempt with
  | 0 => FullResults.FetchOk (JObj [("results", JArr [JObj [("status", JStr "pending")]])])
  | _ => FullResults.FetchOk (JObj [("results", JArr [JObj [("status", JStr "complete")]])])
  end.

(** The results endpoint answering with an object keyed by client, the
    shape [getPreviewUrls] reads; it has no [results] property. *)
Definition full_keyed_by_client (attempt : nat) : FullResults.FetchOutcome :=
  FullResults.FetchOk (JObj [("a", entry "Complete" (Some "https://p/a.png"))]).

(** Authentication fails on the second attempt. *)
Definition auth_fails_second (attempt : nat) : EmailOnAcid.FetchOutcome :=
  match attempt with
  | 0 => EmailOnAcid.FetchOk (Some [("a", entry "Processing" None)])
  | _ => EmailOnAcid.FetchFailed (ResponseError 401)
  end.

Definition full_auth_fails_second (attempt : nat) : FullResults.FetchOutcome :=
  match attempt with
  | 0 => FullResults.FetchOk (JObj [("results", JArr [JObj [("status", JStr "pending")]])])
  | _ => FullResults.FetchFailed (ResponseError 401)
  end.

(** The job is not found on the first attempt and complete on the next. *)
Definition not_found_first (attempt : nat) : EmailOnAcid.FetchOutcome :=
  match attempt with
  | 0 => EmailOnAcid.FetchFailed (ResponseError 404)
  | _ => EmailOnAcid.FetchOk (Some [("a", entry "Complete" (Some "https://p/a.png"))])
  end.

Definition full_not_found_first (attempt : nat) : FullResults.FetchOutcome :=
  match attempt with
  | 0 => FullResults.FetchFailed (ResponseError 404)
  | _ => FullResults.FetchOk (JObj [("results", JArr [JObj [("status", JStr "complete")]])])
  end.


(** Client [a] never gets past processing. *)
Definition always_processing (attempt : nat) : EmailOnAcid.FetchOutcome :=
  EmailOnAcid.FetchOk (Some [("a", entry "Processing" None)]).

(** No clients were asked for.  The first response shows client [a]
    alone; [b] shows up on the second attempt, when [a] is complete,
    and completes on the third. *)
Definition new_client_appears (attempt : nat) : EmailOnAcid.FetchOutcome :=
  match attempt with
  | 0 => EmailOnAcid.FetchOk (Some [("a", entry "Processing" None)])
  | 1 => EmailOnAcid.FetchOk
           (Some [("a", entry "Complete" (Some "https://p/a.png"));
                  ("b", entry "Processing" None)])
  | _ => EmailOnAcid.FetchOk
           (Some [("a", entry "Complete" (Some "https://p/a.png"));
                  ("b", entry "Complete" (Some "https://p/b.png"))])
  end.

(** A multipart message whose first HTML part has data that decodes to
    nothing, followed by a second HTML part. *)
Definition empty_html_first : Gmail.MessagePart :=
  Gmail.mkPart (Some "multipart/alternative") None
    [ Gmail.mkPart (Some "text/html") (Some (Gmail.mkBody (Some "="))) [];
      Gmail.mkPart (Some "text/html") (Some (Gmail.mkBody (Some "PGI+"))) [] ].


(** A checkout of the repository with one task and one client. *)
Definition setup_env : gmap string string :=
  list_to_map [ ("TASK_NAME", "Summer Sale");
                ("EMAIL_PREVIEW_SERVICE", "EmailOnAcid");
                ("EMAILONACID_API_KEY", "key");
                ("EMAILONACID_ACCOUNT_PASSWORD", "password") ].

Definition setup_fs : GlobalSetup.FS :=
  GlobalSetup.mkFS
    (list_to_map [ ("/repo/emails/summer-sale.html", "<html></html>");
                   ("/repo/default-clients-eoa.json", "{ }") ])
    ({[ "/repo"; "/repo/emails" ]}).

Definition setup_now : GlobalSetup.Date :=
  GlobalSetup.mkDate 2025 6 23 20 58 0 7 "7/23/2025, 17:58:00".

Definition setup_run
  : GlobalSetup.Outcome * GlobalSetup.FS * list (Level * GlobalSetup.Msg) :=
  GlobalSetup.globalSetup "/repo/temp" "/repo/emails" "/repo/default-clients-eoa.json"
    (fun _ => Some (JObj [("apple", JObj [("id", JStr "a")])]))
    (fun _ => true)
    (fun _ _ _ => Some (JObj [("id", JStr "t1")]))
    completes_second
    setup_env setup_now setup_fs.

(** The job has no results at all yet. *)
Definition nothing_yet (attempt : nat) : EmailOnAcid.FetchOutcome :=
  EmailOnAcid.FetchOk (Some []).

(** The first response shows a pending client; every later attempt
    fails without a response. *)
Definition full_lost_after_first (attempt : nat) : FullResults.FetchOutcome :=
  match attempt with
  | 0 => FullResults.FetchOk (JObj [("results", JArr [JObj [("status", JStr "pending")]])])
  | _ => FullResults.FetchFailed NoResponseError
  end.



End Scenarios.

(* ===================================================================== *)
(** * Properties *)
(* ===================================================================== *)

Module JsFacts.
Import Js.

(** *** Reading back what was written *)

Lemma obj_get_replace_eq {V} (o : JsObject V) k v :
  obj_has o k = true -> obj_get (obj_replace o k v) k = Some v.
Proof.
  unfold obj_has. induction o as [|[k' v'] o IH]; simpl; [discriminate|].
  destruct (String.eqb k' k) eqn:E; simpl; rewrite E; auto.
Qed.

Lemma obj_get_replace_ne {V} (o : JsObject V) k v k' :
  k <> k' -> obj_get (obj_replace o k v) k' = obj_get o k'.
Proof.
  intros Hne. induction o as [|[k0 v0] o IH]; simpl; [reflexivity|].
  destruct (String.eqb k0 k) eqn:E; simpl.
  - apply String.eqb_eq in E; subst k0.
    destruct (String.eqb k k') eqn:E'; [|reflexivity].
    apply String.eqb_eq in E'. contradiction.
  - destruct (String.eqb k0 k'); auto.
Qed.

Lemma obj_get_insert_index_eq {V} n (o : JsObject V) k v :
  obj_has o k = false -> obj_get (obj_insert_index n k v o) k = Some v.
Proof.
  unfold obj_has. induction o as [|[k' v'] o IH]; simpl; intros H.
  - now rewrite String.eqb_refl.
  - destruct (String.eqb k' k) eqn:E; [discriminate|].
    destruct (array_index k') as [m|]; [destruct (m <? n)%N|];
      simpl; rewrite ?E, ?String.eqb_refl; auto.
Qed.

Lemma obj_get_insert_index_ne {V} n (o : JsObject V) k v k' :
  k <> k' -> obj_get (obj_insert_index n k v o) k' = obj_get o k'.
Proof.
  intros Hne. apply String.eqb_neq in Hne.
  induction o as [|[k0 v0] o IH]; simpl.
  - now rewrite Hne.
  - destruct (array_index k0) as [m|]; [destruct (m <? n)%N|];
      simpl; rewrite ?Hne; auto.
    destruct (String.eqb k0 k'); auto.
Qed.

Lemma obj_get_app {V} (o1 o2 : JsObject V) k :
  obj_get (o1 ++ o2) k =
  match obj_get o1 k with Some v => Some v | None => obj_get o2 k end.
Proof.
  induction o1 as [|[k0 v0] o1 IH]; simpl; [reflexivity|].
  destruct (String.eqb k0 k); auto.
Qed.

Lemma obj_get_set_eq {V} (o : JsObject V) k v :
  obj_get (obj_set o k v) k = Some v.
Proof.
  unfold obj_set. destruct (obj_has o k) eqn:H.
  - now apply obj_get_replace_eq.
  - destruct (array_index k).
    + now apply obj_get_insert_index_eq.
    + rewrite obj_get_app. unfold obj_has in H.
      destruct (obj_get o k); [discriminate|]. simpl.
      now rewrite String.eqb_refl.
Qed.

Lemma obj_get_set_ne {V} (o : JsObject V) k v k' :
  k <> k' -> obj_get (obj_set o k v) k' = obj_get o k'.
Proof.
  intros Hne. unfold obj_set. destruct (obj_has o k).
  - now apply obj_get_replace_ne.
  - destruct (array_index k).
    + now apply obj_get_insert_index_ne.
    + rewrite obj_get_app. destruct (obj_get o k'); [reflexivity|].
      simpl. apply String.eqb_neq in Hne. now rewrite Hne.
Qed.

Lemma obj_get_Some_keys {V} (o : JsObject V) k v :
  obj_get o k = Some v -> In k (Object_keys o).
Proof.
  induction o as [|[k0 v0] o IH]; simpl; [discriminate|].
  destruct (String.eqb k0 k) eqn:E.
  - apply String.eqb_eq in E. auto.
  - auto.
Qed.

Lemma In_keys_obj_get {V} (o : JsObject V) k :
  In k (Object_keys o) <-> exists v, obj_get o k = Some v.
Proof.
  split; [|intros [v H]; eapply obj_get_Some_keys; eauto].
  induction o as [|[k0 v0] o IH]; simpl; [tauto|].
  destruct (String.eqb k0 k) eqn:E; [eauto|].
  intros [->|H]; [|auto]. now rewrite String.eqb_refl in E.
Qed.

Lemma is_str_true v lit : is_str v lit = true <-> v = JStr lit.
Proof.
  destruct v; simpl; split; try discriminate.
  - intros H. apply String.eqb_eq in H. now subst.
  - intros [= ->]. apply String.eqb_refl.
Qed.

Lemma is_str_false v lit : is_str v lit = false <-> v <> JStr lit.
Proof.
  rewrite <- is_str_true. destruct (is_str v lit); split; congruence.
Qed.

Lemma js_get_str_truthy r k s : js_get r k = JStr s -> truthy r = true.
Proof. destruct r; simpl; try discriminate; reflexivity. Qed.

End JsFacts.

(** ** Traces *)

Section Traces.
Context {Msg : Type}.
Implicit Types tr : list (Event Msg).

Lemma timeline_app tr1 tr2 : timeline (tr1 ++ tr2) = timeline tr1 ++ timeline tr2.
Proof. unfold timeline. apply List.filter_app. Qed.

Lemma fetches_app tr1 tr2 : fetches (tr1 ++ tr2) = fetches tr1 ++ fetches tr2.
Proof. unfold fetches. apply flat_map_app. Qed.

Lemma sleeps_app tr1 tr2 : sleeps (tr1 ++ tr2) = sleeps tr1 ++ sleeps tr2.
Proof. unfold sleeps. apply flat_map_app. Qed.

Lemma fetches_timeline tr : fetches (timeline tr) = fetches tr.
Proof.
  induction tr as [|[a|ms|l m] tr IH]; simpl; auto. now rewrite IH.
Qed.

Lemma sleeps_timeline tr : sleeps (timeline tr) = sleeps tr.
Proof.
  induction tr as [|[a|ms|l m] tr IH]; simpl; auto. now rewrite IH.
Qed.

Lemma fetches_quiet tr : timeline tr = [] -> fetches tr = [].
Proof. intros H. now rewrite <- fetches_timeline, H. Qed.

Lemma In_fetches tr a : In a (fetches tr) <-> In (EvFetch a) tr.
Proof.
  induction tr as [|[b|ms|l m] tr IH]; simpl.
  - tauto.
  - rewrite IH. split; intros [H|H]; auto; left; congruence.
  - rewrite IH. split; [auto|]. intros [H|H]; [discriminate|auto].
  - rewrite IH. split; [auto|]. intros [H|H]; [discriminate|auto].
Qed.

Lemma In_timeline tr a : In (EvFetch a) (timeline tr) <-> In (EvFetch a) tr.
Proof. now rewrite <- !In_fetches, fetches_timeline. Qed.

Lemma fetches_schedule interval a n :
  fetches (schedule (Msg := Msg) interval a n) = seq a n.
Proof.
  revert a. induction n as [|[|n] IH]; intros a; try reflexivity.
  change (fetches (schedule interval a (S (S n)))) with
    (a :: fetches (schedule (Msg := Msg) interval (S a) (S n))).
  now rewrite IH.
Qed.

End Traces.

(** ** The preview-URL polling loop *)

Module EmailOnAcidFacts.
Import Js JsFacts EmailOnAcid.

(** *** One client of one response *)

Lemma finalized_terminal cur id : finalized cur id = true <-> terminal_in cur id.
Proof.
  unfold finalized, terminal_in, result_of, final_status. split.
  - intros H. destruct (obj_get cur id) as [r|]; simpl in H; [|discriminate].
    exists r. split; [reflexivity|].
    apply andb_true_iff in H as [_ H].
    rewrite !orb_true_iff, !is_str_true in H. tauto.
  - intros (r & -> & H). simpl.
    assert (truthy r = true) as ->
      by (destruct H as [H|[H|H]]; eapply js_get_str_truthy; eauto).
    simpl. rewrite !orb_true_iff, !is_str_true. tauto.
Qed.

Lemma classify_complete r : classify r = Complete <-> js_get r "status" = JStr "Complete".
Proof.
  unfold classify. rewrite <- is_str_true.
  destruct (is_str (js_get r "status") "Complete"); [tauto|].
  destruct (_ || _); split; discriminate.
Qed.



Lemma valid_url_Some v url : valid_url v = Some url <-> v = JStr url /\ url <> "".
Proof.
  unfold valid_url. destruct v; simpl; try (split; [discriminate|intros [? _]; discriminate]).
  destruct (String.eqb s "") eqn:E; simpl.
  - apply String.eqb_eq in E. subst. split; [discriminate|]. intros [[= <-] H]. now contradiction H.
  - apply String.eqb_neq in E. split; [intros [= ->]; auto|]. now intros [[= ->] _].
Qed.

(** What one client does to the console: it only adds output. *)
Lemma scan_client_console cur s id :
  exists logs, console (scan_client cur s id) = console s ++ logs /\ timeline logs = [].
Proof.
  unfold scan_client, say, not_processed, store.
  repeat case_match; simpl;
    first [ by (eexists [_]; split; reflexivity)
          | by (exists []; rewrite app_nil_r) ].
Qed.

Lemma scan_clients_console cur ids s :
  exists logs,
    console (fold_left (scan_client cur) ids s) = console s ++ logs /\ timeline logs = [].
Proof.
  revert s. induction ids as [|id ids IH]; intros s; simpl.
  - exists []. now rewrite app_nil_r.
  - destruct (IH (scan_client cur s id)) as (l2 & -> & H2).
    destruct (scan_client_console cur s id) as (l1 & -> & H1).
    exists (l1 ++ l2). rewrite app_assoc, timeline_app, H1, H2. auto.
Qed.

(** The flag only ever goes down, and a client that is not final
    brings it down. *)
Lemma scan_client_flag_stays cur s id :
  allTargetClientsProcessed s = false ->
  allTargetClientsProcessed (scan_client cur s id) = false.
Proof.
  unfold scan_client, say, not_processed, store. intros H.
  repeat case_match; simpl; auto.
Qed.

Lemma scan_clients_flag_stays cur ids s :
  allTargetClientsProcessed s = false ->
  allTargetClientsProcessed (fold_left (scan_client cur) ids s) = false.
Proof.
  revert s. induction ids as [|id ids IH]; intros s H; simpl; auto.
  apply IH. now apply scan_client_flag_stays.
Qed.

Lemma scan_client_not_final cur s id :
  finalized cur id = false ->
  allTargetClientsProcessed (scan_client cur s id) = false.
Proof.
  unfold finalized, scan_client, classify, final_status.
  destruct (truthy (result_of cur id)); simpl; [|reflexivity].
  intros H. apply orb_false_iff in H as [H H3].
  apply orb_false_iff in H as [H1 H2]. now rewrite H1, H2, H3.
Qed.

Lemma scan_clients_not_final cur ids s id :
  In id ids -> finalized cur id = false ->
  allTargetClientsProcessed (fold_left (scan_client cur) ids s) = false.
Proof.
  revert s. induction ids as [|i ids IH]; intros s Hin Hf; simpl; [easy|].
  destruct Hin as [->|Hin].
  - apply scan_clients_flag_stays. now apply scan_client_not_final.
  - now apply IH.
Qed.

Lemma filter_length_all {A} (f : A -> bool) l :
  length (List.filter f l) = length l <-> Forall (fun x => f x = true) l.
Proof.
  induction l as [|x l IH]; simpl.
  - split; auto.
  - pose proof (List.filter_length_le f l) as Hle.
    destruct (f x) eqn:E; simpl.
    + split.
      * intros [= H]. constructor; [auto|]. now apply IH.
      * intros H. inversion H; subst. f_equal. now apply IH.
    + split; [lia|]. intros H. inversion H; congruence.
Qed.

Lemma not_all_final_witness (f : string -> bool) l :
  length (List.filter f l) <> length l -> exists x, In x l /\ f x = false.
Proof.
  induction l as [|x l IH]; simpl; [congruence|].
  destruct (f x) eqn:E; simpl.
  - intros H. destruct IH as (y & ? & ?); [congruence|]. eauto.
  - eauto.
Qed.

(** A client either leaves the mapping alone or stores the URL it
    was completed with. *)
Lemma scan_client_urls cur s id :
  extractedUrls (scan_client cur s id) = extractedUrls s \/
  exists url, completed_with cur id url /\ url <> "" /\
    extractedUrls (scan_client cur s id) = obj_set (extractedUrls s) id url.
Proof.
  unfold scan_client, result_of.
  destruct (obj_get cur id) as [r|] eqn:Hr; simpl; [|now left].
  destruct (truthy r); simpl; [|now left].
  destruct (classify r) eqn:Hc.
  - destruct (valid_url (default_screenshot r)) as [url|] eqn:Hu; [|now left].
    case_bool_decide; [now left|]. right. exists url.
    apply valid_url_Some in Hu as [Hu Hne]. apply classify_complete in Hc.
    split; [|split; [assumption|reflexivity]]. now exists r.
  - left. destruct (obj_get (extractedUrls s) id) as [[|]|]; reflexivity.
  - now left.
Qed.

Lemma scan_client_origin cur s id k v :
  obj_get (extractedUrls (scan_client cur s id)) k = Some v ->
  obj_get (extractedUrls s) k = Some v \/ (k = id /\ completed_with cur id v).
Proof.
  destruct (scan_client_urls cur s id) as [->|(url & Hc & _ & ->)]; [auto|].
  destruct (decide (id = k)) as [->|Hne].
  - rewrite obj_get_set_eq. intros [= <-]. auto.
  - rewrite obj_get_set_ne by assumption. auto.
Qed.

Lemma scan_client_keeps cur s id k v :
  obj_get (extractedUrls s) k = Some v ->
  exists v', obj_get (extractedUrls (scan_client cur s id)) k = Some v' /\
             (v' = v \/ completed_with cur k v').
Proof.
  intros H. destruct (scan_client_urls cur s id) as [->|(url & Hc & _ & ->)]; [eauto|].
  destruct (decide (id = k)) as [->|Hne].
  - rewrite obj_get_set_eq. eauto.
  - rewrite obj_get_set_ne by assumption. eauto.
Qed.

Lemma scan_clients_origin cur ids s k v :
  obj_get (extractedUrls (fold_left (scan_client cur) ids s)) k = Some v ->
  obj_get (extractedUrls s) k = Some v \/ (In k ids /\ completed_with cur k v).
Proof.
  revert s. induction ids as [|id ids IH]; intros s H; simpl in *; [auto|].
  apply IH in H as [H|[H1 H2]]; [|auto].
  apply scan_client_origin in H as [H|[-> H]]; auto.
Qed.

Lemma scan_clients_keeps cur ids s k v :
  obj_get (extractedUrls s) k = Some v ->
  exists v', obj_get (extractedUrls (fold_left (scan_client cur) ids s)) k = Some v' /\
             (v' = v \/ completed_with cur k v').
Proof.
  revert s v. induction ids as [|id ids IH]; intros s v H; simpl; [eauto|].
  destruct (scan_client_keeps cur s id k v H) as (v1 & H1 & Hv1).
  destruct (IH _ _ H1) as (v2 & H2 & Hv2).
  exists v2. split; [assumption|]. destruct Hv2 as [->|]; auto.
Qed.

(** *** One iteration *)

Section Iteration.
Variable service : nat -> FetchOutcome.
Variable emailClients : list string.

Abbreviation attempt_body := (attempt_body service emailClients).
Abbreviation poll := (poll service emailClients).

Lemma on_response_urls data s :
  exists s1, extractedUrls s1 = extractedUrls s /\
    extractedUrls (snd (on_response emailClients data s)) =
    extractedUrls
      (fold_left (scan_client (default [] data))
         (clientsToMonitor emailClients (default [] data)) s1).
Proof.
  unfold on_response.
  set (s1 := if _ && _ then _ else s). exists s1. split.
  - subst s1. destruct (_ && _); reflexivity.
  - clearbody s1. destruct (_ =? _); reflexivity.
Qed.

Lemma on_response_console data s :
  exists logs, console (snd (on_response emailClients data s)) = console s ++ logs
               /\ timeline logs = [].
Proof.
  unfold on_response.
  set (cur := default [] data). set (ids := clientsToMonitor emailClients cur).
  set (s1 := if _ && _ then _ else s).
  assert (exists l1, console s1 = console s ++ l1 /\ timeline l1 = []) as (l1 & E1 & H1).
  { subst s1. destruct (_ && _); simpl.
    - by eexists [_].
    - exists []. now rewrite app_nil_r. }
  destruct (scan_clients_console cur ids s1) as (l2 & E2 & H2).
  clearbody s1. destruct (_ =? _); simpl; rewrite E2, E1;
    eexists (l1 ++ l2 ++ [_]); rewrite !timeline_app, H1, H2, !app_assoc; done.
Qed.

Lemma on_response_break data s s' :
  on_response emailClients data s = (Break, s') <->
  Forall (terminal_in (default [] data))
         (clientsToMonitor emailClients (default [] data)) /\
  s' = snd (on_response emailClients data s).
Proof.
  unfold on_response.
  set (cur := default [] data). set (ids := clientsToMonitor emailClients cur).
  set (s1 := if _ && _ then _ else s). clearbody s1.
  destruct (_ =? _) eqn:E.
  - apply Nat.eqb_eq, filter_length_all in E. simpl. split.
    + intros [= <-]. split; [|reflexivity].
      eapply List.Forall_impl; [|exact E]. intros id. apply finalized_terminal.
    + now intros [_ ->].
  - apply Nat.eqb_neq in E. split; [discriminate|]. intros [H _].
    exfalso. apply E, filter_length_all.
    eapply List.Forall_impl; [|exact H]. intros id. apply finalized_terminal.
Qed.

Lemma on_response_control data s :
  fst (on_response emailClients data s) = Break \/
  (fst (on_response emailClients data s) = Continue /\
   allTargetClientsProcessed (snd (on_response emailClients data s)) = false).
Proof.
  unfold on_response.
  set (cur := default [] data). set (ids := clientsToMonitor emailClients cur).
  set (s1 := if _ && _ then _ else s). clearbody s1.
  destruct (_ =? _) eqn:E; [now left|right]. split; [reflexivity|].
  apply Nat.eqb_neq, not_all_final_witness in E as (id & Hin & Hf). simpl.
  eapply scan_clients_not_final; eauto.
Qed.

Lemma on_error_control e s :
  (e = ResponseError 401 /\ fst (on_error e s) = Throw e) \/
  (e <> ResponseError 401 /\ fst (on_error e s) = Continue /\
   allTargetClientsProcessed (snd (on_error e s)) = false).
Proof.
  destruct e as [status|]; simpl; [|right; easy].
  destruct (status =? 404)%Z eqn:E4.
  - apply Z.eqb_eq in E4. subst. right. easy.
  - destruct (status =? 401)%Z eqn:E1.
    + apply Z.eqb_eq in E1. subst. now left.
    + apply Z.eqb_neq in E1. right. split; [congruence|easy].
Qed.

Lemma on_error_urls e s : extractedUrls (snd (on_error e s)) = extractedUrls s.
Proof. destruct e as [status|]; simpl; repeat case_match; reflexivity. Qed.

Lemma on_error_console e s :
  exists l m, console (snd (on_error e s)) = console s ++ [EvLog l m].
Proof. destruct e as [status|]; simpl; repeat case_match; simpl; eauto. Qed.

Lemma attempt_body_timeline a urls :
  timeline (console (snd (attempt_body a urls))) = [EvFetch a].
Proof.
  unfold EmailOnAcid.attempt_body. destruct (service a) as [data|e].
  - destruct (on_response_console data
                (mkScan urls true [EvLog LLog (MAttempt a); EvFetch a]))
      as (logs & -> & H).
    now rewrite timeline_app, H.
  - destruct (on_error_console e
                (mkScan urls true [EvLog LLog (MAttempt a); EvFetch a]))
      as (l & m & ->).
    now rewrite timeline_app.
Qed.

Lemma attempt_body_continue a urls s :
  attempt_body a urls = (Continue, s) -> allTargetClientsProcessed s = false.
Proof.
  unfold EmailOnAcid.attempt_body. destruct (service a) as [data|e]; intros H.
  - destruct (on_response_control data
                (mkScan urls true [EvLog LLog (MAttempt a); EvFetch a])) as [E|[_ E]];
      rewrite H in E; [discriminate|exact E].
  - destruct (on_error_control e
                (mkScan urls true [EvLog LLog (MAttempt a); EvFetch a]))
      as [[_ E]|(_ & _ & E)]; rewrite H in E; [discriminate|exact E].
Qed.

Lemma attempt_body_break a urls s :
  attempt_body a urls = (Break, s) <->
  exists data, service a = FetchOk data /\
    Forall (terminal_in (default [] data))
           (clientsToMonitor emailClients (default [] data)) /\
    s = snd (attempt_body a urls).
Proof.
  unfold EmailOnAcid.attempt_body. destruct (service a) as [data|e].
  - rewrite on_response_break. split.
    + intros [H ->]. eauto.
    + intros (d & [= <-] & H & ->). auto.
  - split; [|intros (d & [=] & _)].
    intros H. destruct (on_error_control e
                (mkScan urls true [EvLog LLog (MAttempt a); EvFetch a]))
      as [[_ E]|(_ & E & _)]; rewrite H in E; discriminate.
Qed.

Lemma attempt_body_throw a urls e s :
  attempt_body a urls = (Throw e, s) <->
  service a = FetchFailed (ResponseError 401) /\ e = ResponseError 401 /\
  s = snd (attempt_body a urls).
Proof.
  unfold EmailOnAcid.attempt_body. destruct (service a) as [data|e'].
  - split; [|intros ([=] & _)]. intros H.
    destruct (on_response_control data
                (mkScan urls true [EvLog LLog (MAttempt a); EvFetch a])) as [E|[E _]];
      rewrite H in E; discriminate.
  - destruct (on_error_control e'
                (mkScan urls true [EvLog LLog (MAttempt a); EvFetch a]))
      as [[-> E]|(Hne & E & _)]; split.
    + intros H. rewrite H in E. simpl in E. injection E as ->. now rewrite H.
    + intros (_ & -> & ->). apply surjective_pairing.
    + intros H. rewrite H in E. discriminate.
    + intros ([= ->] & _). contradiction.
Qed.

Lemma attempt_body_origin a urls k v :
  obj_get (extractedUrls (snd (attempt_body a urls))) k = Some v ->
  obj_get urls k = Some v \/
  exists data, service a = FetchOk data /\
    In k (clientsToMonitor emailClients (default [] data)) /\
    completed_with (default [] data) k v.
Proof.
  unfold EmailOnAcid.attempt_body. destruct (service a) as [data|e].
  - destruct (on_response_urls data
                (mkScan urls true [EvLog LLog (MAttempt a); EvFetch a]))
      as (s1 & E1 & ->).
    intros H1. simpl in E1.
    apply scan_clients_origin in H1 as [H1|[H1 H2]]; [left; congruence|eauto].
  - rewrite on_error_urls. auto.
Qed.

Lemma attempt_body_keeps a urls k v :
  obj_get urls k = Some v ->
  exists v', obj_get (extractedUrls (snd (attempt_body a urls))) k = Some v' /\
    (v' = v \/ exists data, service a = FetchOk data /\
                  completed_with (default [] data) k v').
Proof.
  intros H. unfold EmailOnAcid.attempt_body. destruct (service a) as [data|e].
  - destruct (on_response_urls data
                (mkScan urls true [EvLog LLog (MAttempt a); EvFetch a]))
      as (s1 & E1 & ->).
    simpl in E1. rewrite <- E1 in H.
    destruct (scan_clients_keeps (default [] data)
                (clientsToMonitor emailClients (default [] data)) s1 k v H)
      as (v' & Hv' & Hor).
    exists v'. split; [assumption|]. destruct Hor; eauto.
  - rewrite on_error_urls. eauto.
Qed.

(** *** The loop *)

Abbreviation urls_after := (urls_after service emailClients).

Lemma poll_step r a urls :
  poll (S r) a urls =
  match attempt_body a urls with
  | (Throw e, s) => (Thrown (Rethrown e), console s)
  | (Break, s) => (Returned (extractedUrls s), console s)
  | (Continue, s) =>
      (fst (poll r (S a) (extractedUrls s)),
       console s ++ pause a s ++ snd (poll r (S a) (extractedUrls s)))
  end.
Proof.
  simpl. destruct (attempt_body a urls) as [[| |e] s]; try reflexivity.
  now destruct (poll r (S a) (extractedUrls s)).
Qed.

Lemma pause_fetches a s b : ~ In (EvFetch b) (pause a s).
Proof.
  unfold pause. destruct (_ && _); simpl; [|tauto]. intros [H|[]]. discriminate.
Qed.

Lemma attempt_body_fetch a urls b :
  In (EvFetch b) (console (snd (attempt_body a urls))) -> b = a.
Proof.
  rewrite <- In_timeline, attempt_body_timeline. simpl. intros [[= ->]|[]]. reflexivity.
Qed.

(** A run that fetches on attempt [b] is, from there on, the loop
    entered at [b] with the mapping the first [b] iterations left. *)
Lemma poll_reaches r a b :
  In (EvFetch b) (snd (poll r a (urls_after a))) ->
  exists r' pre,
    a + r = b + S r' /\ a <= b /\
    poll r a (urls_after a) =
      (fst (poll (S r') b (urls_after b)),
       pre ++ snd (poll (S r') b (urls_after b))) /\
    (forall c, In (EvFetch c) pre -> c < b).
Proof.
  revert a. induction r as [|r IH]; intros a Hin; [destruct Hin|].
  destruct (decide (b = a)) as [->|Hne].
  { exists r, []. repeat split; auto.
    - now destruct (poll (S r) a (urls_after a)).
    - intros c []. }
  rewrite poll_step in Hin |- *.
  destruct (attempt_body a (urls_after a)) as [c s] eqn:E.
  assert (Hs : s = snd (attempt_body a (urls_after a))) by now rewrite E.
  assert (Hhead : ~ In (EvFetch b) (console s)).
  { intros H. rewrite Hs in H. apply attempt_body_fetch in H. contradiction. }
  destruct c as [| |e]; simpl in Hin; try contradiction.
  rewrite !in_app_iff in Hin. destruct Hin as [H|[H|H]]; [contradiction| |].
  { now apply pause_fetches in H. }
  assert (Hnext : extractedUrls s = urls_after (S a)) by (simpl; now rewrite E).
  rewrite Hnext in H |- *.
  destruct (IH (S a) H) as (r' & pre & Hr & Hle & Heq & Hpre).
  exists r', (console s ++ pause a s ++ pre). repeat split; try lia.
  - rewrite Heq. simpl. now rewrite <- !app_assoc.
  - intros c Hc. rewrite !in_app_iff in Hc. destruct Hc as [Hc|[Hc|Hc]].
    + rewrite Hs in Hc. apply attempt_body_fetch in Hc. lia.
    + now apply pause_fetches in Hc.
    + now apply Hpre.
Qed.

(** What the loop gives back is what the iterations it ran left, or
    the authentication failure of its last fetch. *)
Lemma poll_outcome r a :
  let tr := snd (poll r a (urls_after a)) in
  fst (poll r a (urls_after a)) = Returned (urls_after (a + length (fetches tr))) \/
  (fst (poll r a (urls_after a)) = Thrown (Rethrown (ResponseError 401)) /\
   exists n, length (fetches tr) = S n /\
             service (a + n) = FetchFailed (ResponseError 401)).
Proof.
  revert a. induction r as [|r IH]; intros a; cbv zeta.
  - left. simpl. now rewrite Nat.add_0_r.
  - rewrite poll_step.
    destruct (attempt_body a (urls_after a)) as [c s] eqn:E.
    assert (Hs : s = snd (attempt_body a (urls_after a))) by now rewrite E.
    assert (Hf : fetches (console s) = [a]).
    { rewrite <- fetches_timeline, Hs, attempt_body_timeline. reflexivity. }
    assert (Hnext : extractedUrls s = urls_after (S a)) by (simpl; now rewrite E).
    destruct c as [| |e]; simpl.
    + rewrite !fetches_app, Hf.
      assert (fetches (pause a s) = []) as ->
        by (unfold pause; now destruct (_ && _)).
      simpl. rewrite Hnext.
      pose proof (IH (S a)) as IH'. cbv zeta in IH'.
      destruct IH' as [H|(H & n & Hn & Hsvc)].
      * left. rewrite H. f_equal. f_equal. lia.
      * right. split; [assumption|]. exists (S n). split; [now rewrite Hn|].
        now replace (a + S n) with (S a + n) by lia.
    + left. rewrite Hf, Hnext.
      replace (a + length [a]) with (S a) by (simpl; lia). reflexivity.
    + right. apply attempt_body_throw in E as (Hsvc & -> & _).
      split; [reflexivity|]. exists 0. rewrite Hf, Nat.add_0_r. auto.
Qed.

(** Attempts and sleeps alternate. *)
Lemma poll_timeline r a urls :
  a + r = MAX_POLLING_ATTEMPTS ->
  exists n, n <= r /\ (0 < r -> 0 < n) /\
    timeline (snd (poll r a urls)) = schedule POLLING_INTERVAL_MS a n.
Proof.
  revert a urls. induction r as [|r IH]; intros a urls Hr.
  - exists 0. split; [lia|]. split; [lia|reflexivity].
  - rewrite poll_step.
    destruct (attempt_body a urls) as [c s] eqn:E.
    assert (Hs : s = snd (attempt_body a urls)) by now rewrite E.
    assert (Ht : timeline (console s) = [EvFetch a])
      by (rewrite Hs; apply attempt_body_timeline).
    destruct c as [| |e]; simpl.
    + apply attempt_body_continue in E.
      destruct (IH (S a) (extractedUrls s)) as (n & Hn & Hpos & Hsched); [lia|].
      rewrite !timeline_app, Ht, Hsched. unfold pause. rewrite E.
      unfold MAX_POLLING_ATTEMPTS in *.
      destruct r as [|r].
      * assert (n = 0) as -> by lia.
        assert ((a <? 60 - 1) = false) as -> by (apply Nat.ltb_ge; lia).
        exists 1. split; [lia|]. split; [lia|reflexivity].
      * assert ((a <? 60 - 1) = true) as -> by (apply Nat.ltb_lt; lia).
        destruct n as [|n]; [lia|].
        exists (S (S n)). split; [lia|]. split; [lia|reflexivity].
    + exists 1. rewrite Ht. split; [lia|]. split; [lia|reflexivity].
    + exists 1. rewrite Ht. split; [lia|]. split; [lia|reflexivity].
Qed.

(** Every iteration opens by announcing itself and fetching. *)
Lemma attempt_body_head a urls :
  exists rest,
    console (snd (attempt_body a urls)) = EvLog LLog (MAttempt a) :: EvFetch a :: rest.
Proof.
  unfold EmailOnAcid.attempt_body. destruct (service a) as [data|e].
  - destruct (on_response_console data
                (mkScan urls true [EvLog LLog (MAttempt a); EvFetch a]))
      as (logs & -> & _). simpl. eauto.
  - destruct (on_error_console e
                (mkScan urls true [EvLog LLog (MAttempt a); EvFetch a]))
      as (l & m & ->). simpl. eauto.
Qed.

Lemma poll_head r a urls :
  exists rest, snd (poll (S r) a urls) = EvLog LLog (MAttempt a) :: EvFetch a :: rest.
Proof.
  rewrite poll_step. destruct (attempt_body_head a urls) as (rest & H).
  destruct (attempt_body a urls) as [[| |e] s]; simpl in *; rewrite H; simpl; eauto.
Qed.

(** What a failed fetch does to the iteration. *)
Lemma attempt_body_failed a urls e :
  service a = FetchFailed e ->
  (e = ResponseError 401 /\
   attempt_body a urls =
     (Throw e, mkScan urls true [EvLog LLog (MAttempt a); EvFetch a;
                                 EvLog LError MAuthFailed401])) \/
  (e <> ResponseError 401 /\
   exists m, attempt_body a urls =
     (Continue, mkScan urls false [EvLog LLog (MAttempt a); EvFetch a;
                                   EvLog LWarn m])).
Proof.
  intros Hsvc. unfold EmailOnAcid.attempt_body. rewrite Hsvc.
  destruct e as [status|]; simpl; [|right; split; [easy|eauto]].
  destruct (status =? 404)%Z eqn:E4.
  - apply Z.eqb_eq in E4. subst. right. split; [easy|eauto].
  - destruct (status =? 401)%Z eqn:E1.
    + apply Z.eqb_eq in E1. subst. now left.
    + apply Z.eqb_neq in E1. right. split; [congruence|eauto].
Qed.

(** *** The whole call *)

Lemma getPreviewUrls_run test_id :
  truthy test_id = true ->
  exists intro outro,
    timeline intro = [] /\ timeline outro = [] /\
    getPreviewUrls service emailClients test_id =
      (fst (poll MAX_POLLING_ATTEMPTS 0 []),
       intro ++ snd (poll MAX_POLLING_ATTEMPTS 0 []) ++ outro) /\
    match fst (poll MAX_POLLING_ATTEMPTS 0 []) with
    | Returned urls => outro = [final_log emailClients urls]
    | Thrown _ => outro = []
    end.
Proof.
  intros Ht. unfold getPreviewUrls. rewrite Ht. simpl negb. cbv iota.
  set (intro := if length emailClients =? 0 then _ else _).
  assert (Hintro : timeline intro = []) by (subst intro; now destruct (_ =? _)).
  destruct (poll MAX_POLLING_ATTEMPTS 0 []) as [[urls|e] tr]; simpl.
  - exists intro, [final_log emailClients urls]. repeat split; auto.
    unfold final_log. repeat case_match; reflexivity.
  - exists intro, []. rewrite app_nil_r. repeat split; auto.
Qed.

Lemma getPreviewUrls_no_test_id test_id :
  truthy test_id = false ->
  getPreviewUrls service emailClients test_id = (Thrown TestIdRequired, []).
Proof. intros Ht. unfold getPreviewUrls. now rewrite Ht. Qed.

(** A fetch seen in the trace of the call is a fetch of its loop. *)
Lemma getPreviewUrls_fetch test_id out tr b :
  getPreviewUrls service emailClients test_id = (out, tr) ->
  In (EvFetch b) tr ->
  exists intro outro,
    timeline intro = [] /\ timeline outro = [] /\
    out = fst (poll MAX_POLLING_ATTEMPTS 0 []) /\
    tr = intro ++ snd (poll MAX_POLLING_ATTEMPTS 0 []) ++ outro /\
    In (EvFetch b) (snd (poll MAX_POLLING_ATTEMPTS 0 [])) /\
    match out with
    | Returned urls => outro = [final_log emailClients urls]
    | Thrown _ => outro = []
    end.
Proof.
  intros Hrun Hin. destruct (truthy test_id) eqn:Ht.
  - destruct (getPreviewUrls_run test_id Ht) as (intro & outro & Hi & Ho & Heq & Hout).
    rewrite Heq in Hrun.
    assert (Ho' : fst (poll MAX_POLLING_ATTEMPTS 0 []) = out) by exact (f_equal fst Hrun).
    assert (Ht' : intro ++ snd (poll MAX_POLLING_ATTEMPTS 0 []) ++ outro = tr)
      by exact (f_equal snd Hrun).
    clear Hrun Heq. subst out tr.
    exists intro, outro. repeat split; auto.
    rewrite !in_app_iff in Hin. destruct Hin as [H|[H|H]]; auto.
    + apply In_timeline in H. rewrite Hi in H. destruct H.
    + apply In_timeline in H. rewrite Ho in H. destruct H.
  - rewrite getPreviewUrls_no_test_id in Hrun by assumption.
    injection Hrun as <- <-. destruct Hin.
Qed.

(** The call makes at most [MAX_POLLING_ATTEMPTS] attempts and sleeps
    [POLLING_INTERVAL_MS] between any two of them. *)
Lemma getPreviewUrls_timeline test_id :
  exists n, n <= MAX_POLLING_ATTEMPTS /\
    timeline (snd (getPreviewUrls service emailClients test_id)) =
    schedule POLLING_INTERVAL_MS 0 n.
Proof.
  destruct (truthy test_id) eqn:Ht.
  - destruct (getPreviewUrls_run test_id Ht) as (intro & outro & Hi & Ho & -> & _).
    destruct (poll_timeline MAX_POLLING_ATTEMPTS 0 []) as (n & Hn & _ & Hs);
      [reflexivity|].
    exists n. split; [assumption|]. cbn [snd].
    now rewrite !timeline_app, Hi, Ho, Hs, app_nil_r.
  - rewrite getPreviewUrls_no_test_id by assumption.
    exists 0. split; [lia|reflexivity].
Qed.

(** Where the entries of the mapping come from, and that they stay. *)
Lemma urls_after_origin n id url :
  obj_get (urls_after n) id = Some url ->
  exists a data, a < n /\ service a = FetchOk data /\
    In id (clientsToMonitor emailClients (default [] data)) /\
    completed_with (default [] data) id url.
Proof.
  induction n as [|n IH]; [discriminate|]. simpl. intros H.
  apply attempt_body_origin in H as [H|(data & Hsvc & Hin & Hc)].
  - destruct (IH H) as (a & data & Ha & Hrest). exists a, data. split; [lia|exact Hrest].
  - exists n, data. split; [lia|auto].
Qed.

Lemma urls_after_keeps n id url :
  obj_get (urls_after n) id = Some url ->
  exists url', obj_get (urls_after (S n)) id = Some url' /\
    (url' = url \/ exists data, service n = FetchOk data /\
                     completed_with (default [] data) id url').
Proof. intros H. simpl. now apply attempt_body_keeps. Qed.

(** A call that returns gives back what its iterations left. *)
Lemma getPreviewUrls_returned test_id urls tr :
  getPreviewUrls service emailClients test_id = (Returned urls, tr) ->
  exists n, n <= MAX_POLLING_ATTEMPTS /\ fetches tr = seq 0 n /\ urls = urls_after n.
Proof.
  intros Hrun. destruct (truthy test_id) eqn:Ht.
  - destruct (getPreviewUrls_run test_id Ht) as (intro & outro & Hi & Ho & Heq & _).
    rewrite Heq in Hrun.
    assert (Hout : fst (poll MAX_POLLING_ATTEMPTS 0 []) = Returned urls)
      by exact (f_equal fst Hrun).
    assert (Htr : intro ++ snd (poll MAX_POLLING_ATTEMPTS 0 []) ++ outro = tr)
      by exact (f_equal snd Hrun).
    clear Hrun Heq. subst tr.
    destruct (poll_timeline MAX_POLLING_ATTEMPTS 0 []) as (n & Hn & _ & Hs);
      [reflexivity|].
    assert (Hf : fetches (snd (poll MAX_POLLING_ATTEMPTS 0 [])) = seq 0 n)
      by now rewrite <- fetches_timeline, Hs, fetches_schedule.
    exists n. split; [assumption|]. split.
    + now rewrite !fetches_app, (fetches_quiet _ Hi), (fetches_quiet _ Ho), Hf,
        app_nil_r.
    + pose proof (poll_outcome MAX_POLLING_ATTEMPTS 0) as Hpo. cbv zeta in Hpo.
      change (urls_after 0) with (@nil (string * string)) in Hpo.
      rewrite Hf, length_seq, Hout in Hpo.
      destruct Hpo as [[= ->]|[[=] _]]. reflexivity.
  - rewrite getPreviewUrls_no_test_id in Hrun by assumption. discriminate.
Qed.

(** A response in which some monitored client is not final does not
    end the loop. *)
Lemma attempt_body_not_final a urls data :
  service a = FetchOk data ->
  ~ Forall (terminal_in (default [] data))
           (clientsToMonitor emailClients (default [] data)) ->
  fst (attempt_body a urls) = Continue.
Proof.
  intros Hsvc Hnot.
  pose proof (attempt_body_break a urls (snd (attempt_body a urls))) as Hb.
  unfold EmailOnAcid.attempt_body in *. rewrite Hsvc in *.
  destruct (on_response_control data
              (mkScan urls true [EvLog LLog (MAttempt a); EvFetch a])) as [E|[E _]];
    [|exact E].
  exfalso. apply Hnot.
  destruct (proj1 Hb) as (d & [= <-] & H & _); [|exact H].
  rewrite <- E. apply surjective_pairing.
Qed.

(** The call, cut at an attempt it fetched on. *)
Lemma getPreviewUrls_at test_id out tr b :
  getPreviewUrls service emailClients test_id = (out, tr) ->
  In (EvFetch b) tr ->
  exists r' before outro,
    b + S r' = MAX_POLLING_ATTEMPTS /\
    out = fst (poll (S r') b (urls_after b)) /\
    tr = before ++ snd (poll (S r') b (urls_after b)) ++ outro /\
    (forall c, In (EvFetch c) before -> c < b) /\
    timeline outro = [] /\
    match out with
    | Returned urls => outro = [final_log emailClients urls]
    | Thrown _ => outro = []
    end.
Proof.
  intros Hrun Hin.
  destruct (getPreviewUrls_fetch _ _ _ _ Hrun Hin)
    as (intro & outro & Hi & Ho & Hout & Htr & Hb & Hfin).
  change [] with (urls_after 0) in Hb, Hout, Htr.
  destruct (poll_reaches _ _ _ Hb) as (r' & pre & Hr & _ & Heq & Hpre).
  rewrite Heq in Hout, Htr. simpl in Hout, Htr.
  exists r', (intro ++ pre), outro. repeat split; auto.
  - now rewrite Htr, <- !app_assoc.
  - intros c Hc. apply in_app_iff in Hc as [Hc|Hc]; [|auto].
    apply In_timeline in Hc. rewrite Hi in Hc. destruct Hc.
Qed.

(** An attempt that finds every monitored client final is the last. *)
Lemma getPreviewUrls_stops test_id out tr a data :
  getPreviewUrls service emailClients test_id = (out, tr) ->
  In (EvFetch a) tr ->
  service a = FetchOk data ->
  Forall (terminal_in (default [] data))
         (clientsToMonitor emailClients (default [] data)) ->
  (exists urls, out = Returned urls) /\
  (forall b, In (EvFetch b) tr -> b <= a) /\
  (exists pre, timeline tr = pre ++ [EvFetch a]).
Proof.
  intros Hrun Hin Hsvc Hall.
  destruct (getPreviewUrls_at _ _ _ _ Hrun Hin)
    as (r' & before & outro & _ & Hout & Htr & Hbefore & Ho & _).
  assert (attempt_body a (urls_after a) =
          (Break, snd (attempt_body a (urls_after a)))) as E
    by (apply attempt_body_break; eauto).
  pose proof (attempt_body_timeline a (urls_after a)) as Ht.
  rewrite poll_step, E in Hout, Htr.
  simpl in Hout, Htr.
  split; [eauto|]. split.
  - intros b Hb. rewrite Htr, !in_app_iff in Hb. destruct Hb as [Hb|[Hb|Hb]].
    + apply Hbefore in Hb. lia.
    + apply In_timeline in Hb. rewrite Ht in Hb. destruct Hb as [[= ->]|[]]. lia.
    + apply In_timeline in Hb. rewrite Ho in Hb. destruct Hb.
  - exists (timeline before). now rewrite Htr, !timeline_app, Ht, Ho, app_nil_r.
Qed.

(** An attempt that finds some monitored client not final is followed
    by another, unless it was the last one allowed. *)
Lemma getPreviewUrls_goes_on test_id out tr a data :
  getPreviewUrls service emailClients test_id = (out, tr) ->
  In (EvFetch a) tr ->
  service a = FetchOk data ->
  ~ Forall (terminal_in (default [] data))
           (clientsToMonitor emailClients (default [] data)) ->
  S a < MAX_POLLING_ATTEMPTS ->
  In (EvFetch (S a)) tr.
Proof.
  intros Hrun Hin Hsvc Hnot Hlt.
  destruct (getPreviewUrls_at _ _ _ _ Hrun Hin)
    as (r' & before & outro & Hr & _ & Htr & _).
  pose proof (attempt_body_not_final a (urls_after a) data Hsvc Hnot) as E.
  rewrite poll_step in Htr.
  destruct (attempt_body a (urls_after a)) as [c s]. simpl in E. subst c.
  destruct r' as [|r']; [lia|].
  destruct (poll_head r' (S a) (extractedUrls s)) as (rest & Hhead).
  cbn [snd] in Htr. rewrite Hhead in Htr.
  rewrite Htr, !in_app_iff. right. left. right. right. right. simpl. auto.
Qed.

End Iteration.

End EmailOnAcidFacts.

(** ** The full-results polling loop *)

Module FullResultsFacts.
Import Js JsFacts FullResults.

Lemma count_client_flag st r :
  is_str (js_get_opt r "status") "pending" = false ->
  snd (count_client st r) = snd st.
Proof.
  intros H. unfold count_client. destruct st as [c f]. rewrite H.
  repeat case_match; reflexivity.
Qed.

Lemma count_clients_flag items st :
  Forall (fun r => is_str (js_get_opt r "status") "pending" = false) items ->
  snd (fold_left count_client items st) = snd st.
Proof.
  revert st. induction items as [|r items IH]; intros st H; simpl; [reflexivity|].
  inversion H; subst. rewrite IH by assumption. now apply count_client_flag.
Qed.

Section Iteration.
Variable service : nat -> FetchOutcome.

Abbreviation attempt_body := (attempt_body service).
Abbreviation poll := (poll service).

Lemma on_error_cases e resp tr :
  (e = ResponseError 401 /\
   on_error e resp tr = (Exit 1, mkIter resp true (tr ++ [EvLog LError MAuthFailed401]))) \/
  (e <> ResponseError 401 /\
   exists m, on_error e resp tr = (Continue, mkIter resp false (tr ++ [EvLog LWarn m]))).
Proof.
  destruct e as [status|]; simpl; [|right; split; [easy|eauto]].
  destruct (status =? 404)%Z eqn:E4.
  - apply Z.eqb_eq in E4. subst. right. split; [easy|eauto].
  - destruct (status =? 401)%Z eqn:E1.
    + apply Z.eqb_eq in E1. subst. now left.
    + apply Z.eqb_neq in E1. right. split; [congruence|eauto].
Qed.

Lemma response_console a data tr :
  exists logs, console (snd (on_response a data tr)) = tr ++ logs /\ timeline logs = [].
Proof.
  unfold on_response. destruct (tally a (results_of data)) as [[[c f] total]|].
  - destruct (f && _); [|destruct (_ =? _)]; simpl; rewrite <- ?app_assoc;
      eexists; split; reflexivity.
  - simpl. eexists; split; reflexivity.
Qed.

Lemma iteration_timeline a resp :
  timeline (console (snd (attempt_body a resp))) = [EvFetch a].
Proof.
  unfold FullResults.attempt_body. destruct (service a) as [data|e].
  - destruct (response_console a data [EvLog LLog (MAttempt a); EvFetch a])
      as (logs & -> & H).
    now rewrite timeline_app, H.
  - destruct (on_error_cases e resp [EvLog LLog (MAttempt a); EvFetch a])
      as [[_ ->]|[_ [m ->]]]; reflexivity.
Qed.

Lemma iteration_fetch a resp b :
  In (EvFetch b) (console (snd (attempt_body a resp))) -> b = a.
Proof.
  rewrite <- In_timeline, iteration_timeline. simpl. intros [[= ->]|[]]. reflexivity.
Qed.

(** At least one result and none pending: the iteration breaks. *)
Lemma iteration_breaks a resp data items :
  service a = FetchOk data ->
  results_of data = Iterable items ->
  items <> [] ->
  Forall (fun r => js_get_opt r "status" <> JStr "pending") items ->
  fst (attempt_body a resp) = Break.
Proof.
  intros Hsvc Hres Hne Hall. unfold FullResults.attempt_body, on_response.
  rewrite Hsvc, Hres. simpl.
  assert ((length items =? 0) = false) as ->
    by (apply Nat.eqb_neq; destruct items; simpl; congruence).
  simpl. destruct (fold_left count_client items (mkCounts 0 0 0, true)) as [c f] eqn:E.
  assert (f = true) as ->.
  { change f with (snd (c, f)). rewrite <- E, count_clients_flag; [reflexivity|].
    eapply List.Forall_impl; [|exact Hall]. intros r. apply is_str_false. }
  assert ((0 <? length items) = true) as ->
    by (apply Nat.ltb_lt; destruct items; simpl; [congruence|lia]).
  reflexivity.
Qed.

Lemma loop_step r a resp :
  poll (S r) a resp =
  match attempt_body a resp with
  | (Exit _, i) => (None, console i)
  | (Break, i) => (Some (fullApiResponse i), console i)
  | (Continue, i) =>
      (fst (poll r (S a) (fullApiResponse i)),
       console i ++ pause a i ++ snd (poll r (S a) (fullApiResponse i)))
  end.
Proof.
  simpl. destruct (attempt_body a resp) as [[| |code] i]; try reflexivity.
  now destruct (poll r (S a) (fullApiResponse i)).
Qed.

Lemma pause_has_no_fetch a i b : ~ In (EvFetch b) (pause a i).
Proof.
  unfold pause. destruct (_ && _); simpl; [|tauto]. intros [H|[]]. discriminate.
Qed.

Lemma loop_reaches r a resp b :
  In (EvFetch b) (snd (poll r a resp)) ->
  exists r' pre resp',
    a + r = b + S r' /\ a <= b /\
    poll r a resp =
      (fst (poll (S r') b resp'), pre ++ snd (poll (S r') b resp')) /\
    (forall c, In (EvFetch c) pre -> c < b).
Proof.
  revert a resp. induction r as [|r IH]; intros a resp Hin; [destruct Hin|].
  destruct (decide (b = a)) as [->|Hne].
  { exists r, [], resp. repeat split; auto.
    - now destruct (poll (S r) a resp).
    - intros c []. }
  rewrite loop_step in Hin |- *.
  destruct (attempt_body a resp) as [c i] eqn:E.
  assert (Hi : i = snd (attempt_body a resp)) by now rewrite E.
  assert (Hhead : ~ In (EvFetch b) (console i)).
  { intros H. rewrite Hi in H. apply iteration_fetch in H. contradiction. }
  destruct c as [| |code]; simpl in Hin; try contradiction.
  rewrite !in_app_iff in Hin. destruct Hin as [H|[H|H]]; [contradiction| |].
  { now apply pause_has_no_fetch in H. }
  destruct (IH (S a) _ H) as (r' & pre & resp' & Hr & Hle & Heq & Hpre).
  exists r', (console i ++ pause a i ++ pre), resp'. repeat split; try lia.
  - rewrite Heq. simpl. now rewrite <- !app_assoc.
  - intros c Hc. rewrite !in_app_iff in Hc. destruct Hc as [Hc|[Hc|Hc]].
    + rewrite Hi in Hc. apply iteration_fetch in Hc. lia.
    + now apply pause_has_no_fetch in Hc.
    + now apply Hpre.
Qed.

(** The loop never makes more attempts than it has iterations. *)
Lemma loop_fetches r a resp :
  exists n, n <= r /\ fetches (snd (poll r a resp)) = seq a n.
Proof.
  revert a resp. induction r as [|r IH]; intros a resp.
  - exists 0. split; [lia|reflexivity].
  - rewrite loop_step.
    destruct (attempt_body a resp) as [c i] eqn:E.
    assert (Hf : fetches (console i) = [a]).
    { rewrite <- fetches_timeline.
      replace i with (snd (attempt_body a resp)) by now rewrite E.
      now rewrite iteration_timeline. }
    destruct c as [| |code]; simpl.
    + destruct (IH (S a) (fullApiResponse i)) as (n & Hn & Hseq).
      exists (S n). split; [lia|].
      rewrite !fetches_app, Hf, Hseq.
      assert (fetches (pause a i) = []) as ->
        by (unfold pause; now destruct (_ && _)).
      reflexivity.
    + exists 1. split; [lia|assumption].
    + exists 1. split; [lia|assumption].
Qed.

Lemma iteration_head a resp :
  exists rest,
    console (snd (attempt_body a resp)) = EvLog LLog (MAttempt a) :: EvFetch a :: rest.
Proof.
  unfold FullResults.attempt_body. destruct (service a) as [data|e].
  - destruct (response_console a data [EvLog LLog (MAttempt a); EvFetch a])
      as (logs & -> & _). simpl. eauto.
  - destruct (on_error_cases e resp [EvLog LLog (MAttempt a); EvFetch a])
      as [[_ ->]|[_ [m ->]]]; simpl; eauto.
Qed.

Lemma loop_head r a resp :
  exists rest, snd (poll (S r) a resp) = EvLog LLog (MAttempt a) :: EvFetch a :: rest.
Proof.
  rewrite loop_step. destruct (iteration_head a resp) as (rest & H).
  destruct (attempt_body a resp) as [[| |e] s]; simpl in *; rewrite H; simpl; eauto.
Qed.

(** *** The whole script *)

Lemma script_fetch apiKey pw writable out tr b :
  getFullEmailOnAcidResults service apiKey pw writable = (out, tr) ->
  In (EvFetch b) tr ->
  exists intro outro,
    timeline intro = [] /\ timeline outro = [] /\
    tr = intro ++ snd (poll MAX_POLLING_ATTEMPTS 0 JNull) ++ outro /\
    In (EvFetch b) (snd (poll MAX_POLLING_ATTEMPTS 0 JNull)) /\
    (fst (poll MAX_POLLING_ATTEMPTS 0 JNull) = None -> out = Exited 1 /\ outro = []).
Proof.
  unfold getFullEmailOnAcidResults.
  destruct (_ || _); [intros [= <- <-] [[=]|[]]|].
  simpl String.eqb. cbv iota.
  destruct (poll MAX_POLLING_ATTEMPTS 0 JNull) as [[resp|] ptr]; simpl.
  - set (intro := [EvLog LLog MRetrieving; EvLog LLog MCurrentTime]).
    assert (Hfind : forall outro, timeline outro = [] ->
              In (EvFetch b) (intro ++ ptr ++ outro) -> In (EvFetch b) ptr).
    { intros outro Ho Hin. rewrite !in_app_iff in Hin.
      destruct Hin as [[[=]|[[=]|[]]]|[H|H]]; [assumption|].
      apply In_timeline in H. rewrite Ho in H. destruct H. }
    destruct (truthy resp); simpl; [destruct writable|]; intros [= <- <-] Hin.
    + exists intro, [EvLog LLog MRetrieved; EvLog LLog MSaving;
                     EvLog LLog MSaved; EvLog LLog MComplete].
      rewrite <- !app_assoc in *. repeat split; auto; try discriminate.
      eapply Hfind; [|exact Hin]. reflexivity.
    + exists intro, [EvLog LLog MRetrieved; EvLog LLog MSaving; EvLog LError MSaveError].
      rewrite <- !app_assoc in *. repeat split; auto; try discriminate.
      eapply Hfind; [|exact Hin]. reflexivity.
    + exists intro, [EvLog LWarn MNoResponse].
      repeat split; auto; try discriminate.
      eapply Hfind; [|exact Hin]. reflexivity.
  - intros [= <- <-] Hin.
    exists [EvLog LLog MRetrieving; EvLog LLog MCurrentTime], [].
    rewrite app_nil_r. repeat split; auto.
    simpl in Hin. destruct Hin as [[=]|[[=]|H]]. exact H.
Qed.

(** Whenever the loop sleeps, it sleeps [POLLING_INTERVAL_MS]. *)
Lemma loop_sleeps r a resp :
  Forall (eq POLLING_INTERVAL_MS) (sleeps (snd (poll r a resp))).
Proof.
  revert a resp. induction r as [|r IH]; intros a resp; [constructor|].
  rewrite loop_step.
  assert (Hs : sleeps (console (snd (attempt_body a resp))) = []).
  { rewrite <- sleeps_timeline, iteration_timeline. reflexivity. }
  destruct (attempt_body a resp) as [[| |code] i]; simpl in *; rewrite ?Hs;
    try constructor.
  rewrite !sleeps_app, Hs. simpl. apply Forall_app. split; [|apply IH].
  unfold pause. destruct (_ && _); repeat constructor.
Qed.

(** The script makes at most [MAX_POLLING_ATTEMPTS] attempts. *)
Lemma script_fetches apiKey pw writable :
  exists n, n <= MAX_POLLING_ATTEMPTS /\
    fetches (snd (getFullEmailOnAcidResults service apiKey pw writable)) = seq 0 n.
Proof.
  unfold getFullEmailOnAcidResults.
  destruct (_ || _); [exists 0; split; [lia|reflexivity]|].
  simpl String.eqb. cbv iota.
  destruct (loop_fetches MAX_POLLING_ATTEMPTS 0 JNull) as (n & Hn & Hseq).
  exists n. split; [assumption|].
  destruct (poll MAX_POLLING_ATTEMPTS 0 JNull) as [[resp|] ptr]; cbn [snd] in *.
  - destruct (truthy resp); cbn [negb]; [destruct writable|]; cbn [snd];
      rewrite !fetches_app, Hseq; simpl; now rewrite !app_nil_r.
  - rewrite fetches_app, Hseq. reflexivity.
Qed.

Lemma script_sleeps apiKey pw writable :
  Forall (eq POLLING_INTERVAL_MS)
         (sleeps (snd (getFullEmailOnAcidResults service apiKey pw writable))).
Proof.
  unfold getFullEmailOnAcidResults.
  destruct (_ || _); [constructor|].
  simpl String.eqb. cbv iota.
  pose proof (loop_sleeps MAX_POLLING_ATTEMPTS 0 JNull) as Hs.
  destruct (poll MAX_POLLING_ATTEMPTS 0 JNull) as [[resp|] ptr]; cbn [snd] in *.
  - destruct (truthy resp); cbn [negb]; [destruct writable|]; cbn [snd];
      rewrite !sleeps_app; simpl; now rewrite !app_nil_r.
  - rewrite sleeps_app. exact Hs.
Qed.

(** The script, cut at an attempt it fetched on. *)
Lemma script_at apiKey pw writable out tr b :
  getFullEmailOnAcidResults service apiKey pw writable = (out, tr) ->
  In (EvFetch b) tr ->
  exists r' before outro resp,
    b + S r' = MAX_POLLING_ATTEMPTS /\
    tr = before ++ snd (poll (S r') b resp) ++ outro /\
    (forall c, In (EvFetch c) before -> c < b) /\
    timeline outro = [] /\
    (fst (poll (S r') b resp) = None -> out = Exited 1 /\ outro = []).
Proof.
  intros Hrun Hin.
  destruct (script_fetch _ _ _ _ _ _ Hrun Hin)
    as (intro & outro & Hi & Ho & Htr & Hb & Hexit).
  destruct (loop_reaches _ _ _ _ Hb) as (r' & pre & resp & Hr & _ & Heq & Hpre).
  rewrite Heq in Htr, Hexit. simpl in Htr, Hexit.
  exists r', (intro ++ pre), outro, resp. repeat split; auto.
  - now rewrite Htr, <- !app_assoc.
  - intros c Hc. apply in_app_iff in Hc as [Hc|Hc]; [|auto].
    apply In_timeline in Hc. rewrite Hi in Hc. destruct Hc.
  - now apply Hexit.
  - now apply Hexit.
Qed.

End Iteration.

End FullResultsFacts.

(** ** The Gmail payload walk *)

Module GmailFacts.
Import Gmail.

(** Induction over a part and all the parts below it. *)
Lemma MessagePart_tree_ind (P : MessagePart -> Prop) :
  (forall m b ps, Forall P ps -> P (mkPart m b ps)) -> forall p, P p.
Proof.
  intros step. fix go 1. intros [m b ps]. apply step.
  induction ps as [|q ps IHps]; constructor; [apply go|exact IHps].
Qed.

Section Walk.
Variable decode : string -> string.

Lemma getHtmlFromPayload_unfold p :
  getHtmlFromPayload decode p =
  match html_data p with
  | Some d => Some (decode d)
  | None => search_parts decode (parts p)
  end.
Proof.
  destruct p as [m b ps]. reflexivity.
Qed.

Lemma preorder_unfold p : preorder p = p :: preorder_all (parts p).
Proof.
  destruct p as [m b ps]. reflexivity.
Qed.



End Walk.

End GmailFacts.

(** ** The setup script *)

Module GlobalSetupFacts.
Import Js GlobalSetup.

(** A run is known once its outcome is. *)
Lemma run_with_outcome {A B C} (run : A * B * C) (outcome : A) :
  fst (fst run) = outcome -> run = (outcome, snd (fst run), snd run).
Proof. destruct run as [[o fs] out]. simpl. now intros ->. Qed.

Section Setup.
Variables TEMP_DIR EMAILS_DIR DEFAULT_CLIENTS_FILE : string.
Variable JSON_parse : string -> option Json.
Variable writable : string -> bool.
Variable create_test : string -> string -> list Json -> option Json.
Variable service : nat -> EmailOnAcid.FetchOutcome.

Lemma writeFileSync_files fs p content fs' :
  writeFileSync writable fs p content = Some fs' ->
  files fs' = <[p := content]> (files fs).
Proof.
  unfold writeFileSync. destruct (_ && _); [|discriminate]. now intros [= <-].
Qed.

(** When the inner block runs to its end, both files were written
    with the same text. *)
Lemma generate_done previewService taskName now html clients fs fs' out :
  generate TEMP_DIR writable previewService taskName now html clients fs
    = (true, fs', out) ->
  exists previewUrlsMap fs1,
    let content := JSON_stringify (generatedPreviews previewUrlsMap) in
    writeFileSync writable fs (GENERATED_URLS_FILE TEMP_DIR taskName) content
      = Some fs1 /\
    writeFileSync writable fs1 (archiveFilePath TEMP_DIR taskName now) content
      = Some fs'.
Proof.
  unfold generate.
  destruct (injectHtml _ _ _ _) as [resp|]; [|discriminate].
  destruct (getPreviewUrls _ _ _) as [urls|]; [|discriminate].
  destruct (writeFileSync writable fs _ _) as [fs1|] eqn:E1; [|discriminate].
  destruct (writeFileSync writable fs1 _ _) as [fs2|] eqn:E2; [|discriminate].
    intros [= <- <-]. exists urls, fs1. auto.
Qed.

Lemma globalSetup_finished env now fs fs' out :
  globalSetup TEMP_DIR EMAILS_DIR DEFAULT_CLIENTS_FILE JSON_parse writable
    create_test service env now fs = (Finished, fs', out) ->
  exists taskName previewService html clients fs0 out',
    nonempty (env !! "TASK_NAME") = Some taskName /\
        generate TEMP_DIR writable previewService taskName now html clients fs0
      = (true, fs', out').
Proof.
  unfold globalSetup.
  destruct (nonempty (env !! "TASK_NAME")) as [taskName|]; [|discriminate].
  destruct (negb (existsSync fs _)); [discriminate|].
  destruct (negb (existsSync fs _)); [discriminate|].
  destruct (load_clients _ _ _) as [clients|]; [|discriminate].
  destruct (nonempty _) as [serviceToUse|]; [|discriminate].
  destruct (nonempty _) as [apiKey|]; [|discriminate].
  destruct (nonempty _) as [accountPassword|]; [|discriminate].
  destruct (ensure_dir _ _ _) as [fs1|]; [|discriminate].
  destruct (ensure_dir _ _ _) as [fs2|]; [|discriminate].
  destruct (readFileSync _ _) as [html|]; [|discriminate].
  destruct (getEmailPreviewService _ _ _ _ _) as [e|previewService]; [discriminate|].
    destruct (generate _ _ _ _ _ _ _ _) as [[[|] fsB] o] eqn:E; [|discriminate].
  intros [= <- <-].
  exists taskName, previewService, html, clients, fs2, o. split; [reflexivity|].
  exact E.
Qed.

End Setup.

End GlobalSetupFacts.

(* ===================================================================== *)
(** * The claims *)
(* ===================================================================== *)

Import Js.

(** C1.  In [getPreviewUrls], an attempt whose response shows every
    monitored client with status Complete, Failed or Bounced is the last
    one: the call returns, nothing is fetched after it and the fetch is the
    last thing the loop does besides console output.  In the results
    script, an attempt whose response has at least one result and none
    pending is the last one in the same sense. *)
Theorem polling_stops_once_all_final :
  (forall service emailClients test_id out tr a data,
      EmailOnAcid.getPreviewUrls service emailClients test_id = (out, tr) ->
      In (EvFetch a) tr ->
      service a = EmailOnAcid.FetchOk data ->
      Forall (EmailOnAcid.terminal_in (default [] data))
             (EmailOnAcid.clientsToMonitor emailClients (default [] data)) ->
      (exists urls, out = EmailOnAcid.Returned urls) /\
      (forall b, In (EvFetch b) tr -> b <= a) /\
      (exists pre, timeline tr = pre ++ [EvFetch a]))
  /\
  (forall service apiKey accountPassword writable out tr a data items,
      FullResults.getFullEmailOnAcidResults service apiKey accountPassword writable
        = (out, tr) ->
      In (EvFetch a) tr ->
      service a = FullResults.FetchOk data ->
      FullResults.results_of data = FullResults.Iterable items ->
      items <> [] ->
      Forall (fun r => js_get_opt r "status" <> JStr "pending") items ->
      (forall b, In (EvFetch b) tr -> b <= a) /\
      (exists pre, timeline tr = pre ++ [EvFetch a])).
Proof.
  split.
  - intros service emailClients test_id out tr a data.
    apply EmailOnAcidFacts.getPreviewUrls_stops.
  - intros service apiKey pw writable out tr a data items Hrun Hin Hsvc Hres Hne Hall.
    destruct (FullResultsFacts.script_at _ _ _ _ _ _ _ Hrun Hin)
      as (r' & before & outro & resp & _ & Htr & Hbefore & Ho & _).
    rewrite FullResultsFacts.loop_step in Htr.
    pose proof (FullResultsFacts.iteration_breaks service a resp data items
                  Hsvc Hres Hne Hall) as Hbreak.
    pose proof (FullResultsFacts.iteration_timeline service a resp) as Ht.
    destruct (FullResults.attempt_body service a resp) as [c i].
    simpl in Hbreak, Ht. subst c. simpl in Htr.
    split.
    + intros b Hb. rewrite Htr, !in_app_iff in Hb. destruct Hb as [Hb|[Hb|Hb]].
      * apply Hbefore in Hb. lia.
      * apply In_timeline in Hb. rewrite Ht in Hb. destruct Hb as [[= ->]|[]]. lia.
      * apply In_timeline in Hb. rewrite Ho in Hb. destruct Hb.
    + exists (timeline before). now rewrite Htr, !timeline_app, Ht, Ho, app_nil_r.
Qed.

(** Client [a] completes on the second attempt: nothing is fetched after it. *)
Lemma polling_stops_once_all_final_witness :
  (forall b,
      In (EvFetch b)
         (snd (EmailOnAcid.getPreviewUrls Scenarios.completes_second ["a"] (JStr "t"))) ->
      b <= 1)
  /\
  (forall b,
      In (EvFetch b)
         (snd (FullResults.getFullEmailOnAcidResults Scenarios.full_completes_second
                 (Some "key") (Some "password") true)) ->
      b <= 1).
Proof.
  split.
  - eapply (proj1 polling_stops_once_all_final
              Scenarios.completes_second ["a"] (JStr "t") _ _ 1).
    + apply surjective_pairing.
    + vm_compute. tauto.
    + reflexivity.
    + repeat constructor. eexists. split; [reflexivity|]. left. reflexivity.
  - eapply (proj2 polling_stops_once_all_final
              Scenarios.full_completes_second (Some "key") (Some "password") true _ _ 1).
    + apply surjective_pairing.
    + vm_compute. tauto.
    + reflexivity.
    + reflexivity.
    + discriminate.
    + repeat constructor. discriminate.
Defined.

(** C2, where the code departs from it.  Both loops make at most sixty
    attempts, and whenever they sleep they sleep 10000 ms.
    [getPreviewUrls] sleeps once between any two consecutive attempts.
    The results script does not: after an attempt other than the first
    whose response carries no results it goes straight to the next
    attempt.  In the run below the endpoint answers every attempt with an
    object that has no [results]; the script fetches sixty times and
    sleeps once, after the first attempt. *)
Theorem polling_ceiling_and_interval :
  (forall service emailClients test_id,
      exists n, n <= 60 /\
        timeline (snd (EmailOnAcid.getPreviewUrls service emailClients test_id))
          = schedule 10000 0 n) /\
  (forall service apiKey accountPassword writable,
      let tr := snd (FullResults.getFullEmailOnAcidResults service apiKey
                       accountPassword writable) in
      (exists n, n <= 60 /\ fetches tr = seq 0 n) /\
      Forall (eq 10000%Z) (sleeps tr)) /\
  (let tr := snd (FullResults.getFullEmailOnAcidResults Scenarios.full_keyed_by_client
                    (Some "key") (Some "password") true) in
   fetches tr = seq 0 60 /\
   sleeps tr = [10000%Z] /\
   exists pre post, timeline tr = pre ++ [EvFetch 1; EvFetch 2] ++ post).
Proof.
  split; [|split].
  - apply EmailOnAcidFacts.getPreviewUrls_timeline.
  - intros service apiKey accountPassword writable. split.
    + apply FullResultsFacts.script_fetches.
    + apply FullResultsFacts.script_sleeps.
  - split; [vm_compute; reflexivity|]. split; [vm_compute; reflexivity|].
    exists [EvFetch 0; EvSleep 10000], (map EvFetch (seq 3 57)).
    vm_compute. reflexivity.
Qed.

(** C3.  A fetch that fails with status 401 is the last thing either loop
    does, apart from reporting it: [getPreviewUrls] throws that very
    error, the script exits with code 1, and the trace ends with the fetch
    and the error message, so that neither a sleep nor another attempt
    follows. *)
Theorem auth_failure_aborts :
  (forall service emailClients test_id out tr a,
      EmailOnAcid.getPreviewUrls service emailClients test_id = (out, tr) ->
      In (EvFetch a) tr ->
      service a = EmailOnAcid.FetchFailed (ResponseError 401) ->
      out = EmailOnAcid.Thrown (EmailOnAcid.Rethrown (ResponseError 401)) /\
      (forall b, In (EvFetch b) tr -> b <= a) /\
      (exists pre,
          tr = pre ++ [EvFetch a; EvLog LError EmailOnAcid.MAuthFailed401]))
  /\
  (forall service apiKey accountPassword writable out tr a,
      FullResults.getFullEmailOnAcidResults service apiKey accountPassword writable
        = (out, tr) ->
      In (EvFetch a) tr ->
      service a = FullResults.FetchFailed (ResponseError 401) ->
      out = FullResults.Exited 1 /\
      (forall b, In (EvFetch b) tr -> b <= a) /\
      (exists pre,
          tr = pre ++ [EvFetch a; EvLog LError FullResults.MAuthFailed401])).
Proof.
  split.
  - intros service emailClients test_id out tr a Hrun Hin Hsvc.
    destruct (EmailOnAcidFacts.getPreviewUrls_at _ _ _ _ _ _ Hrun Hin)
      as (r' & before & outro & _ & Hout & Htr & Hbefore & Ho & Hfin).
    destruct (EmailOnAcidFacts.attempt_body_failed service emailClients a
                (EmailOnAcid.urls_after service emailClients a) _ Hsvc)
      as [[_ E]|[Hne _]]; [|contradiction].
    rewrite EmailOnAcidFacts.poll_step, E in Hout, Htr. simpl in Hout, Htr.
    subst out. simpl in Hfin. subst outro. rewrite ?app_nil_r in Htr.
    split; [reflexivity|]. split.
    + intros b Hb. rewrite Htr, in_app_iff in Hb. destruct Hb as [Hb|Hb].
      * apply Hbefore in Hb. lia.
      * simpl in Hb. destruct Hb as [[=]|[[= ->]|[[=]|[]]]]. lia.
    + exists (before ++ [EvLog LLog (EmailOnAcid.MAttempt a)]).
      now rewrite Htr, <- app_assoc.
  - intros service apiKey pw writable out tr a Hrun Hin Hsvc.
    destruct (FullResultsFacts.script_at _ _ _ _ _ _ _ Hrun Hin)
      as (r' & before & outro & resp & _ & Htr & Hbefore & Ho & Hexit).
    assert (E : FullResults.attempt_body service a resp =
                (FullResults.Exit 1,
                 FullResults.mkIter resp true
                   [EvLog LLog (FullResults.MAttempt a); EvFetch a;
                    EvLog LError FullResults.MAuthFailed401])).
    { unfold FullResults.attempt_body. rewrite Hsvc. reflexivity. }
    rewrite FullResultsFacts.loop_step, E in Htr, Hexit. simpl in Htr, Hexit.
    destruct Hexit as [-> ->]; [reflexivity|]. rewrite ?app_nil_r in Htr.
    split; [reflexivity|]. split.
    + intros b Hb. rewrite Htr, in_app_iff in Hb. destruct Hb as [Hb|Hb].
      * apply Hbefore in Hb. lia.
      * simpl in Hb. destruct Hb as [[=]|[[= ->]|[[=]|[]]]]. lia.
    + exists (before ++ [EvLog LLog (FullResults.MAttempt a)]).
      now rewrite Htr, <- app_assoc.
Qed.

(** Authentication fails on the second attempt of either loop. *)
Lemma auth_failure_aborts_witness :
  fst (EmailOnAcid.getPreviewUrls Scenarios.auth_fails_second ["a"] (JStr "t"))
    = EmailOnAcid.Thrown (EmailOnAcid.Rethrown (ResponseError 401))
  /\
  fst (FullResults.getFullEmailOnAcidResults Scenarios.full_auth_fails_second
         (Some "key") (Some "password") true)
    = FullResults.Exited 1.
Proof.
  split.
  - eapply (proj1 auth_failure_aborts Scenarios.auth_fails_second ["a"] (JStr "t") _ _ 1).
    + apply surjective_pairing.
    + vm_compute. tauto.
    + reflexivity.
  - eapply (proj2 auth_failure_aborts Scenarios.full_auth_fails_second
              (Some "key") (Some "password") true _ _ 1).
    + apply surjective_pairing.
    + vm_compute. tauto.
    + reflexivity.
Defined.






(** C6, as the code has it.  With a non-empty [emailClients] the monitored
    clients are that list on every attempt, whatever the response: the
    loop stops on an attempt that finds all of them final and goes on
    after one that does not.  With an empty [emailClients] they are the
    keys of the response of the attempt at hand: the set is taken anew on
    every attempt and is not fixed by the first response that shows keys.
    The loop then stops on the first attempt whose response has keys that
    are all final in that same response, and goes on after an attempt
    whose response has a key that is not final. *)
Theorem monitored_clients :
  (forall emailClients currentApiResults,
      emailClients <> [] ->
      EmailOnAcid.clientsToMonitor emailClients currentApiResults = emailClients) /\
  (forall currentApiResults,
      EmailOnAcid.clientsToMonitor [] currentApiResults = Object_keys currentApiResults) /\
  (forall service emailClients test_id out tr a data,
      emailClients <> [] ->
      EmailOnAcid.getPreviewUrls service emailClients test_id = (out, tr) ->
      In (EvFetch a) tr ->
      service a = EmailOnAcid.FetchOk data ->
      (Forall (EmailOnAcid.terminal_in (default [] data)) emailClients ->
       (exists urls, out = EmailOnAcid.Returned urls) /\
       (forall b, In (EvFetch b) tr -> b <= a)) /\
      (~ Forall (EmailOnAcid.terminal_in (default [] data)) emailClients ->
       S a < EmailOnAcid.MAX_POLLING_ATTEMPTS ->
       In (EvFetch (S a)) tr)) /\
  (forall service test_id out tr a data,
      EmailOnAcid.getPreviewUrls service [] test_id = (out, tr) ->
      In (EvFetch a) tr ->
      service a = EmailOnAcid.FetchOk data ->
      (Object_keys (default [] data) <> [] ->
       Forall (EmailOnAcid.terminal_in (default [] data)) (Object_keys (default [] data)) ->
       (exists urls, out = EmailOnAcid.Returned urls) /\
       (forall b, In (EvFetch b) tr -> b <= a)) /\
      (~ Forall (EmailOnAcid.terminal_in (default [] data))
                (Object_keys (default [] data)) ->
       S a < EmailOnAcid.MAX_POLLING_ATTEMPTS ->
       In (EvFetch (S a)) tr)).
Proof.
  assert (Hlist : forall emailClients currentApiResults,
             emailClients <> [] ->
             EmailOnAcid.clientsToMonitor emailClients currentApiResults = emailClients)
    by (intros [|c cs] cur H; [contradiction|reflexivity]).
  split; [exact Hlist|]. split; [reflexivity|]. split.
  - intros service emailClients test_id out tr a data Hne Hrun Hin Hsvc.
    pose proof (EmailOnAcidFacts.getPreviewUrls_stops service emailClients test_id
                  out tr a data Hrun Hin Hsvc) as Hstop.
    pose proof (EmailOnAcidFacts.getPreviewUrls_goes_on service emailClients test_id
                  out tr a data Hrun Hin Hsvc) as Hgo.
    rewrite (Hlist emailClients (default [] data) Hne) in Hstop, Hgo. split.
    + intros Hall. destruct (Hstop Hall) as (H1 & H2 & _). auto.
    + exact Hgo.
  - intros service test_id out tr a data Hrun Hin Hsvc. split.
    + intros _ Hall.
      destruct (EmailOnAcidFacts.getPreviewUrls_stops service [] test_id out tr a data
                  Hrun Hin Hsvc Hall) as (H1 & H2 & _).
      auto.
    + intros Hnot Hlt.
      exact (EmailOnAcidFacts.getPreviewUrls_goes_on service [] test_id out tr a data
               Hrun Hin Hsvc Hnot Hlt).
Qed.

(** With no clients asked for, the loop goes on after the second attempt,
    where [b] is new and processing, and stops on the third. *)
Lemma monitored_clients_witness :
  (forall b,
      In (EvFetch b)
         (snd (EmailOnAcid.getPreviewUrls Scenarios.new_client_appears [] (JStr "t"))) ->
      b <= 2) /\
  In (EvFetch 2)
     (snd (EmailOnAcid.getPreviewUrls Scenarios.new_client_appears [] (JStr "t"))).
Proof.
  split.
    - refine (proj2 (proj1 (proj2 (proj2 (proj2 monitored_clients))
                            Scenarios.new_client_appears (JStr "t") _ _ 2 _
                            (surjective_pairing _) _ eq_refl) _ _)).
    + vm_compute. tauto.
    + discriminate.
    + repeat constructor; eexists; (split; [reflexivity|]); left; reflexivity.
    - refine (proj2 (proj2 (proj2 (proj2 monitored_clients))
                     Scenarios.new_client_appears (JStr "t") _ _ 1 _
                     (surjective_pairing _) _ eq_refl) _ _).
    + vm_compute. tauto.
    + intros H. inversion H as [|? ? _ H']; subst. inversion H' as [|? ? Hb _]; subst.
      destruct Hb as (r & Hr & Hst). injection Hr as <-.
      destruct Hst as [Hst|[Hst|Hst]]; discriminate Hst.
    + unfold EmailOnAcid.MAX_POLLING_ATTEMPTS. lia.
Defined.

(** The first response shows [a] alone and [a] is complete on the second
    attempt, yet a third attempt is made: [b] has appeared meanwhile. *)
Lemma tracked_set_not_fixed_by_first_response :
  ~ (forall service test_id out tr k0 first k data,
        EmailOnAcid.getPreviewUrls service [] test_id = (out, tr) ->
        service k0 = EmailOnAcid.FetchOk first ->
        Object_keys (default [] first) <> [] ->
        (forall j d, j < k0 -> service j = EmailOnAcid.FetchOk d ->
                     Object_keys (default [] d) = []) ->
        k0 <= k ->
        In (EvFetch k) tr ->
        service k = EmailOnAcid.FetchOk data ->
        Forall (EmailOnAcid.terminal_in (default [] data))
               (Object_keys (default [] first)) ->
        forall b, In (EvFetch b) tr -> b <= k).
Proof.
  intros H.
  assert (2 <= 1) as Habs; [|lia].
  eapply (H Scenarios.new_client_appears (JStr "t") _ _ 0 _ 1 _ (surjective_pairing _)).
  - reflexivity.
  - discriminate.
  - intros j d Hj. lia.
  - lia.
  - vm_compute. tauto.
  - reflexivity.
  - repeat constructor. eexists. split; [reflexivity|]. left. reflexivity.
  - vm_compute. tauto.
Qed.

(** C7.  A fetch that fails in any way other than with status 401 (404,
    another status, no response at all) is reported with a warning and the
    loop goes on: unless this was the last of the sixty attempts it sleeps
    the polling interval and fetches again, and after the last attempt
    [getPreviewUrls] returns normally while the script leaves its loop. *)
Theorem transient_errors_are_retried :
  (forall service emailClients test_id out tr a e,
      EmailOnAcid.getPreviewUrls service emailClients test_id = (out, tr) ->
      In (EvFetch a) tr ->
      service a = EmailOnAcid.FetchFailed e ->
      e <> ResponseError 401 ->
      exists pre m post,
        tr = pre ++ [EvFetch a; EvLog LWarn m] ++ post /\
        (S a < EmailOnAcid.MAX_POLLING_ATTEMPTS ->
         exists post',
           post = EvSleep EmailOnAcid.POLLING_INTERVAL_MS
                  :: EvLog LLog (EmailOnAcid.MAttempt (S a))
                  :: EvFetch (S a) :: post') /\
        (S a = EmailOnAcid.MAX_POLLING_ATTEMPTS ->
         exists urls, out = EmailOnAcid.Returned urls /\
                      post = [EmailOnAcid.final_log emailClients urls]))
  /\
  (forall service apiKey accountPassword writable out tr a e,
      FullResults.getFullEmailOnAcidResults service apiKey accountPassword writable
        = (out, tr) ->
      In (EvFetch a) tr ->
      service a = FullResults.FetchFailed e ->
      e <> ResponseError 401 ->
      exists pre m post,
        tr = pre ++ [EvFetch a; EvLog LWarn m] ++ post /\
        (S a < FullResults.MAX_POLLING_ATTEMPTS ->
         exists post',
           post = EvSleep FullResults.POLLING_INTERVAL_MS
                  :: EvLog LLog (FullResults.MAttempt (S a))
                  :: EvFetch (S a) :: post') /\
        (S a = FullResults.MAX_POLLING_ATTEMPTS -> timeline post = [])).
Proof.
  split.
  - intros service emailClients test_id out tr a e Hrun Hin Hsvc Hne.
    destruct (EmailOnAcidFacts.getPreviewUrls_at _ _ _ _ _ _ Hrun Hin)
      as (r' & before & outro & Hr & Hout & Htr & _ & _ & Hfin).
    destruct (EmailOnAcidFacts.attempt_body_failed service emailClients a
                (EmailOnAcid.urls_after service emailClients a) _ Hsvc)
      as [[-> _]|[_ [m E]]]; [contradiction|].
    rewrite EmailOnAcidFacts.poll_step, E in Hout, Htr.
    cbn [fst snd EmailOnAcid.console EmailOnAcid.extractedUrls] in Hout, Htr.
    unfold EmailOnAcid.pause in Htr.
    cbn [EmailOnAcid.allTargetClientsProcessed negb] in Htr.
    unfold EmailOnAcid.MAX_POLLING_ATTEMPTS in *.
    exists (before ++ [EvLog LLog (EmailOnAcid.MAttempt a)]), m.
    destruct r' as [|r'].
    + assert ((a <? 60 - 1) = false) as E' by (apply Nat.ltb_ge; lia).
      rewrite E' in Htr. simpl in Hout, Htr. subst out. simpl in Hfin. subst outro.
      eexists. split; [rewrite Htr, <- !app_assoc; reflexivity|].
      split; [lia|]. intros _. eauto.
    + assert ((a <? 60 - 1) = true) as E' by (apply Nat.ltb_lt; lia).
      rewrite E' in Htr.
      destruct (EmailOnAcidFacts.poll_head service emailClients r' (S a)
                  (EmailOnAcid.urls_after service emailClients a)) as (rest & Hhead).
      rewrite Hhead in Htr.
      eexists. split; [rewrite Htr, <- !app_assoc; reflexivity|].
      split; [|lia]. intros _. simpl. eauto.
  - intros service apiKey pw writable out tr a e Hrun Hin Hsvc Hne.
    destruct (FullResultsFacts.script_at _ _ _ _ _ _ _ Hrun Hin)
      as (r' & before & outro & resp & Hr & Htr & _ & Ho & _).
    assert (exists m, FullResults.attempt_body service a resp =
              (FullResults.Continue,
               FullResults.mkIter resp false
                 [EvLog LLog (FullResults.MAttempt a); EvFetch a; EvLog LWarn m]))
      as [m E].
    { unfold FullResults.attempt_body. rewrite Hsvc.
      destruct (FullResultsFacts.on_error_cases e resp
                  [EvLog LLog (FullResults.MAttempt a); EvFetch a])
        as [[-> _]|[_ [m ->]]]; [contradiction|]. eauto. }
    rewrite FullResultsFacts.loop_step, E in Htr.
    cbn [fst snd FullResults.console FullResults.fullApiResponse] in Htr.
    unfold FullResults.pause in Htr.
    cbn [FullResults.allClientStatusesFinal negb] in Htr.
    unfold FullResults.MAX_POLLING_ATTEMPTS in *.
    exists (before ++ [EvLog LLog (FullResults.MAttempt a)]), m.
    destruct r' as [|r'].
    + assert ((a <? 60 - 1) = false) as E' by (apply Nat.ltb_ge; lia).
      rewrite E' in Htr. simpl in Htr.
      eexists. split; [rewrite Htr, <- !app_assoc; reflexivity|].
      split; [lia|]. intros _. exact Ho.
    + assert ((a <? 60 - 1) = true) as E' by (apply Nat.ltb_lt; lia).
      rewrite E' in Htr.
      destruct (FullResultsFacts.loop_head service r' (S a) resp) as (rest & Hhead).
      rewrite Hhead in Htr.
      eexists. split; [rewrite Htr, <- !app_assoc; reflexivity|].
      split; [|lia]. intros _. simpl. eauto.
Qed.

(** A 404 on the first attempt is followed by a sleep and a second attempt. *)
Lemma transient_errors_are_retried_witness :
  (exists pre m post,
      snd (EmailOnAcid.getPreviewUrls Scenarios.not_found_first ["a"] (JStr "t"))
        = pre ++ [EvFetch 0; EvLog LWarn m]
              ++ EvSleep 10000 :: EvLog LLog (EmailOnAcid.MAttempt 1) :: EvFetch 1 :: post)
  /\
  (exists pre m post,
      snd (FullResults.getFullEmailOnAcidResults Scenarios.full_not_found_first
             (Some "key") (Some "password") true)
        = pre ++ [EvFetch 0; EvLog LWarn m]
              ++ EvSleep 10000 :: EvLog LLog (FullResults.MAttempt 1) :: EvFetch 1 :: post).
Proof.
  split.
  - destruct (proj1 transient_errors_are_retried
                Scenarios.not_found_first ["a"] (JStr "t") _ _ 0 (ResponseError 404)
                (surjective_pairing _))
      as (pre & m & post & Htr & Hnext & _).
    + vm_compute. tauto.
    + reflexivity.
    + discriminate.
    + destruct Hnext as [post' ->]; [unfold EmailOnAcid.MAX_POLLING_ATTEMPTS; lia|].
      exists pre, m, post'. exact Htr.
  - destruct (proj2 transient_errors_are_retried
                Scenarios.full_not_found_first (Some "key") (Some "password") true
                _ _ 0 (ResponseError 404) (surjective_pairing _))
      as (pre & m & post & Htr & Hnext & _).
    + vm_compute. tauto.
    + reflexivity.
    + discriminate.
    + destruct Hnext as [post' ->]; [unfold FullResults.MAX_POLLING_ATTEMPTS; lia|].
      exists pre, m, post'. exact Htr.
Defined.

(** C8.  When [globalSetup] runs to its end, the manifest file and the
    timestamped archive file both exist and hold the same bytes: the JSON
    text of one and the same list of generated previews. *)
Theorem archive_equals_manifest :
  forall TEMP_DIR EMAILS_DIR DEFAULT_CLIENTS_FILE JSON_parse writable create_test
         service env now fs fs' out,
    GlobalSetup.globalSetup TEMP_DIR EMAILS_DIR DEFAULT_CLIENTS_FILE JSON_parse
      writable create_test service env now fs = (GlobalSetup.Finished, fs', out) ->
    exists taskName previewUrlsMap,
      GlobalSetup.nonempty (env !! "TASK_NAME") = Some taskName /\
      let content :=
        GlobalSetup.JSON_stringify (GlobalSetup.generatedPreviews previewUrlsMap) in
      GlobalSetup.files fs' !! GlobalSetup.GENERATED_URLS_FILE TEMP_DIR taskName
        = Some content /\
      GlobalSetup.files fs' !! GlobalSetup.archiveFilePath TEMP_DIR taskName now
        = Some content.
Proof.
  intros TEMP_DIR EMAILS_DIR DEFAULT_CLIENTS_FILE JSON_parse writable create_test
         service env now fs fs' out Hrun.
  destruct (GlobalSetupFacts.globalSetup_finished _ _ _ _ _ _ _ _ _ _ _ _ Hrun)
    as (taskName & previewService & html & clients & fs0 & out' & Htask & Hgen).
    destruct (GlobalSetupFacts.generate_done _ _ _ _ _ _ _ _ _ _ Hgen)
    as (urls & fs1 & Hw1 & Hw2).
  exists taskName, urls. split; [assumption|]. cbv zeta.
  apply GlobalSetupFacts.writeFileSync_files in Hw1, Hw2. rewrite Hw2, Hw1.
  split.
  - destruct (decide (GlobalSetup.archiveFilePath TEMP_DIR taskName now
                      = GlobalSetup.GENERATED_URLS_FILE TEMP_DIR taskName)) as [->|Hne].
    + apply lookup_insert_eq.
    + rewrite lookup_insert_ne by assumption. apply lookup_insert_eq.
  - apply lookup_insert_eq.
Qed.

(** One task, one client, a service that completes on the second attempt. *)
Lemma archive_equals_manifest_witness :
  exists content,
    GlobalSetup.files (snd (fst Scenarios.setup_run))
      !! GlobalSetup.GENERATED_URLS_FILE "/repo/temp" "Summer Sale" = Some content /\
    GlobalSetup.files (snd (fst Scenarios.setup_run))
      !! GlobalSetup.archiveFilePath "/repo/temp" "Summer Sale" Scenarios.setup_now
      = Some content.
Proof.
  destruct (archive_equals_manifest
              "/repo/temp" "/repo/emails" "/repo/default-clients-eoa.json"
              (fun _ => Some (JObj [("apple", JObj [("id", JStr "a")])]))
              (fun _ => true)
              (fun _ _ _ => Some (JObj [("id", JStr "t1")]))
              Scenarios.completes_second
              Scenarios.setup_env Scenarios.setup_now Scenarios.setup_fs
              (snd (fst Scenarios.setup_run)) (snd Scenarios.setup_run))
    as (taskName & urls & Htask & Hm & Ha).
  - apply (GlobalSetupFacts.run_with_outcome Scenarios.setup_run).
    vm_compute. reflexivity.
  - assert (Hname : GlobalSetup.nonempty (Scenarios.setup_env !! "TASK_NAME")
                    = Some "Summer Sale") by (vm_compute; reflexivity).
    rewrite Hname in Htask. injection Htask as <-.
    eexists. split; [exact Hm|exact Ha].
Defined.




(** C10.  When [getPreviewUrls] is called with a non-empty [emailClients]
    and returns, every key of the returned mapping is one of
    [emailClients]; every value is the default screenshot URL that a
    fetched response reported for that client with status Complete; and
    the mapping only grows from one iteration to the next: a client that
    has a URL still has one after the next iteration, the same one or the
    URL that iteration's response reported for it as Complete. *)
Theorem extracted_urls_invariant :
  forall service emailClients test_id urls tr,
    emailClients <> [] ->
    EmailOnAcid.getPreviewUrls service emailClients test_id
      = (EmailOnAcid.Returned urls, tr) ->
    (forall id, In id (Object_keys urls) -> In id emailClients) /\
    (forall id url,
        obj_get urls id = Some url ->
        exists a data,
          In (EvFetch a) tr /\ service a = EmailOnAcid.FetchOk data /\
          EmailOnAcid.completed_with (default [] data) id url) /\
    urls = EmailOnAcid.urls_after service emailClients (length (fetches tr)) /\
    (forall n id url,
        obj_get (EmailOnAcid.urls_after service emailClients n) id = Some url ->
        exists url',
          obj_get (EmailOnAcid.urls_after service emailClients (S n)) id = Some url' /\
          (url' = url \/
           exists data, service n = EmailOnAcid.FetchOk data /\
                        EmailOnAcid.completed_with (default [] data) id url')).
Proof.
  intros service emailClients test_id urls tr Hne Hrun.
  destruct (EmailOnAcidFacts.getPreviewUrls_returned _ _ _ _ _ Hrun)
    as (n & Hn & Hf & ->).
  assert (Horigin : forall id url,
             obj_get (EmailOnAcid.urls_after service emailClients n) id = Some url ->
             In id emailClients /\
             exists a data,
               In (EvFetch a) tr /\ service a = EmailOnAcid.FetchOk data /\
               EmailOnAcid.completed_with (default [] data) id url).
  { intros id url H.
    apply EmailOnAcidFacts.urls_after_origin in H as (a & data & Ha & Hsvc & Hin & Hc).
    split.
    - unfold EmailOnAcid.clientsToMonitor in Hin.
      destruct emailClients; [contradiction|exact Hin].
    - exists a, data. split; [|auto].
      apply In_fetches. rewrite Hf. apply in_seq. lia. }
  split; [|split; [|split]].
  - intros id Hin. apply JsFacts.In_keys_obj_get in Hin as [url H].
    now apply Horigin in H.
  - intros id url H. now apply Horigin in H.
  - now rewrite Hf, length_seq.
  - intros m id url. apply EmailOnAcidFacts.urls_after_keeps.
Qed.

(** The mapping returned once client [a] has completed. *)
Lemma extracted_urls_invariant_witness :
  (forall id, In id (Object_keys [("a", "https://p/a.png")]) -> In id ["a"]) /\
  (exists a data,
      In (EvFetch a)
         (snd (EmailOnAcid.getPreviewUrls Scenarios.completes_second ["a"] (JStr "t"))) /\
      Scenarios.completes_second a = EmailOnAcid.FetchOk data /\
      EmailOnAcid.completed_with (default [] data) "a" "https://p/a.png").
Proof.
  destruct (extracted_urls_invariant Scenarios.completes_second ["a"] (JStr "t")
              [("a", "https://p/a.png")]
              (snd (EmailOnAcid.getPreviewUrls Scenarios.completes_second ["a"] (JStr "t"))))
    as (Hkeys & Hvalues & _).
  - discriminate.
  - vm_compute. reflexivity.
  - split; [exact Hkeys|]. apply Hvalues. reflexivity.
Defined.

(* ===================================================================== *)
(** * Further properties of the code *)
(* ===================================================================== *)

(** ** Strings *)

Module StringFacts.
Import GlobalSetup.

Lemma code_inj c n : code c = n -> c = ascii_of_nat n.
Proof. intros <-. unfold code. now rewrite ascii_nat_embedding. Qed.

Ltac cmp :=
  repeat match goal with
         | |- context [?a <=? ?b] => destruct (Nat.leb_spec a b)
         | |- context [?a =? ?b] => destruct (Nat.eqb_spec a b)
         | H : context [?a <=? ?b] |- _ => destruct (Nat.leb_spec a b)
         | H : context [?a =? ?b] |- _ => destruct (Nat.eqb_spec a b)
         end; simpl in *; try lia; try congruence; auto.

Lemma substring_prefix_length n s : String.length (String.substring 0 n s) <= n.
Proof.
  revert s. induction n as [|n IH]; intros [|c s]; simpl; try lia.
  specialize (IH s). lia.
Qed.

Lemma substring_prefix_chars (P : ascii -> Prop) n s :
  Forall P (chars s) -> Forall P (chars (String.substring 0 n s)).
Proof.
  revert s. induction n as [|n IH]; intros [|c s]; simpl; auto.
  intros H. inversion H; subst. constructor; auto.
Qed.

Lemma substring_prefix_all n s :
  String.length s <= n -> String.substring 0 n s = s.
Proof.
  revert s. induction n as [|n IH]; intros [|c s]; simpl; auto; try lia.
  intros H. f_equal. apply IH. lia.
Qed.

Lemma filter_string_chars keep s : Forall (fun c => keep c = true) (chars (filter_string keep s)).
Proof.
  induction s as [|c s IH]; simpl; [constructor|].
  destruct (keep c) eqn:E; simpl; auto.
Qed.

Lemma filter_string_all keep s :
  Forall (fun c => keep c = true) (chars s) -> filter_string keep s = s.
Proof.
  induction s as [|c s IH]; simpl; auto.
  intros H. inversion H as [|? ? Hc Hs]; subst. rewrite Hc. f_equal. auto.
Qed.

Lemma replace_spaces_chars (P : ascii -> Prop) sep in_run s :
  Forall P (chars s) ->
  Forall (fun c => c = sep \/ (P c /\ is_space c = false))
         (chars (replace_spaces sep in_run s)).
Proof.
  revert in_run. induction s as [|c s IH]; intros in_run H; simpl; [constructor|].
  inversion H as [|? ? Hc Hs]; subst.
  destruct (is_space c) eqn:E.
  - destruct in_run; simpl; auto.
  - simpl. constructor; auto.
Qed.

Lemma replace_spaces_none sep in_run s :
  Forall (fun c => is_space c = false) (chars s) -> replace_spaces sep in_run s = s.
Proof.
  revert in_run. induction s as [|c s IH]; intros in_run H; simpl; auto.
  inversion H as [|? ? Hc Hs]; subst. rewrite Hc. f_equal. auto.
Qed.

Lemma map_string_fixed f s :
  Forall (fun c => f c = c) (chars s) -> map_string f s = s.
Proof.
  induction s as [|c s IH]; simpl; auto.
  intros H. inversion H as [|? ? Hc Hs]; subst. rewrite Hc. f_equal. auto.
Qed.

(** What [sanitizeFilename] lets through. *)
Lemma sanitized_chars name isKebabCase :
  Forall (fun c =>
            is_lower c = true \/ is_digit c = true \/ c = "-"%char \/ c = "."%char \/
            (isKebabCase = false /\ c = "_"%char))
         (chars (sanitizeFilename name isKebabCase)).
Proof.
  unfold sanitizeFilename. apply substring_prefix_chars.
  match goal with |- context [filter_string ?k _] => set (keep := k) end.
  assert (H := filter_string_chars keep (toLowerCase name)).
  assert (Hkeep : forall c, keep c = true -> is_space c = false ->
            is_lower c = true \/ is_digit c = true \/ c = "-"%char \/ c = "."%char).
  { intros c Hk Hs. unfold keep in Hk. rewrite Hs in Hk.
    rewrite !orb_true_iff in Hk.
    destruct Hk as [[[[?|?]|?]|Hc]|Hc]; auto; try discriminate;
      apply Nat.eqb_eq, code_inj in Hc; auto. }
  destruct isKebabCase;
    (eapply List.Forall_impl; [|apply (replace_spaces_chars _ _ _ _ H)]);
    intros c [->|[Hk Hs]]; auto 10;
    destruct (Hkeep c Hk Hs) as [?|[?|[?|?]]]; auto 10.
Qed.

Lemma plain_char c :
  is_lower c = true \/ is_digit c = true \/ c = "-"%char \/ c = "."%char ->
  lower c = c /\ is_space c = false /\
  (is_lower c || is_digit c || is_space c || (code c =? 45) || (code c =? 46)) = true.
Proof.
  intros [H|[H|[-> | ->]]]; [| |repeat split; reflexivity..].
  - rewrite H. unfold lower, is_upper, is_space. unfold is_lower in H.
    repeat split; auto; cmp.
  - rewrite H. unfold lower, is_upper, is_space. unfold is_digit in H.
    fold (code c) in H. rewrite orb_true_r. repeat split; auto; cmp.
Qed.

Lemma append_cons x (a b : string) : String x a +:+ b = String x (a +:+ b).
Proof. reflexivity. Qed.

Lemma append_assoc (a b c : string) : (a +:+ b) +:+ c = a +:+ (b +:+ c).
Proof.
  induction a as [|x a IH]; [reflexivity|]. now rewrite !append_cons, IH.
Qed.

Lemma append_cancel (a b c : string) : a +:+ b = a +:+ c -> b = c.
Proof. apply String.app_inj. Qed.

Lemma append_separator (a : string) c (b rest : string) :
  (a +:+ String c b) +:+ rest = a +:+ String c (b +:+ rest).
Proof. now rewrite append_assoc, append_cons. Qed.

Lemma lower_idempotent c : lower (lower c) = lower c.
Proof.
  unfold lower. destruct (is_upper c) eqn:E; [|now rewrite E].
  assert (is_upper (ascii_of_nat (code c + 32)) = false) as ->; [|reflexivity].
  unfold is_upper, code in *.
  apply andb_true_iff in E as [E1 E2]. apply Nat.leb_le in E1, E2.
  rewrite nat_ascii_embedding by lia.
  apply andb_false_iff. right. apply Nat.leb_gt. lia.
Qed.

Lemma toLowerCase_idempotent s : toLowerCase (toLowerCase s) = toLowerCase s.
Proof.
  unfold toLowerCase. induction s as [|c s IH]; simpl; [reflexivity|].
  now rewrite lower_idempotent, IH.
Qed.

End StringFacts.

(** ** File names *)

Module TestFileFacts.
Import GlobalSetup TestFile StringFacts.

Lemma replace_non_alnum_chars in_run s :
  Forall (fun c => is_lower c = true \/ is_digit c = true \/ c = "-"%char)
         (chars (replace_non_alnum in_run s)).
Proof.
  revert in_run. induction s as [|c s IH]; intros in_run; simpl; [constructor|].
  destruct (is_lower c || is_digit c) eqn:E.
  - simpl. constructor; [|apply IH]. apply orb_true_iff in E. tauto.
  - destruct in_run; [apply IH|]. simpl. constructor; [auto|apply IH].
Qed.

Lemma dash_is_not_alnum : is_lower "-" || is_digit "-" = false.
Proof. reflexivity. Qed.

(** A run of other characters leaves one dash. *)
Lemma replace_non_alnum_dashes in_run s :
  (in_run = true -> forall t, replace_non_alnum in_run s <> String "-" t) /\
  (forall pre post, replace_non_alnum in_run s <> pre +:+ "--" +:+ post).
Proof.
  revert in_run. induction s as [|c s IH]; intros in_run.
  - simpl. split; [discriminate|]. intros [|p pre] post; discriminate.
  - simpl. destruct (is_lower c || is_digit c) eqn:E.
    + split.
      * intros _ t [= -> _]. rewrite dash_is_not_alnum in E. discriminate.
      * intros [|p pre] post.
        -- intros [= -> _]. rewrite dash_is_not_alnum in E. discriminate.
        -- rewrite append_cons. intros [= _ H]. now apply (proj2 (IH false)) in H.
    + destruct in_run; [apply IH|]. split; [discriminate|].
      intros [|p pre] post.
      * intros [= H]. now apply (proj1 (IH true) eq_refl) in H.
      * rewrite append_cons. intros [= _ H]. now apply (proj2 (IH true)) in H.
Qed.

End TestFileFacts.

(** X1.  Whatever the name, [sanitizeFilename] returns at most a hundred
    characters, each a lower-case letter, a digit, a dash or a dot, or,
    when the separator is the underscore, an underscore: no slash, no
    white space, no upper-case letter.  The copies of the function in
    [tests/blueprint.spec.ts] and [playwright.config.ts] are the
    underscore and the dash variant of the one in [src/global-setup.ts]. *)
Theorem sanitizeFilename_alphabet :
  forall name isKebabCase,
    String.length (GlobalSetup.sanitizeFilename name isKebabCase) <= 100 /\
    Forall (fun c =>
              GlobalSetup.is_lower c = true \/ is_digit c = true \/
              c = "-"%char \/ c = "."%char \/
              (isKebabCase = false /\ c = "_"%char))
           (chars (GlobalSetup.sanitizeFilename name isKebabCase)) /\
    TestFile.sanitizeFilename name = GlobalSetup.sanitizeFilename name false /\
    PlaywrightConfig.sanitizeFilename name = GlobalSetup.sanitizeFilename name true.
Proof.
  intros name isKebabCase.
  split; [apply StringFacts.substring_prefix_length|].
  split; [apply StringFacts.sanitized_chars|split; reflexivity].
Qed.

(** X2.  With the dash as separator, sanitizing twice is sanitizing once:
    a task named after its own HTML file finds that very file.  (With the
    underscore it is not: the second pass drops the underscores.) *)
Theorem sanitizeFilename_kebab_idempotent :
  forall name EMAILS_DIR,
    GlobalSetup.sanitizeFilename (GlobalSetup.sanitizeFilename name true) true
      = GlobalSetup.sanitizeFilename name true /\
    GlobalSetup.EMAIL_HTML_FILE EMAILS_DIR (GlobalSetup.sanitizeFilename name true)
      = GlobalSetup.EMAIL_HTML_FILE EMAILS_DIR name /\
    GlobalSetup.sanitizeFilename (GlobalSetup.sanitizeFilename "a b" false) false
      <> GlobalSetup.sanitizeFilename "a b" false.
Proof.
  intros name EMAILS_DIR.
  assert (Hidem : GlobalSetup.sanitizeFilename (GlobalSetup.sanitizeFilename name true) true
                  = GlobalSetup.sanitizeFilename name true).
  { assert (Hc := StringFacts.sanitized_chars name true).
    assert (Hl := StringFacts.substring_prefix_length 100
                    (GlobalSetup.replace_spaces "-" false
                       (GlobalSetup.filter_string
                          (fun c => GlobalSetup.is_lower c || is_digit c
                                    || GlobalSetup.is_space c
                                    || (GlobalSetup.code c =? 45)
                                    || (GlobalSetup.code c =? 46))
                          (GlobalSetup.toLowerCase name)))).
    change (String.substring 0 100 _) with (GlobalSetup.sanitizeFilename name true) in Hl.
    set (s := GlobalSetup.sanitizeFilename name true) in *.
    assert (Hp : Forall (fun c =>
                GlobalSetup.lower c = c /\ GlobalSetup.is_space c = false /\
                (GlobalSetup.is_lower c || is_digit c || GlobalSetup.is_space c
                 || (GlobalSetup.code c =? 45) || (GlobalSetup.code c =? 46)) = true)
              (chars s)).
    { eapply List.Forall_impl; [|exact Hc]. intros c H. apply StringFacts.plain_char.
      destruct H as [?|[?|[?|[?|[? _]]]]]; auto; discriminate. }
    unfold GlobalSetup.sanitizeFilename at 1. unfold GlobalSetup.toLowerCase.
    rewrite StringFacts.map_string_fixed
      by (eapply List.Forall_impl; [|exact Hp]; simpl; tauto).
    rewrite StringFacts.filter_string_all
      by (eapply List.Forall_impl; [|exact Hp]; simpl; tauto).
    rewrite StringFacts.replace_spaces_none
      by (eapply List.Forall_impl; [|exact Hp]; simpl; tauto).
    now apply StringFacts.substring_prefix_all. }
  split; [exact Hidem|]. split.
  - unfold GlobalSetup.EMAIL_HTML_FILE. now rewrite Hidem.
  - vm_compute. discriminate.
Qed.

(** X3.  The screenshot a generated test compares against is named by
    lower-case letters, digits and single dashes, followed by [.png],
    whatever the client key. *)
Theorem screenshot_name_is_a_plain_file_name :
  forall client,
    exists stem,
      TestFile.screenshotName client = stem +:+ ".png" /\
      Forall (fun c => GlobalSetup.is_lower c = true \/ is_digit c = true \/ c = "-"%char)
             (chars stem) /\
      forall pre post, stem <> pre +:+ "--" +:+ post.
Proof.
  intros client. eexists. split; [reflexivity|]. split.
  - apply TestFileFacts.replace_non_alnum_chars.
  - apply TestFileFacts.replace_non_alnum_dashes.
Qed.

(** ** The Authorization header *)

Module BasicAuthFacts.
Import Gmail BasicAuth.

Lemma below_64 (P : N -> Prop) :
  Forall P (map N.of_nat (seq 0 64)) -> forall v, (v < 64)%N -> P v.
Proof.
  intros H v Hv. rewrite List.Forall_forall in H. apply H.
  apply in_map_iff. exists (N.to_nat v). split; [lia|]. apply in_seq. lia.
Qed.

Lemma sextets_base64_char v s :
  (v < 64)%N -> sextets (String (base64_char v) s) = v :: sextets s.
Proof.
  revert v. apply below_64.
  repeat (constructor; [reflexivity|]). constructor.
Qed.

Lemma sextets_padding s : sextets (String "=" s) = [].
Proof. reflexivity. Qed.

Lemma byte_of_ascii c n : (n mod 256 = N_of_ascii c)%N -> byte n = c.
Proof. unfold byte. intros ->. apply ascii_N_embedding. Qed.

Lemma group1 a :
  (a < 256 -> a / 4 < 64 /\ a mod 4 * 16 < 64 /\
   (a / 4 * 4 + a mod 4 * 16 / 16) mod 256 = a)%N.
Proof. intros H. zify. Z.to_euclidean_division_equations. lia. Qed.

Lemma group2 a b :
  (a < 256 -> b < 256 ->
   a mod 4 * 16 + b / 16 < 64 /\ b mod 16 * 4 < 64 /\
   (a / 4 * 4 + (a mod 4 * 16 + b / 16) / 16) mod 256 = a /\
   ((a mod 4 * 16 + b / 16) * 16 + b mod 16 * 4 / 4) mod 256 = b)%N.
Proof. intros Ha Hb. zify. Z.to_euclidean_division_equations. lia. Qed.

Lemma group3 b c :
  (b < 256 -> c < 256 ->
   b mod 16 * 4 + c / 64 < 64 /\ c mod 64 < 64 /\
   (forall x, ((x * 16 + b / 16) * 16 + (b mod 16 * 4 + c / 64) / 4) mod 256 = b) /\
   ((b mod 16 * 4 + c / 64) * 64 + c mod 64) mod 256 = c)%N.
Proof.
  intros Hb Hc. repeat split; try intros x; zify; Z.to_euclidean_division_equations; lia.
Qed.

(** Decoding undoes encoding, whatever the bytes. *)
Lemma base64_decodes bytes : base64_utf8 (base64 bytes) = bytes.
Proof.
  unfold base64_utf8.
  assert (H : forall n s, String.length s < n -> bytes_of_sextets (sextets (base64 s)) = s).
  { induction n as [|n IH]; intros s Hs; [lia|].
    destruct s as [|a [|b [|c rest]]].
    - reflexivity.
    - cbn [base64]. cbv zeta.
      destruct (group1 (N_of_ascii a) (N_ascii_bounded a)) as (H1 & H2 & H3).
      rewrite !sextets_base64_char by assumption.
      cbn [sextets Ascii.eqb Bool.eqb]. cbn [bytes_of_sextets].
      now rewrite (byte_of_ascii a).
    - cbn [base64]. cbv zeta.
      destruct (group1 (N_of_ascii a) (N_ascii_bounded a)) as (H1 & _ & _).
      destruct (group2 (N_of_ascii a) (N_of_ascii b) (N_ascii_bounded a)
                  (N_ascii_bounded b)) as (H2 & H3 & H4 & H5).
      rewrite !sextets_base64_char by assumption.
      cbn [sextets Ascii.eqb Bool.eqb]. cbn [bytes_of_sextets].
      now rewrite (byte_of_ascii a), (byte_of_ascii b).
    - cbn [base64]. cbv zeta.
      destruct (group1 (N_of_ascii a) (N_ascii_bounded a)) as (H1 & _ & _).
      destruct (group2 (N_of_ascii a) (N_of_ascii b) (N_ascii_bounded a)
                  (N_ascii_bounded b)) as (H2 & _ & H4 & _).
      destruct (group3 (N_of_ascii b) (N_of_ascii c) (N_ascii_bounded b)
                  (N_ascii_bounded c)) as (H5 & H6 & H7 & H8).
      rewrite !sextets_base64_char by assumption.
      cbn [bytes_of_sextets].
      rewrite (byte_of_ascii a), (byte_of_ascii b), (byte_of_ascii c); auto.
      do 3 f_equal. apply IH. simpl in Hs. lia. }
  apply (H (S (String.length bytes))). lia.
Qed.

End BasicAuthFacts.

(** X4.  The header built by [getBasicAuthHeader] is ["Basic "] followed
    by credentials that decode, with the base64 decoder, to the API key,
    a colon and the password, whatever bytes these hold. *)
Theorem basic_auth_header_decodes :
  forall apiKey accountPassword,
    exists credentials,
      BasicAuth.getBasicAuthHeader apiKey accountPassword = "Basic " +:+ credentials /\
      Gmail.base64_utf8 credentials = apiKey +:+ ":" +:+ accountPassword.
Proof.
  intros apiKey accountPassword.
  eexists. split; [reflexivity|]. apply BasicAuthFacts.base64_decodes.
Qed.

(** ** The Gmail extractor *)

Module WalkFacts.
Import Gmail GmailFacts.

Section Walk.
Variable decode : string -> string.

(** What the loop over the parts returns is never the empty string. *)
Lemma search_parts_nonempty ps : search_parts decode ps <> Some "".
Proof.
  induction ps as [|p ps IH]; simpl; [discriminate|].
  destruct (getHtmlFromPayload decode p) as [[|c h]|]; auto; discriminate.
Qed.

Lemma search_parts_found ps h :
  Forall (fun p => forall h, getHtmlFromPayload decode p = Some h ->
            exists q d, In q (preorder p) /\ html_data q = Some d /\ h = decode d) ps ->
  search_parts decode ps = Some h ->
  exists q d, In q (preorder_all ps) /\ html_data q = Some d /\ h = decode d.
Proof.
  induction 1 as [|p ps Hp _ IH]; simpl; [discriminate|].
  destruct (getHtmlFromPayload decode p) as [[|c h']|] eqn:E.
  - intros H. destruct (IH H) as (q & d & Hin & Hq & Hh).
    exists q, d. rewrite in_app_iff. auto.
  - intros [= <-]. destruct (Hp _ eq_refl) as (q & d & Hin & Hq & Hh).
    exists q, d. rewrite in_app_iff. auto.
  - intros H. destruct (IH H) as (q & d & Hin & Hq & Hh).
    exists q, d. rewrite in_app_iff. auto.
Qed.

Lemma getHtmlFromPayload_found p h :
  getHtmlFromPayload decode p = Some h ->
  exists q d, In q (preorder p) /\ html_data q = Some d /\ h = decode d.
Proof.
  revert h. induction p as [m b ps IH] using MessagePart_tree_ind. intros h.
  rewrite getHtmlFromPayload_unfold, preorder_unfold.
  destruct (html_data (mkPart m b ps)) as [d|] eqn:E.
  - intros [= <-]. exists (mkPart m b ps), d. simpl. auto.
  - intros H. destruct (search_parts_found _ _ IH H) as (q & d & Hin & Hq & Hh).
    exists q, d. simpl. auto.
Qed.

End Walk.

End WalkFacts.

Module ExtractorFacts.
Import Gmail Extractor.

Section Run.
Variable decode : string -> string.
Variable Date_parse : string -> option Z.
Variable messages_get : string -> option (option Payload).
Variable Date_now : Z.




End Run.

End ExtractorFacts.

(** X5.  Whatever [getHtmlFromPayload] returns is the decoded body of a
    ['text/html'] part of the tree that has data; it returns null when
    the tree has no such part; and it returns the empty string only for
    a root that is itself such a part with data decoding to nothing. *)
Theorem html_is_the_body_of_an_html_part :
  forall decode payload,
  (forall h,
      Gmail.getHtmlFromPayload decode payload = Some h ->
      exists q d,
        In q (Gmail.preorder payload) /\ Gmail.html_data q = Some d /\ h = decode d) /\
  ((forall q, In q (Gmail.preorder payload) -> Gmail.html_data q = None) ->
   Gmail.getHtmlFromPayload decode payload = None) /\
  (Gmail.getHtmlFromPayload decode payload = Some "" ->
   exists d, Gmail.html_data payload = Some d /\ decode d = "").
Proof.
  intros decode payload. split; [|split].
  - intros h. apply WalkFacts.getHtmlFromPayload_found.
  - intros Hnone. destruct (Gmail.getHtmlFromPayload decode payload) as [h|] eqn:E; auto.
    destruct (WalkFacts.getHtmlFromPayload_found _ _ _ E) as (q & d & Hin & Hq & _).
    rewrite (Hnone q Hin) in Hq. discriminate.
  - rewrite GmailFacts.getHtmlFromPayload_unfold.
    destruct (Gmail.html_data payload) as [d|].
    + intros [= H]. eauto.
    + intros H. now apply WalkFacts.search_parts_nonempty in H.
Qed.

(** The body of the second HTML part is returned; the first decodes to
    nothing. *)
Lemma html_is_the_body_of_an_html_part_witness :
  Gmail.getHtmlFromPayload Gmail.base64_utf8 Scenarios.empty_html_first = Some "<b>" /\
  exists q d,
    In q (Gmail.preorder Scenarios.empty_html_first) /\
    Gmail.html_data q = Some d /\ "<b>" = Gmail.base64_utf8 d.
Proof.
  split; [reflexivity|].
  exact (proj1 (html_is_the_body_of_an_html_part Gmail.base64_utf8
                  Scenarios.empty_html_first) "<b>" eq_refl).
Defined.



(** ** More on the preview-URL polling loop *)

Module PreviewUrlsFacts.
Import JsFacts EmailOnAcid EmailOnAcidFacts.





Section Call.
Variable service : nat -> FetchOutcome.
Variable emailClients : list string.

(** What an iteration that ends the loop hands back. *)
Lemma getPreviewUrls_last test_id out tr a data :
  getPreviewUrls service emailClients test_id = (out, tr) ->
  In (EvFetch a) tr ->
  service a = FetchOk data ->
  Forall (terminal_in (default [] data))
         (clientsToMonitor emailClients (default [] data)) ->
  out = Returned (urls_after service emailClients (S a)).
Proof.
  intros Hrun Hin Hsvc Hall.
  destruct (getPreviewUrls_at _ _ _ _ _ _ Hrun Hin)
    as (r' & before & outro & _ & Hout & _).
  assert (attempt_body service emailClients a (urls_after service emailClients a) =
          (Break, snd (attempt_body service emailClients a
                         (urls_after service emailClients a)))) as E
    by (apply attempt_body_break; eauto).
  rewrite poll_step, E in Hout. exact Hout.
Qed.

(** The ways the call can fail. *)
Lemma getPreviewUrls_thrown test_id e tr :
  getPreviewUrls service emailClients test_id = (Thrown e, tr) ->
  (e = TestIdRequired /\ truthy test_id = false /\ tr = []) \/
  (e = Rethrown (ResponseError 401) /\ truthy test_id = true /\
   exists a, a < MAX_POLLING_ATTEMPTS /\ In (EvFetch a) tr /\
             service a = FetchFailed (ResponseError 401)).
Proof.
  intros Hrun. destruct (truthy test_id) eqn:Ht.
  - right.
    destruct (getPreviewUrls_run service emailClients test_id Ht)
      as (intro & outro & Hi & Ho & Heq & _).
    rewrite Heq in Hrun.
    assert (Hout : fst (poll service emailClients MAX_POLLING_ATTEMPTS 0 []) = Thrown e)
      by exact (f_equal fst Hrun).
    assert (Htr : intro ++ snd (poll service emailClients MAX_POLLING_ATTEMPTS 0 [])
                    ++ outro = tr)
      by exact (f_equal snd Hrun).
    clear Hrun Heq. subst tr.
    destruct (poll_timeline service emailClients MAX_POLLING_ATTEMPTS 0 [])
      as (n & Hn & _ & Hs); [reflexivity|].
    assert (Hf : fetches (snd (poll service emailClients MAX_POLLING_ATTEMPTS 0 []))
                 = seq 0 n)
      by now rewrite <- fetches_timeline, Hs, fetches_schedule.
    pose proof (poll_outcome service emailClients MAX_POLLING_ATTEMPTS 0) as Hpo.
    cbv zeta in Hpo.
    change (urls_after service emailClients 0) with (@nil (string * string)) in Hpo.
    rewrite Hf, length_seq, Hout in Hpo.
    destruct Hpo as [[=]|([= ->] & m & -> & Hsvc)].
    split; [reflexivity|]. split; [reflexivity|].
    exists m. split; [lia|]. split; [|exact Hsvc].
    rewrite !in_app_iff. right. left. apply In_fetches. rewrite Hf. apply in_seq. lia.
  - left. rewrite getPreviewUrls_no_test_id in Hrun by assumption.
    injection Hrun as <- <-. auto.
Qed.

End Call.

End PreviewUrlsFacts.

(** X7.  [getPreviewUrls] can fail in two ways only: at once and without
    any request, when the test id is missing; or with the error of a
    request that was refused with status 401.  Given a test id, it
    returns whenever no attempt is refused with 401. *)
Theorem preview_urls_failure_modes :
  forall service emailClients test_id out tr,
    EmailOnAcid.getPreviewUrls service emailClients test_id = (out, tr) ->
    (forall e,
        out = EmailOnAcid.Thrown e ->
        (e = EmailOnAcid.TestIdRequired /\ truthy test_id = false /\ tr = []) \/
        (e = EmailOnAcid.Rethrown (ResponseError 401) /\ truthy test_id = true /\
         exists a, a < EmailOnAcid.MAX_POLLING_ATTEMPTS /\ In (EvFetch a) tr /\
                   service a = EmailOnAcid.FetchFailed (ResponseError 401))) /\
    (truthy test_id = true ->
     (forall a, a < EmailOnAcid.MAX_POLLING_ATTEMPTS ->
                service a <> EmailOnAcid.FetchFailed (ResponseError 401)) ->
     exists urls, out = EmailOnAcid.Returned urls).
Proof.
  intros service emailClients test_id out tr Hrun. split.
  - intros e ->. now apply PreviewUrlsFacts.getPreviewUrls_thrown with emailClients.
  - intros Ht Hno. destruct out as [urls|e]; [eauto|].
    apply PreviewUrlsFacts.getPreviewUrls_thrown in Hrun
      as [(_ & Hf & _)|(_ & _ & a & Ha & _ & Hsvc)].
    + congruence.
    + now apply Hno in Hsvc.
Qed.

(** Authentication fails on the second attempt. *)
Lemma preview_urls_failure_modes_witness :
  (forall e,
      fst (EmailOnAcid.getPreviewUrls Scenarios.auth_fails_second ["a"] (JStr "t"))
        = EmailOnAcid.Thrown e ->
      (e = EmailOnAcid.TestIdRequired /\ truthy (JStr "t") = false /\
       snd (EmailOnAcid.getPreviewUrls Scenarios.auth_fails_second ["a"] (JStr "t")) = [])
      \/
      (e = EmailOnAcid.Rethrown (ResponseError 401) /\ truthy (JStr "t") = true /\
       exists a, a < EmailOnAcid.MAX_POLLING_ATTEMPTS /\
         In (EvFetch a)
            (snd (EmailOnAcid.getPreviewUrls Scenarios.auth_fails_second ["a"] (JStr "t"))) /\
         Scenarios.auth_fails_second a = EmailOnAcid.FetchFailed (ResponseError 401))) /\
  fst (EmailOnAcid.getPreviewUrls Scenarios.auth_fails_second ["a"] (JStr "t"))
    = EmailOnAcid.Thrown (EmailOnAcid.Rethrown (ResponseError 401)).
Proof.
  split; [|vm_compute; reflexivity].
  refine (proj1 (preview_urls_failure_modes Scenarios.auth_fails_second ["a"] (JStr "t")
                   _ _ _)).
  apply surjective_pairing.
Defined.

(** X8.  Called without a client list, [getPreviewUrls] stops on a
    response that shows no client at all: that attempt is the last, and
    the call returns the mapping as the attempts before it left it (the
    empty mapping if it was the first). *)
Theorem empty_response_ends_unfiltered_polling :
  forall service test_id out tr a data,
    EmailOnAcid.getPreviewUrls service [] test_id = (out, tr) ->
    In (EvFetch a) tr ->
    service a = EmailOnAcid.FetchOk data ->
    Object_keys (default [] data) = [] ->
    out = EmailOnAcid.Returned (EmailOnAcid.urls_after service [] a) /\
    (forall b, In (EvFetch b) tr -> b <= a).
Proof.
  intros service test_id out tr a data Hrun Hin Hsvc Hkeys.
  assert (Hall : Forall (EmailOnAcid.terminal_in (default [] data))
                   (EmailOnAcid.clientsToMonitor [] (default [] data))).
  { unfold EmailOnAcid.clientsToMonitor. simpl. rewrite Hkeys. constructor. }
  split.
  - rewrite (PreviewUrlsFacts.getPreviewUrls_last _ _ _ _ _ _ _ Hrun Hin Hsvc Hall). f_equal.
    simpl. unfold EmailOnAcid.attempt_body. rewrite Hsvc.
    destruct (EmailOnAcidFacts.on_response_urls [] data
                (EmailOnAcid.mkScan (EmailOnAcid.urls_after service [] a) true
                   [EvLog LLog (EmailOnAcid.MAttempt a); EvFetch a]))
      as (s1 & Hs1 & ->).
    unfold EmailOnAcid.clientsToMonitor. simpl. rewrite Hkeys. exact Hs1.
  - now destruct (EmailOnAcidFacts.getPreviewUrls_stops _ _ _ _ _ _ _ Hrun Hin Hsvc Hall)
      as (_ & H & _).
Qed.

(** The first response is empty: one attempt, an empty mapping. *)
Lemma empty_response_ends_unfiltered_polling_witness :
  fst (EmailOnAcid.getPreviewUrls Scenarios.nothing_yet [] (JStr "t"))
    = EmailOnAcid.Returned (EmailOnAcid.urls_after Scenarios.nothing_yet [] 0) /\
  (forall b,
      In (EvFetch b) (snd (EmailOnAcid.getPreviewUrls Scenarios.nothing_yet [] (JStr "t"))) ->
      b <= 0).
Proof.
  apply (empty_response_ends_unfiltered_polling Scenarios.nothing_yet (JStr "t") _ _ 0 (Some [])).
  - apply surjective_pairing.
  - vm_compute. tauto.
  - reflexivity.
  - reflexivity.
Defined.



(** ** More on the setup script *)

Module SetupFacts.
Import GlobalSetup GlobalSetupFacts StringFacts.

Lemma dirs_grow_once (A B : gset string) p q :
  A ⊆ B -> B ⊆ {[p]} ∪ A -> A ⊆ B /\ B ⊆ {[p; q]} ∪ A.
Proof.
  intros H1 H2. split; [exact H1|]. intros x Hx. apply H2 in Hx. set_unfold. tauto.
Qed.

Lemma dirs_grow_twice (A B C : gset string) p q :
  A ⊆ B -> B ⊆ {[p]} ∪ A -> B ⊆ C -> C ⊆ {[q]} ∪ B -> A ⊆ C /\ C ⊆ {[p; q]} ∪ A.
Proof.
  intros H1 H2 H3 H4. split; [now transitivity B|].
  intros x Hx. apply H4 in Hx. set_unfold. destruct Hx as [->|Hx]; [tauto|].
  apply H2 in Hx. set_unfold. tauto.
Qed.

Section Setup.
Variables TEMP_DIR EMAILS_DIR DEFAULT_CLIENTS_FILE : string.
Variable JSON_parse : string -> option Json.
Variable writable : string -> bool.
Variable create_test : string -> string -> list Json -> option Json.
Variable service : nat -> EmailOnAcid.FetchOutcome.

Lemma archive_manifest_differ taskName now taskName' :
  archiveFilePath TEMP_DIR taskName now <> GENERATED_URLS_FILE TEMP_DIR taskName'.
Proof.
  unfold archiveFilePath, GENERATED_URLS_FILE, ARCHIVE_DIR, resolve.
  rewrite !append_assoc. intros H. apply append_cancel in H. discriminate.
Qed.

Lemma ensure_dir_effect fs p fs' :
  ensure_dir writable fs p = Some fs' ->
  files fs' = files fs /\ dirs fs ⊆ dirs fs' /\ dirs fs' ⊆ {[p]} ∪ dirs fs.
Proof.
  unfold ensure_dir, mkdirSync. destruct (existsSync fs p).
  - intros [= <-]. split; [reflexivity|]. split; [reflexivity|apply union_subseteq_r].
  - destruct (writable p); [|discriminate]. intros [= <-]. simpl.
    split; [reflexivity|]. split; [apply union_subseteq_r|reflexivity].
Qed.

Lemma writeFileSync_effect fs p content fs' :
  writeFileSync writable fs p content = Some fs' ->
  dirs fs' = dirs fs /\ forall q, q <> p -> files fs' !! q = files fs !! q.
Proof.
  unfold writeFileSync. destruct (_ && _); [|discriminate]. intros [= <-]. simpl.
  split; [reflexivity|]. intros q Hq. now apply lookup_insert_ne.
Qed.

Lemma generate_effect previewService taskName now html clients fs b fs' out :
  generate TEMP_DIR writable previewService taskName now html clients fs = (b, fs', out) ->
  dirs fs' = dirs fs /\
  forall q, q <> GENERATED_URLS_FILE TEMP_DIR taskName ->
            q <> archiveFilePath TEMP_DIR taskName now ->
            files fs' !! q = files fs !! q.
Proof.
  unfold generate.
  destruct (injectHtml _ _ _ _) as [resp|]; [|intros [= _ <- _]; auto].
  destruct (getPreviewUrls _ _ _) as [urls|]; [|intros [= _ <- _]; auto].
  destruct (writeFileSync writable fs _ _) as [fs1|] eqn:E1; [|intros [= _ <- _]; auto].
  apply writeFileSync_effect in E1 as [Hd1 Hf1].
  destruct (writeFileSync writable fs1 _ _) as [fs2|] eqn:E2.
  - apply writeFileSync_effect in E2 as [Hd2 Hf2]. intros [= _ <- _].
    split; [congruence|]. intros q Hm Ha. rewrite Hf2, Hf1; auto.
  - intros [= _ <- _]. split; [assumption|]. intros q Hm _. auto.
Qed.

Lemma nonempty_Some s t : nonempty s = Some t -> s = Some t /\ t <> "".
Proof. destruct s as [[|c r]|]; try discriminate. intros [= <-]. split; [reflexivity|discriminate]. Qed.

Lemma toLowerCase_empty s : toLowerCase s <> "" -> s <> "".
Proof. intros H ->. now apply H. Qed.

(** The run, stage by stage: what was checked before each change to the
    file system, and where the run can have stopped. *)
Lemma globalSetup_stages env now fs :
  let run := globalSetup TEMP_DIR EMAILS_DIR DEFAULT_CLIENTS_FILE JSON_parse writable
               create_test service env now fs in
  (snd (fst run) = fs /\ fst (fst run) <> Finished) \/
  exists taskName clients serviceName apiKey accountPassword fs1,
    nonempty (env !! "TASK_NAME") = Some taskName /\
    existsSync fs (EMAIL_HTML_FILE EMAILS_DIR taskName) = true /\
    existsSync fs DEFAULT_CLIENTS_FILE = true /\
    load_clients DEFAULT_CLIENTS_FILE JSON_parse fs = Some clients /\
    env !! "EMAIL_PREVIEW_SERVICE" = Some serviceName /\ serviceName <> "" /\
    nonempty (env !! (toUpperCase (toLowerCase serviceName) +:+ "_API_KEY"))
      = Some apiKey /\
    nonempty (env !! "EMAILONACID_ACCOUNT_PASSWORD") = Some accountPassword /\
    ensure_dir writable fs TEMP_DIR = Some fs1 /\
    ((snd (fst run) = fs1 /\ fst (fst run) <> Finished) \/
     exists fs2,
       ensure_dir writable fs1 (ARCHIVE_DIR TEMP_DIR) = Some fs2 /\
       ((snd (fst run) = fs2 /\ fst (fst run) <> Finished) \/
        exists previewService html b out,
          readFileSync fs2 (EMAIL_HTML_FILE EMAILS_DIR taskName) = Some html /\
          getEmailPreviewService create_test service (toLowerCase serviceName) apiKey
            (Some accountPassword) = inr previewService /\
          generate TEMP_DIR writable previewService taskName now html clients fs2
            = (b, snd (fst run), out) /\
          fst (fst run) = if b then Finished else Failed PreviewGenerationFailed)).
Proof.
  cbv zeta. unfold globalSetup.
  destruct (nonempty (env !! "TASK_NAME")) as [taskName|] eqn:Etask;
    [|left; split; [reflexivity|discriminate]].
  destruct (existsSync fs (EMAIL_HTML_FILE EMAILS_DIR taskName)) eqn:Ehtml;
    [|left; split; [reflexivity|discriminate]].
  destruct (existsSync fs DEFAULT_CLIENTS_FILE) eqn:Eclients;
    [|left; split; [reflexivity|discriminate]].
  cbn [negb].
  destruct (load_clients _ _ _) as [clients|] eqn:Eload;
    [|left; split; [reflexivity|discriminate]].
  destruct (env !! "EMAIL_PREVIEW_SERVICE") as [serviceName|] eqn:Esvc;
    [|left; split; [reflexivity|discriminate]].
  cbn [fmap option_fmap option_map default].
  destruct (nonempty (Some (toLowerCase serviceName))) as [serviceToUse|] eqn:Euse;
    [|left; split; [reflexivity|discriminate]].
  apply nonempty_Some in Euse as [[= <-] Hne]. apply toLowerCase_empty in Hne.
  destruct (nonempty (env !! (_ +:+ "_API_KEY"))) as [apiKey|] eqn:Ekey;
    [|left; split; [reflexivity|discriminate]].
  destruct (nonempty (env !! "EMAILONACID_ACCOUNT_PASSWORD")) as [pw|] eqn:Epw;
    [|left; split; [reflexivity|discriminate]].
  destruct (ensure_dir writable fs TEMP_DIR) as [fs1|] eqn:E1;
    [|left; split; [reflexivity|discriminate]].
  right. exists taskName, clients, serviceName, apiKey, pw, fs1.
  do 9 (split; [assumption || reflexivity|]).
  destruct (ensure_dir writable fs1 _) as [fs2|] eqn:E2;
    [|left; split; [reflexivity|discriminate]].
  right. exists fs2. split; [reflexivity|].
  destruct (readFileSync fs2 _) as [html|] eqn:Eread;
    [|left; split; [reflexivity|discriminate]].
  destruct (getEmailPreviewService _ _ _ _ _) as [e|previewService] eqn:Eservice;
    [left; split; [reflexivity|discriminate]|].
  right. exists previewService, html.
  destruct (generate _ _ _ _ _ _ _ _) as [[b fs3] out] eqn:Egen.
  exists b, out. do 2 (split; [reflexivity|]). destruct b; simpl; auto.
Qed.

(** The service object. *)
Lemma service_injectHtml apiKey accountPassword previewService html subject clients resp :
  EmailOnAcidService create_test service apiKey accountPassword = inr previewService ->
  injectHtml previewService html subject clients = Some resp ->
  exists data,
    create_test html subject clients = Some data /\
    truthy (js_get data "id") = true /\
    resp = JObj [("test_id", js_get data "id")].
Proof.
  unfold EmailOnAcidService. destruct (_ || _); [discriminate|]. intros [= <-]. simpl.
  destruct (create_test html subject clients) as [data|]; [|discriminate].
  destruct (truthy data); simpl; [|discriminate].
  destruct (truthy (js_get data "id")) eqn:E; simpl; [|discriminate].
  intros [= <-]. eauto.
Qed.

Lemma service_getPreviewUrls apiKey accountPassword previewService resp emailClients :
  EmailOnAcidService create_test service apiKey accountPassword = inr previewService ->
  getPreviewUrls previewService resp emailClients =
  match fst (EmailOnAcid.getPreviewUrls service (map to_string emailClients)
               (js_get resp "test_id")) with
  | EmailOnAcid.Returned urls => Some urls
  | EmailOnAcid.Thrown _ => None
  end.
Proof.
  unfold EmailOnAcidService. destruct (_ || _); [discriminate|]. now intros [= <-].
Qed.

Lemma getEmailPreviewService_inr serviceName apiKey accountPassword previewService :
  getEmailPreviewService create_test service serviceName apiKey accountPassword
    = inr previewService ->
  toLowerCase serviceName = "emailonacid" /\
  exists pw, nonempty accountPassword = Some pw /\
    EmailOnAcidService create_test service apiKey pw = inr previewService.
Proof.
  unfold getEmailPreviewService.
  destruct (String.eqb_spec (toLowerCase serviceName) "emailonacid") as [E|]; [|discriminate].
  destruct (nonempty accountPassword) as [pw|]; [|discriminate]. eauto.
Qed.

(** A run that reaches its end: the test was created from the HTML file
    and the client list, the polling returned, and the manifest and the
    archive hold what it returned. *)
Lemma globalSetup_end_to_end env now fs fs' out :
  globalSetup TEMP_DIR EMAILS_DIR DEFAULT_CLIENTS_FILE JSON_parse writable
    create_test service env now fs = (Finished, fs', out) ->
  exists taskName serviceName apiKey html clients data urls tr,
    nonempty (env !! "TASK_NAME") = Some taskName /\
    env !! "EMAIL_PREVIEW_SERVICE" = Some serviceName /\
    toLowerCase serviceName = "emailonacid" /\
    nonempty (env !! "EMAILONACID_API_KEY") = Some apiKey /\
    files fs !! EMAIL_HTML_FILE EMAILS_DIR taskName = Some html /\
    load_clients DEFAULT_CLIENTS_FILE JSON_parse fs = Some clients /\
    create_test html (taskName +:+ " - EOA Preview - " +:+ toLocaleString now) clients
      = Some data /\
    EmailOnAcid.getPreviewUrls service (map to_string clients) (js_get data "id")
      = (EmailOnAcid.Returned urls, tr) /\
    files fs' !! GENERATED_URLS_FILE TEMP_DIR taskName
      = Some (JSON_stringify (generatedPreviews urls)) /\
    files fs' !! archiveFilePath TEMP_DIR taskName now
      = Some (JSON_stringify (generatedPreviews urls)).
Proof.
  intros Hrun. pose proof (globalSetup_stages env now fs) as H. cbv zeta in H.
  rewrite Hrun in H. cbn [fst snd] in H.
  destruct H as [[_ H]|H]; [now destruct H|].
  destruct H as (taskName & clients & serviceName & apiKey & pw & fs1 & Htask & _ & _
                 & Hload & Hsvc & _ & Hkey & _ & E1 & [[_ H]|H]); [now destruct H|].
  destruct H as (fs2 & E2 & [[_ H]|H]); [now destruct H|].
  destruct H as (previewService & html & b & o & Hread & Hservice & Hgen & Hb).
  destruct b; [|discriminate].
  apply getEmailPreviewService_inr in Hservice as (Hname & pw' & _ & Hservice).
  rewrite toLowerCase_idempotent in Hname.
  rewrite Hname in Hkey. change (toUpperCase "emailonacid" +:+ "_API_KEY")
    with "EMAILONACID_API_KEY" in Hkey.
  apply ensure_dir_effect in E1 as (Hf1 & _), E2 as (Hf2 & _).
  unfold readFileSync in Hread. rewrite Hf2, Hf1 in Hread.
  revert Hgen. unfold generate.
  destruct (injectHtml _ _ _ _) as [resp|] eqn:Einj; [|discriminate].
  destruct (service_injectHtml _ _ _ _ _ _ _ Hservice Einj) as (data & Hcreate & _ & ->).
  rewrite (service_getPreviewUrls _ _ _ _ _ Hservice).
  change (js_get (JObj [("test_id", js_get data "id")]) "test_id")
    with (js_get data "id").
  destruct (EmailOnAcid.getPreviewUrls service (map to_string clients) (js_get data "id"))
    as [[urls|e] tr] eqn:Epoll; cbn [fst]; [|discriminate].
  destruct (writeFileSync writable fs2 _ _) as [fs3|] eqn:Ew1; [|discriminate].
  destruct (writeFileSync writable fs3 _ _) as [fs4|] eqn:Ew2; [|discriminate].
  intros [= <- _].
  exists taskName, serviceName, apiKey, html, clients, data, urls, tr.
  do 8 (split; [assumption || reflexivity|]).
  apply writeFileSync_files in Ew1, Ew2. rewrite Ew2, Ew1. split.
  - destruct (decide (archiveFilePath TEMP_DIR taskName now
                      = GENERATED_URLS_FILE TEMP_DIR taskName)) as [->|Hne].
    + apply lookup_insert_eq.
    + rewrite lookup_insert_ne by assumption. apply lookup_insert_eq.
  - apply lookup_insert_eq.
Qed.

End Setup.

End SetupFacts.

Module TimestampFacts.
Import GlobalSetup Clock StringFacts.

Lemma pretty_N_go_digits x s :
  Forall (fun c => is_digit c = true) (chars s) ->
  Forall (fun c => is_digit c = true) (chars (pretty_N_go x s)).
Proof.
  revert s. induction (N.lt_wf_0 x) as [x _ IH]; intros s Hs.
  assert (x = 0 \/ 0 < x)%N as [->|Hx] by lia.
  - now rewrite pretty_N_go_0.
  - rewrite pretty_N_go_step by assumption. apply IH.
    + now apply N.div_lt.
    + simpl. constructor; [|assumption].
      unfold pretty_N_char. repeat case_match; reflexivity.
Qed.

Lemma pretty_nat_digits (n : nat) : Forall (fun c => is_digit c = true) (chars (pretty n)).
Proof.
  unfold pretty, pretty_nat, pretty, pretty_N.
  destruct (decide (N.of_nat n = 0%N)); [repeat constructor|].
  apply pretty_N_go_digits. constructor.
Qed.

(** Two digit strings followed by the same character that is not a
    digit. *)
Lemma split_at_separator s1 s2 sep t1 t2 :
  Forall (fun c => is_digit c = true) (chars s1) ->
  Forall (fun c => is_digit c = true) (chars s2) ->
  is_digit sep = false ->
  s1 +:+ String sep t1 = s2 +:+ String sep t2 ->
  s1 = s2 /\ t1 = t2.
Proof.
  intros H1 H2 Hsep. revert s2 H2.
  induction s1 as [|c1 s1 IH]; intros [|c2 s2] H2.
  - intros [= ->]. auto.
  - rewrite append_cons. intros [= <- _]. inversion H2; congruence.
  - rewrite append_cons. intros [= -> _]. inversion H1; congruence.
  - rewrite !append_cons. intros [= -> H]. inversion H1; inversion H2; subst.
    destruct (IH ltac:(assumption) s2 ltac:(assumption) H) as [-> ->]. auto.
Qed.

Lemma padStart_reads_back width bound n :
  reads_back width bound = true -> n < bound ->
  digits_value (padStart width n) 0 = Some (N.of_nat n).
Proof.
  unfold reads_back. rewrite forallb_forall. intros H Hn.
  specialize (H n ltac:(apply in_seq; lia)).
  destruct (digits_value _ _) as [v|]; [|discriminate].
  now apply N.eqb_eq in H as ->.
Qed.

Lemma digits_value_digits s acc v :
  digits_value s acc = Some v -> Forall (fun c => is_digit c = true) (chars s).
Proof.
  revert acc. induction s as [|c s IH]; intros acc; simpl; [constructor|].
  destruct (is_digit c) eqn:E; [|discriminate]. intros H. constructor; eauto.
Qed.

Lemma padStart_inj width bound n m :
  reads_back width bound = true -> n < bound -> m < bound ->
  padStart width n = padStart width m -> n = m.
Proof.
  intros H Hn Hm Heq.
  pose proof (padStart_reads_back _ _ _ H Hn) as H1.
  pose proof (padStart_reads_back _ _ _ H Hm) as H2.
  rewrite Heq, H2 in H1. injection H1. lia.
Qed.

Lemma padStart_digits width bound n :
  reads_back width bound = true -> n < bound ->
  Forall (fun c => is_digit c = true) (chars (padStart width n)).
Proof.
  intros H Hn. eapply digits_value_digits, padStart_reads_back; eauto.
Qed.

Lemma two_digits : reads_back 2 100 = true.
Proof. vm_compute. reflexivity. Qed.

Lemma three_digits : reads_back 3 1000 = true.
Proof. vm_compute. reflexivity. Qed.

Lemma verboseTimestamp_unfold d :
  verboseTimestamp d =
  pretty (getUTCFullYear d) +:+ String "-" (
  padStart 2 (getUTCMonth d + 1) +:+ String "-" (
  padStart 2 (getUTCDate d) +:+ String "-" (
  padStart 2 (getUTCHours d) +:+ String "-" (
  padStart 2 (getUTCMinutes d) +:+ String "-" (
  padStart 2 (getUTCSeconds d) +:+ String "-" (
  padStart 3 (getUTCMilliseconds d))))))).
Proof. reflexivity. Qed.

Lemma verboseTimestamp_inj d1 d2 suffix :
  utc_in_range d1 -> utc_in_range d2 ->
  verboseTimestamp d1 +:+ String "." suffix = verboseTimestamp d2 +:+ String "." suffix ->
  getUTCFullYear d1 = getUTCFullYear d2 /\ getUTCMonth d1 = getUTCMonth d2 /\
  getUTCDate d1 = getUTCDate d2 /\ getUTCHours d1 = getUTCHours d2 /\
  getUTCMinutes d1 = getUTCMinutes d2 /\ getUTCSeconds d1 = getUTCSeconds d2 /\
  getUTCMilliseconds d1 = getUTCMilliseconds d2.
Proof.
  intros (M1 & D1 & h1 & m1 & s1 & ms1) (M2 & D2 & h2 & m2 & s2 & ms2).
  rewrite !verboseTimestamp_unfold, !append_separator.
  intros H.
  apply split_at_separator in H as [Hy H];
    [|apply pretty_nat_digits..|reflexivity].
  do 5 (apply split_at_separator in H as [? H];
        [|apply (padStart_digits 2 100 _ two_digits); lia..|reflexivity]).
  apply split_at_separator in H as [? _];
    [|apply (padStart_digits 3 1000 _ three_digits); lia..|reflexivity].
  repeat match goal with
         | H : padStart 2 _ = padStart 2 _ |- _ =>
             apply (padStart_inj 2 100 _ _ two_digits) in H; [|lia..]
         | H : padStart 3 _ = padStart 3 _ |- _ =>
             apply (padStart_inj 3 1000 _ _ three_digits) in H; [|lia..]
         end.
  apply pretty_nat_inj in Hy. repeat split; lia.
Qed.

End TimestampFacts.

(** X10.  The object [injectHtml] resolves to carries a test id that
    [getPreviewUrls] accepts: chained as in the setup script, the second
    call fails only when a polling attempt is refused with status 401,
    and returns when none is. *)
Theorem chained_calls_fail_only_on_authentication :
  forall create_test service apiKey accountPassword previewService
         html subject clients injectionResponse emailClients,
    GlobalSetup.EmailOnAcidService create_test service apiKey accountPassword
      = inr previewService ->
    GlobalSetup.injectHtml previewService html subject clients = Some injectionResponse ->
    truthy (js_get injectionResponse "test_id") = true /\
    (GlobalSetup.getPreviewUrls previewService injectionResponse emailClients = None ->
     exists a, a < EmailOnAcid.MAX_POLLING_ATTEMPTS /\
               service a = EmailOnAcid.FetchFailed (ResponseError 401)) /\
    ((forall a, a < EmailOnAcid.MAX_POLLING_ATTEMPTS ->
                service a <> EmailOnAcid.FetchFailed (ResponseError 401)) ->
     is_Some (GlobalSetup.getPreviewUrls previewService injectionResponse emailClients)).
Proof.
  intros until emailClients. intros Hservice Hinject.
  destruct (SetupFacts.service_injectHtml _ _ _ _ _ _ _ _ _ Hservice Hinject)
    as (data & _ & Hid & ->).
  change (js_get (JObj [("test_id", js_get data "id")]) "test_id") with (js_get data "id").
  split; [exact Hid|].
  rewrite (SetupFacts.service_getPreviewUrls _ _ _ _ _ _ _ Hservice).
  change (js_get (JObj [("test_id", js_get data "id")]) "test_id") with (js_get data "id").
  destruct (EmailOnAcid.getPreviewUrls service (map GlobalSetup.to_string emailClients)
              (js_get data "id")) as [[urls|e] tr] eqn:E; cbn [fst].
  - split; [discriminate|eauto].
  - apply PreviewUrlsFacts.getPreviewUrls_thrown in E
      as [(_ & Hf & _)|(_ & _ & a & Ha & _ & Hsvc)]; [congruence|].
    split; [eauto|]. intros Hno. now apply Hno in Hsvc.
Qed.

(** Authentication fails on the second polling attempt. *)
Lemma chained_calls_fail_only_on_authentication_witness :
  exists a, a < EmailOnAcid.MAX_POLLING_ATTEMPTS /\
            Scenarios.auth_fails_second a = EmailOnAcid.FetchFailed (ResponseError 401).
Proof.
  destruct (chained_calls_fail_only_on_authentication
              (fun _ _ _ => Some (JObj [("id", JStr "t1")])) Scenarios.auth_fails_second
              "key" "password" _ "<html></html>" "subject" [JStr "a"] _ [JStr "a"]
              eq_refl eq_refl) as (_ & H & _).
  apply H. vm_compute. reflexivity.
Defined.

(** X11.  A run of [globalSetup] that reaches its end was configured for
    Email on Acid, in any spelling of the name, with the API key under
    [EMAILONACID_API_KEY]; it created the test from the bytes of the
    task's HTML file, the subject made of the task name and the local
    time, and the ids of the clients file; it polled for those clients
    with the id the service gave back; and the manifest and the archive
    hold the previews of exactly the mapping the polling returned. *)
Theorem setup_lists_what_polling_returned :
  forall TEMP_DIR EMAILS_DIR DEFAULT_CLIENTS_FILE JSON_parse writable create_test
         service env now fs fs' out,
    GlobalSetup.globalSetup TEMP_DIR EMAILS_DIR DEFAULT_CLIENTS_FILE JSON_parse
      writable create_test service env now fs = (GlobalSetup.Finished, fs', out) ->
    exists taskName serviceName apiKey html clients data urls tr,
      GlobalSetup.nonempty (env !! "TASK_NAME") = Some taskName /\
      env !! "EMAIL_PREVIEW_SERVICE" = Some serviceName /\
      GlobalSetup.toLowerCase serviceName = "emailonacid" /\
      GlobalSetup.nonempty (env !! "EMAILONACID_API_KEY") = Some apiKey /\
      GlobalSetup.files fs !! GlobalSetup.EMAIL_HTML_FILE EMAILS_DIR taskName = Some html /\
      GlobalSetup.load_clients DEFAULT_CLIENTS_FILE JSON_parse fs = Some clients /\
      create_test html
        (taskName +:+ " - EOA Preview - " +:+ GlobalSetup.toLocaleString now) clients
        = Some data /\
      EmailOnAcid.getPreviewUrls service (map GlobalSetup.to_string clients)
        (js_get data "id") = (EmailOnAcid.Returned urls, tr) /\
      GlobalSetup.files fs' !! GlobalSetup.GENERATED_URLS_FILE TEMP_DIR taskName
        = Some (GlobalSetup.JSON_stringify (GlobalSetup.generatedPreviews urls)) /\
      GlobalSetup.files fs' !! GlobalSetup.archiveFilePath TEMP_DIR taskName now
        = Some (GlobalSetup.JSON_stringify (GlobalSetup.generatedPreviews urls)).
Proof.
  intros until out. apply SetupFacts.globalSetup_end_to_end.
Qed.

(** One task, one client, a service that completes on the second attempt. *)
Lemma setup_lists_what_polling_returned_witness :
  exists urls tr,
    EmailOnAcid.getPreviewUrls Scenarios.completes_second
      (map GlobalSetup.to_string [JStr "a"]) (JStr "t1")
      = (EmailOnAcid.Returned urls, tr) /\
    GlobalSetup.files (snd (fst Scenarios.setup_run))
      !! GlobalSetup.GENERATED_URLS_FILE "/repo/temp" "Summer Sale"
      = Some (GlobalSetup.JSON_stringify (GlobalSetup.generatedPreviews urls)).
Proof.
  destruct (setup_lists_what_polling_returned
              "/repo/temp" "/repo/emails" "/repo/default-clients-eoa.json"
              (fun _ => Some (JObj [("apple", JObj [("id", JStr "a")])]))
              (fun _ => true)
              (fun _ _ _ => Some (JObj [("id", JStr "t1")]))
              Scenarios.completes_second
              Scenarios.setup_env Scenarios.setup_now Scenarios.setup_fs
              (snd (fst Scenarios.setup_run)) (snd Scenarios.setup_run))
    as (taskName & serviceName & apiKey & html & clients & data & urls & tr
        & Htask & _ & _ & _ & _ & Hload & Hdata & Hpoll & Hm & _).
  - apply (GlobalSetupFacts.run_with_outcome Scenarios.setup_run).
    vm_compute. reflexivity.
  - assert (Hname : GlobalSetup.nonempty (Scenarios.setup_env !! "TASK_NAME")
                    = Some "Summer Sale") by (vm_compute; reflexivity).
    rewrite Hname in Htask. injection Htask as <-.
    assert (Hclients : GlobalSetup.load_clients "/repo/default-clients-eoa.json"
                         (fun _ => Some (JObj [("apple", JObj [("id", JStr "a")])]))
                         Scenarios.setup_fs = Some [JStr "a"]) by (vm_compute; reflexivity).
    rewrite Hclients in Hload. injection Hload as <-.
    injection Hdata as <-.
    exists urls, tr. split; [exact Hpoll|exact Hm].
Defined.

(** X12.  After such a run the test file finds the manifest: the path it
    computes from the task name is the one the setup wrote to, what it
    loads is what [JSON.parse] makes of the text written there, and it
    registers one test per loaded preview, or the skipped placeholder
    when there is none. *)
Theorem test_file_loads_what_setup_wrote :
  forall TEMP_DIR EMAILS_DIR DEFAULT_CLIENTS_FILE JSON_parse writable create_test
         service env now fs fs' out parse,
    GlobalSetup.globalSetup TEMP_DIR EMAILS_DIR DEFAULT_CLIENTS_FILE JSON_parse
      writable create_test service env now fs = (GlobalSetup.Finished, fs', out) ->
    exists taskName urls,
      GlobalSetup.nonempty (env !! "TASK_NAME") = Some taskName /\
      GlobalSetup.files fs' !! TestFile.GENERATED_URLS_FILE TEMP_DIR taskName
        = Some (GlobalSetup.JSON_stringify (GlobalSetup.generatedPreviews urls)) /\
      let loaded :=
        default [] (parse (GlobalSetup.JSON_stringify (GlobalSetup.generatedPreviews urls))) in
      TestFile.generatedPreviews TEMP_DIR parse taskName fs' = loaded /\
      TestFile.suite TEMP_DIR parse env fs' =
        match loaded with
        | [] => TestFile.NoPreviews taskName
        | _ :: _ => TestFile.Previews taskName (map TestFile.test_of loaded)
        end.
Proof.
  intros until parse. intros Hrun.
  apply SetupFacts.globalSetup_end_to_end in Hrun
    as (taskName & _ & _ & _ & _ & _ & urls & _ & Htask & _ & _ & _ & _ & _ & _ & _ & Hm & _).
  exists taskName, urls. split; [assumption|].
  change (TestFile.GENERATED_URLS_FILE TEMP_DIR taskName)
    with (GlobalSetup.GENERATED_URLS_FILE TEMP_DIR taskName).
  split; [assumption|]. cbv zeta.
  assert (Hload : TestFile.generatedPreviews TEMP_DIR parse taskName fs' =
                  default [] (parse (GlobalSetup.JSON_stringify
                                       (GlobalSetup.generatedPreviews urls)))).
  { unfold TestFile.generatedPreviews, GlobalSetup.existsSync, GlobalSetup.readFileSync.
    change (TestFile.GENERATED_URLS_FILE TEMP_DIR taskName)
      with (GlobalSetup.GENERATED_URLS_FILE TEMP_DIR taskName).
    rewrite Hm. rewrite bool_decide_eq_true_2 by eauto. reflexivity. }
  split; [exact Hload|].
  unfold TestFile.suite. rewrite Htask, Hload.
  now destruct (default [] _).
Qed.

(** The test file registers one test for the one preview of the run. *)
Lemma test_file_loads_what_setup_wrote_witness :
  TestFile.suite "/repo/temp"
    (fun _ => Some [GlobalSetup.mkPreview "A Preview" "https://p/a.png" "a"])
    Scenarios.setup_env (snd (fst Scenarios.setup_run))
  = TestFile.Previews "Summer Sale"
      [TestFile.mkTest "Tests Staging - A Preview (a)"
         [("client", "a"); ("previewUrl", "https://p/a.png")]
         "https://p/a.png" "a.png"].
Proof.
  destruct (test_file_loads_what_setup_wrote
              "/repo/temp" "/repo/emails" "/repo/default-clients-eoa.json"
              (fun _ => Some (JObj [("apple", JObj [("id", JStr "a")])]))
              (fun _ => true)
              (fun _ _ _ => Some (JObj [("id", JStr "t1")]))
              Scenarios.completes_second
              Scenarios.setup_env Scenarios.setup_now Scenarios.setup_fs
              (snd (fst Scenarios.setup_run)) (snd Scenarios.setup_run)
              (fun _ => Some [GlobalSetup.mkPreview "A Preview" "https://p/a.png" "a"]))
    as (taskName & urls & Htask & _ & _ & Hsuite).
  - apply (GlobalSetupFacts.run_with_outcome Scenarios.setup_run).
    vm_compute. reflexivity.
  - assert (Hname : GlobalSetup.nonempty (Scenarios.setup_env !! "TASK_NAME")
                    = Some "Summer Sale") by (vm_compute; reflexivity).
    rewrite Hname in Htask. injection Htask as <-.
    exact Hsuite.
Defined.

(** X13.  However a run of [globalSetup] ends, the only files whose
    content it can have changed are the manifest and the archive of the
    task; it removes no directory and creates none besides [temp] and
    [temp/archives]. *)
Theorem setup_touches_only_its_own_files :
  forall TEMP_DIR EMAILS_DIR DEFAULT_CLIENTS_FILE JSON_parse writable create_test
         service env now fs outcome fs' out,
    GlobalSetup.globalSetup TEMP_DIR EMAILS_DIR DEFAULT_CLIENTS_FILE JSON_parse
      writable create_test service env now fs = (outcome, fs', out) ->
    (forall p,
        GlobalSetup.files fs' !! p <> GlobalSetup.files fs !! p ->
        exists taskName,
          env !! "TASK_NAME" = Some taskName /\
          (p = GlobalSetup.GENERATED_URLS_FILE TEMP_DIR taskName \/
           p = GlobalSetup.archiveFilePath TEMP_DIR taskName now)) /\
    GlobalSetup.dirs fs ⊆ GlobalSetup.dirs fs' /\
    GlobalSetup.dirs fs' ⊆
      {[ TEMP_DIR; GlobalSetup.ARCHIVE_DIR TEMP_DIR ]} ∪ GlobalSetup.dirs fs.
Proof.
  intros until out. intros Hrun.
  pose proof (SetupFacts.globalSetup_stages TEMP_DIR EMAILS_DIR DEFAULT_CLIENTS_FILE JSON_parse
                writable create_test service env now fs) as H.
  cbv zeta in H. rewrite Hrun in H. cbn [fst snd] in H.
  destruct H as [[-> _]|H]; [split; [intros p Hp; congruence|split; [reflexivity|apply union_subseteq_r]]|].
  destruct H as (taskName & clients & serviceName & apiKey & pw & fs1 & Htask & _ & _
                 & _ & _ & _ & _ & _ & E1 & H).
  apply SetupFacts.nonempty_Some in Htask as [Htask _].
  apply SetupFacts.ensure_dir_effect in E1 as (Hf1 & Hd1 & Hd1').
  destruct H as [[-> _]|H];
    [split; [intros p Hp; rewrite Hf1 in Hp; congruence|now apply SetupFacts.dirs_grow_once]|].
  destruct H as (fs2 & E2 & H).
  apply SetupFacts.ensure_dir_effect in E2 as (Hf2 & Hd2 & Hd2').
  destruct H as [[-> _]|H];
    [split; [intros p Hp; rewrite Hf2, Hf1 in Hp; congruence
            |now apply SetupFacts.dirs_grow_twice with (GlobalSetup.dirs fs1)]|].
  destruct H as (previewService & html & b & o & _ & _ & Hgen & _).
  apply SetupFacts.generate_effect in Hgen as (Hd3 & Hf3).
  split; [|rewrite Hd3; now apply SetupFacts.dirs_grow_twice with (GlobalSetup.dirs fs1)].
  intros p Hp. exists taskName. split; [assumption|].
  destruct (decide (p = GlobalSetup.GENERATED_URLS_FILE TEMP_DIR taskName)); [now left|].
  destruct (decide (p = GlobalSetup.archiveFilePath TEMP_DIR taskName now)); [now right|].
  exfalso. apply Hp. rewrite Hf3, Hf2, Hf1; auto.
Qed.

(** The run of the example changes two files and adds two directories. *)
Lemma setup_touches_only_its_own_files_witness :
  (forall p,
      GlobalSetup.files (snd (fst Scenarios.setup_run)) !! p
        <> GlobalSetup.files Scenarios.setup_fs !! p ->
      exists taskName,
        Scenarios.setup_env !! "TASK_NAME" = Some taskName /\
        (p = GlobalSetup.GENERATED_URLS_FILE "/repo/temp" taskName \/
         p = GlobalSetup.archiveFilePath "/repo/temp" taskName Scenarios.setup_now)) /\
  GlobalSetup.dirs Scenarios.setup_fs ⊆ GlobalSetup.dirs (snd (fst Scenarios.setup_run)) /\
  GlobalSetup.dirs (snd (fst Scenarios.setup_run)) ⊆
    {[ "/repo/temp"; GlobalSetup.ARCHIVE_DIR "/repo/temp" ]}
      ∪ GlobalSetup.dirs Scenarios.setup_fs.
Proof.
  apply (setup_touches_only_its_own_files
           "/repo/temp" "/repo/emails" "/repo/default-clients-eoa.json"
           (fun _ => Some (JObj [("apple", JObj [("id", JStr "a")])]))
           (fun _ => true)
           (fun _ _ _ => Some (JObj [("id", JStr "t1")]))
           Scenarios.completes_second
           Scenarios.setup_env Scenarios.setup_now Scenarios.setup_fs
           (fst (fst Scenarios.setup_run)) _ (snd Scenarios.setup_run)).
  unfold Scenarios.setup_run.
  now destruct (GlobalSetup.globalSetup _ _ _ _ _ _ _ _ _ _) as [[o f] l].
Defined.

(** X14.  An archive is never written over a manifest, of the same task
    or of another. *)
Theorem archive_never_overwrites_a_manifest :
  forall TEMP_DIR taskName now taskName',
    GlobalSetup.archiveFilePath TEMP_DIR taskName now
      <> GlobalSetup.GENERATED_URLS_FILE TEMP_DIR taskName'.
Proof. intros. apply SetupFacts.archive_manifest_differ. Qed.

(** X15.  Two runs for the same task whose clocks read different UTC
    instants archive to different files: the archive path determines the
    year, month, day, hour, minute, second and millisecond it was made
    from. *)
Theorem archives_of_different_instants_differ :
  forall TEMP_DIR taskName now1 now2,
    Clock.utc_in_range now1 ->
    Clock.utc_in_range now2 ->
    GlobalSetup.archiveFilePath TEMP_DIR taskName now1
      = GlobalSetup.archiveFilePath TEMP_DIR taskName now2 ->
    GlobalSetup.getUTCFullYear now1 = GlobalSetup.getUTCFullYear now2 /\
    GlobalSetup.getUTCMonth now1 = GlobalSetup.getUTCMonth now2 /\
    GlobalSetup.getUTCDate now1 = GlobalSetup.getUTCDate now2 /\
    GlobalSetup.getUTCHours now1 = GlobalSetup.getUTCHours now2 /\
    GlobalSetup.getUTCMinutes now1 = GlobalSetup.getUTCMinutes now2 /\
    GlobalSetup.getUTCSeconds now1 = GlobalSetup.getUTCSeconds now2 /\
    GlobalSetup.getUTCMilliseconds now1 = GlobalSetup.getUTCMilliseconds now2.
Proof.
  intros TEMP_DIR taskName now1 now2 H1 H2.
  unfold GlobalSetup.archiveFilePath, GlobalSetup.resolve. intros H.
  do 5 apply StringFacts.append_cancel in H.
  now apply TimestampFacts.verboseTimestamp_inj with "json".
Qed.

(** The clock of the example is in range. *)
Lemma archives_of_different_instants_differ_witness :
  GlobalSetup.getUTCFullYear Scenarios.setup_now = 2025 /\
  GlobalSetup.getUTCMonth Scenarios.setup_now = 6 /\
  GlobalSetup.getUTCDate Scenarios.setup_now = 23 /\
  GlobalSetup.getUTCHours Scenarios.setup_now = 20 /\
  GlobalSetup.getUTCMinutes Scenarios.setup_now = 58 /\
  GlobalSetup.getUTCSeconds Scenarios.setup_now = 0 /\
  GlobalSetup.getUTCMilliseconds Scenarios.setup_now = 7.
Proof.
  apply (archives_of_different_instants_differ "/repo/temp" "Summer Sale"
           Scenarios.setup_now (GlobalSetup.mkDate 2025 6 23 20 58 0 7 "later")).
  - unfold Clock.utc_in_range. simpl. lia.
  - unfold Clock.utc_in_range. simpl. lia.
  - reflexivity.
Defined.

(** X16.  A run of [globalSetup] changes something on disk only if the
    task name is set, the task's HTML file and the clients file exist,
    the clients file loads, and the service name, the API key under that
    service's name and the Email on Acid password are all set and not
    empty.  Short of that the file system is left exactly as it was. *)
Theorem misconfigured_setup_leaves_disk_untouched :
  forall TEMP_DIR EMAILS_DIR DEFAULT_CLIENTS_FILE JSON_parse writable create_test
         service env now fs outcome fs' out,
    GlobalSetup.globalSetup TEMP_DIR EMAILS_DIR DEFAULT_CLIENTS_FILE JSON_parse
      writable create_test service env now fs = (outcome, fs', out) ->
    fs' <> fs ->
    exists taskName serviceName,
      env !! "TASK_NAME" = Some taskName /\ taskName <> "" /\
      GlobalSetup.existsSync fs (GlobalSetup.EMAIL_HTML_FILE EMAILS_DIR taskName) = true /\
      GlobalSetup.existsSync fs DEFAULT_CLIENTS_FILE = true /\
      is_Some (GlobalSetup.load_clients DEFAULT_CLIENTS_FILE JSON_parse fs) /\
      env !! "EMAIL_PREVIEW_SERVICE" = Some serviceName /\ serviceName <> "" /\
      is_Some (GlobalSetup.nonempty
                 (env !! (GlobalSetup.toUpperCase (GlobalSetup.toLowerCase serviceName)
                          +:+ "_API_KEY"))) /\
      is_Some (GlobalSetup.nonempty (env !! "EMAILONACID_ACCOUNT_PASSWORD")).
Proof.
  intros until out. intros Hrun Hne.
  pose proof (SetupFacts.globalSetup_stages TEMP_DIR EMAILS_DIR DEFAULT_CLIENTS_FILE JSON_parse
                writable create_test service env now fs) as H.
  cbv zeta in H. rewrite Hrun in H. cbn [fst snd] in H.
  destruct H as [[H _]|H]; [contradiction|].
  destruct H as (taskName & clients & serviceName & apiKey & pw & fs1 & Htask & Hhtml
                 & Hclients & Hload & Hsvc & Hname & Hkey & Hpw & _).
  apply SetupFacts.nonempty_Some in Htask as [Htask Hnonempty].
  exists taskName, serviceName. repeat split; eauto.
Qed.

(** The run of the example creates [temp]; its configuration is complete. *)
Lemma misconfigured_setup_leaves_disk_untouched_witness :
  exists taskName serviceName,
    Scenarios.setup_env !! "TASK_NAME" = Some taskName /\ taskName <> "" /\
    GlobalSetup.existsSync Scenarios.setup_fs
      (GlobalSetup.EMAIL_HTML_FILE "/repo/emails" taskName) = true /\
    GlobalSetup.existsSync Scenarios.setup_fs "/repo/default-clients-eoa.json" = true /\
    is_Some (GlobalSetup.load_clients "/repo/default-clients-eoa.json"
               (fun _ => Some (JObj [("apple", JObj [("id", JStr "a")])]))
               Scenarios.setup_fs) /\
    Scenarios.setup_env !! "EMAIL_PREVIEW_SERVICE" = Some serviceName /\
    serviceName <> "" /\
    is_Some (GlobalSetup.nonempty
               (Scenarios.setup_env
                  !! (GlobalSetup.toUpperCase (GlobalSetup.toLowerCase serviceName)
                      +:+ "_API_KEY"))) /\
    is_Some (GlobalSetup.nonempty (Scenarios.setup_env !! "EMAILONACID_ACCOUNT_PASSWORD")).
Proof.
  apply (misconfigured_setup_leaves_disk_untouched
           "/repo/temp" "/repo/emails" "/repo/default-clients-eoa.json"
           (fun _ => Some (JObj [("apple", JObj [("id", JStr "a")])]))
           (fun _ => true)
           (fun _ _ _ => Some (JObj [("id", JStr "t1")]))
           Scenarios.completes_second
           Scenarios.setup_env Scenarios.setup_now Scenarios.setup_fs
           (fst (fst Scenarios.setup_run)) (snd (fst Scenarios.setup_run))
           (snd Scenarios.setup_run)).
  - unfold Scenarios.setup_run.
    now destruct (GlobalSetup.globalSetup _ _ _ _ _ _ _ _ _ _) as [[o f] l].
  - intros H. apply (f_equal (fun f => bool_decide ("/repo/temp" ∈ GlobalSetup.dirs f))) in H.
    vm_compute in H. discriminate.
Defined.

(** X17.  [getEmailPreviewService] hands out a service exactly when the
    name is [emailonacid] in any mix of cases and both the API key and
    the password are non-empty.  Any other name, ['litmus'] included, is
    reported as unsupported, and Email on Acid without a password as
    lacking it. *)
Theorem service_factory_cases :
  forall create_test service serviceName apiKey accountPassword,
    ((exists previewService,
         GlobalSetup.getEmailPreviewService create_test service serviceName apiKey
           accountPassword = inr previewService) <->
     GlobalSetup.toLowerCase serviceName = "emailonacid" /\ apiKey <> "" /\
     exists c rest, accountPassword = Some (String c rest)) /\
    (GlobalSetup.toLowerCase serviceName <> "emailonacid" ->
     GlobalSetup.getEmailPreviewService create_test service serviceName apiKey
       accountPassword = inl (GlobalSetup.Unsupported serviceName)) /\
    (GlobalSetup.toLowerCase serviceName = "emailonacid" ->
     GlobalSetup.nonempty accountPassword = None ->
     GlobalSetup.getEmailPreviewService create_test service serviceName apiKey
       accountPassword = inl GlobalSetup.PasswordRequired).
Proof.
  intros. unfold GlobalSetup.getEmailPreviewService, GlobalSetup.EmailOnAcidService.
  destruct (String.eqb_spec (GlobalSetup.toLowerCase serviceName) "emailonacid") as [E|E].
  - split; [|split; [congruence|]].
    + destruct accountPassword as [[|c rest]|]; simpl.
      * split; [intros [? [=]]|intros (_ & _ & ? & ? & [=])].
      * destruct apiKey as [|k key]; simpl.
        -- split; [intros [? [=]]|intros (_ & H & _); now destruct H].
        -- split; [intros _|eauto]. split; [exact E|]. split; [discriminate|eauto].
      * split; [intros [? [=]]|intros (_ & _ & ? & ? & [=])].
    + intros _ H. now rewrite H.
  - split; [|split; [reflexivity|congruence]].
    split; [intros [? [=]]|intros [? _]; congruence].
Qed.

(** Litmus is turned away; Email on Acid without a password too. *)
Lemma service_factory_cases_witness :
  GlobalSetup.getEmailPreviewService (fun _ _ _ => None) Scenarios.always_processing
    "Litmus" "key" (Some "password") = inl (GlobalSetup.Unsupported "Litmus") /\
  GlobalSetup.getEmailPreviewService (fun _ _ _ => None) Scenarios.always_processing
    "EmailOnAcid" "key" None = inl GlobalSetup.PasswordRequired.
Proof.
  split.
  - apply (proj1 (proj2 (service_factory_cases (fun _ _ _ => None)
                           Scenarios.always_processing "Litmus" "key" (Some "password")))).
    discriminate.
  - apply (proj2 (proj2 (service_factory_cases (fun _ _ _ => None)
                           Scenarios.always_processing "EmailOnAcid" "key" None)));
      reflexivity.
Defined.

(** ** More on the results script *)

Module ScriptFacts.
Import JsFacts FullResults FullResultsFacts.

Lemma on_error_response e resp tr : fullApiResponse (snd (on_error e resp tr)) = resp.
Proof.
  destruct (on_error_cases e resp tr) as [[_ ->]|[_ [m ->]]]; reflexivity.
Qed.

Lemma on_response_response a data tr : fullApiResponse (snd (on_response a data tr)) = data.
Proof.
  unfold on_response. destruct (tally a (results_of data)) as [[[c f] t]|].
  - repeat case_match; reflexivity.
  - apply on_error_response.
Qed.

Lemma pair_with_outcome {A B} (run : A * B) (outcome : A) :
  fst run = outcome -> run = (outcome, snd run).
Proof. destruct run. simpl. now intros ->. Qed.


Section Script.
Variable service : nat -> FetchOutcome.

Lemma iteration_response a resp :
  fullApiResponse (snd (attempt_body service a resp)) =
  match service a with FetchOk data => data | FetchFailed _ => resp end.
Proof.
  unfold attempt_body. destruct (service a).
  - apply on_response_response.
  - apply on_error_response.
Qed.

Lemma loop_fetch_range r a resp b :
  In (EvFetch b) (snd (poll service r a resp)) -> a <= b.
Proof.
  intros H. apply In_fetches in H.
  destruct (loop_fetches service r a resp) as (n & _ & Hn).
  rewrite Hn in H. apply in_seq in H. lia.
Qed.

(** What the loop hands over: the body of the last fetch that got a
    response, or what it started with if none did. *)
Lemma loop_last_response r a resp resp' :
  fst (poll service r a resp) = Some resp' ->
  (resp' = resp /\
   forall b, In (EvFetch b) (snd (poll service r a resp)) ->
             exists e, service b = FetchFailed e) \/
  (exists c, In (EvFetch c) (snd (poll service r a resp)) /\
     service c = FetchOk resp' /\
     forall b, In (EvFetch b) (snd (poll service r a resp)) -> c < b ->
               exists e, service b = FetchFailed e).
Proof.
  revert a resp. induction r as [|r IH]; intros a resp.
  - simpl. intros [= <-]. left. split; [reflexivity|]. intros b [].
  - rewrite loop_step.
    pose proof (iteration_response a resp) as Hresp.
    pose proof (iteration_fetch service a resp) as Hfetch.
    destruct (iteration_head service a resp) as (rest & Hhead).
    destruct (attempt_body service a resp) as [ctl i]. cbn [snd] in Hresp, Hfetch, Hhead.
    assert (Ha : In (EvFetch a) (console i)) by (rewrite Hhead; simpl; auto).
    destruct ctl as [| |code]; cbn [fst snd].
    + intros Hout. specialize (IH (S a) (fullApiResponse i) Hout).
      assert (Hin : forall b,
                 In (EvFetch b)
                    (console i ++ pause a i ++ snd (poll service r (S a) (fullApiResponse i))) ->
                 b = a \/ (S a <= b /\
                           In (EvFetch b) (snd (poll service r (S a) (fullApiResponse i))))).
      { intros b Hb. rewrite !in_app_iff in Hb. destruct Hb as [Hb|[Hb|Hb]].
        - left. now apply Hfetch.
        - now apply pause_has_no_fetch in Hb.
        - right. split; [|assumption]. now apply loop_fetch_range in Hb. }
      destruct IH as [[-> Hall]|(c & Hc & Hsvc & Hlater)].
      * rewrite Hresp in *. destruct (service a) as [data|e] eqn:Ea.
        -- right. exists a. split; [rewrite in_app_iff; auto|]. split; [assumption|].
           intros b Hb Hlt. apply Hin in Hb as [->|[_ Hb]]; [lia|]. now apply Hall.
        -- left. split; [reflexivity|]. intros b Hb.
           apply Hin in Hb as [->|[_ Hb]]; [eauto|]. now apply Hall.
      * right. exists c. split; [rewrite !in_app_iff; auto|]. split; [assumption|].
        intros b Hb Hlt. apply Hin in Hb as [->|[_ Hb]]; [|now apply Hlater].
        apply loop_fetch_range in Hc. lia.
    + intros [= <-]. rewrite Hresp. destruct (service a) as [data|e] eqn:Ea.
      * right. exists a. split; [assumption|]. split; [assumption|].
        intros b Hb Hlt. apply Hfetch in Hb. lia.
      * left. split; [reflexivity|]. intros b Hb. apply Hfetch in Hb as ->. eauto.
    + discriminate.
Qed.

(** A script that runs to its end. *)
Lemma script_finished apiKey pw writable saved tr :
  getFullEmailOnAcidResults service apiKey pw writable = (Finished saved, tr) ->
  fst (poll service MAX_POLLING_ATTEMPTS 0 JNull) = Some saved /\
  truthy saved = true /\ writable = true /\
  exists intro outro,
    timeline intro = [] /\ timeline outro = [] /\
    tr = intro ++ snd (poll service MAX_POLLING_ATTEMPTS 0 JNull) ++ outro.
Proof.
  unfold getFullEmailOnAcidResults.
  destruct (_ || _); [discriminate|].
  change (String.eqb testId "") with false. cbv iota.
  destruct (poll service MAX_POLLING_ATTEMPTS 0 JNull) as [[resp|] tr0]; [|discriminate].
  destruct (truthy resp) eqn:Ht; cbn [negb]; [|discriminate].
  destruct writable; [|discriminate].
  intros [= <- <-]. repeat split; auto.
  exists [EvLog LLog MRetrieving; EvLog LLog MCurrentTime],
         [EvLog LLog MRetrieved; EvLog LLog MSaving; EvLog LLog MSaved; EvLog LLog MComplete].
  repeat split; auto. cbn [snd]. now rewrite <- !app_assoc.
Qed.





End Script.

Lemma count_client_sum c0 f0 r :
  let st := count_client (c0, f0) r in
  complete (fst st) + pending (fst st) + failed (fst st)
    <= complete c0 + pending c0 + failed c0 + 1 /\
  pending c0 <= pending (fst st) /\
  snd st = f0 && (pending (fst st) =? pending c0).
Proof.
  cbv zeta. unfold count_client.
  destruct (is_str (js_get_opt r "status") "complete");
    [|destruct (is_str (js_get_opt r "status") "pending");
      [|destruct (is_str (js_get_opt r "status") "failed")]];
    cbn [fst snd complete pending failed];
    rewrite ?Nat.eqb_refl, ?andb_true_r; repeat split; try lia.
  symmetry. apply andb_false_iff. right. apply Nat.eqb_neq. lia.
Qed.

(** The counters never count more than there are results, and the flag
    is cleared exactly by a pending result. *)
Lemma count_clients_sum items c0 f0 :
  let st := fold_left count_client items (c0, f0) in
  complete (fst st) + pending (fst st) + failed (fst st)
    <= complete c0 + pending c0 + failed c0 + length items /\
  pending c0 <= pending (fst st) /\
  snd st = f0 && (pending (fst st) =? pending c0).
Proof.
  revert c0 f0. induction items as [|r items IH]; intros c0 f0; cbv zeta.
  - simpl. rewrite Nat.eqb_refl, andb_true_r. repeat split; lia.
  - change (fold_left count_client (r :: items) (c0, f0))
      with (fold_left count_client items (count_client (c0, f0) r)).
    pose proof (count_client_sum c0 f0 r) as H. cbv zeta in H.
    destruct (count_client (c0, f0) r) as [c1 f1]. cbn [fst snd] in H.
    destruct H as (H1 & H2 & ->).
    specialize (IH c1 (f0 && (pending c1 =? pending c0))). cbv zeta in IH.
    destruct IH as (H3 & H4 & ->). cbn [length].
    split; [lia|]. split; [lia|].
    rewrite <- andb_assoc. f_equal.
    set (pN := pending (fst (fold_left count_client items _))) in *. clearbody pN.
    destruct (Nat.eqb_spec (pending c1) (pending c0)), (Nat.eqb_spec pN (pending c1)),
             (Nat.eqb_spec pN (pending c0)); simpl; try reflexivity; lia.
Qed.

End ScriptFacts.

(** X18.  When the script runs to its end, what it saves is a truthy
    body, and it is the body of the last attempt that got a response:
    every attempt made after that one failed. *)
Theorem script_saves_last_response :
  forall service apiKey accountPassword writable saved tr,
    FullResults.getFullEmailOnAcidResults service apiKey accountPassword writable
      = (FullResults.Finished saved, tr) ->
    truthy saved = true /\
    exists a,
      In (EvFetch a) tr /\
      service a = FullResults.FetchOk saved /\
      forall b, In (EvFetch b) tr -> a < b -> exists e, service b = FullResults.FetchFailed e.
Proof.
  intros service apiKey accountPassword writable saved tr Hrun.
  apply ScriptFacts.script_finished in Hrun as (Hout & Ht & _ & intro & outro & Hi & Ho & ->).
  split; [exact Ht|].
  assert (Hin : forall b,
             In (EvFetch b)
                (intro ++ snd (FullResults.poll service FullResults.MAX_POLLING_ATTEMPTS 0 JNull)
                   ++ outro) <->
             In (EvFetch b)
                (snd (FullResults.poll service FullResults.MAX_POLLING_ATTEMPTS 0 JNull))).
  { intros b. rewrite !in_app_iff. split; [|auto].
    intros [H|[H|H]]; [|exact H|].
    - apply In_timeline in H. rewrite Hi in H. destruct H.
    - apply In_timeline in H. rewrite Ho in H. destruct H. }
  destruct (ScriptFacts.loop_last_response service _ _ _ _ Hout) as [[-> _]|(c & Hc & Hsvc & Hlater)];
    [discriminate|].
  exists c. split; [now apply Hin|]. split; [exact Hsvc|].
  intros b Hb Hlt. apply Hin in Hb. now apply Hlater.
Qed.

(** Only the first attempt gets a response; its body is what is saved
    after the other fifty-nine have failed. *)
Lemma script_saves_last_response_witness :
  truthy (JObj [("results", JArr [JObj [("status", JStr "pending")]])]) = true /\
  exists a,
    In (EvFetch a)
       (snd (FullResults.getFullEmailOnAcidResults Scenarios.full_lost_after_first
               (Some "key") (Some "password") true)) /\
    Scenarios.full_lost_after_first a
      = FullResults.FetchOk (JObj [("results", JArr [JObj [("status", JStr "pending")]])]) /\
    forall b,
      In (EvFetch b)
         (snd (FullResults.getFullEmailOnAcidResults Scenarios.full_lost_after_first
                 (Some "key") (Some "password") true)) ->
      a < b -> exists e, Scenarios.full_lost_after_first b = FullResults.FetchFailed e.
Proof.
  apply (script_saves_last_response Scenarios.full_lost_after_first (Some "key") (Some "password")
           true).
  apply ScriptFacts.pair_with_outcome. vm_compute. reflexivity.
Defined.




(** X21.  The three counters of the summary line never add up to more
    than the number of results, and the flag that ends the polling is
    set exactly when no result is pending, except on a first attempt
    without results, where it is cleared. *)
Theorem summary_counts :
  forall attempt results c allFinal total,
    FullResults.tally attempt results = Some (c, allFinal, total) ->
    FullResults.complete c + FullResults.pending c + FullResults.failed c <= total /\
    (allFinal = true <->
     FullResults.pending c = 0 /\ ~ (attempt = 0 /\ total = 0)).
Proof.
  intros attempt results c allFinal total. unfold FullResults.tally.
  destruct results as [items|len].
  - destruct ((length items =? 0) && (attempt =? 0)) eqn:E.
    + apply andb_true_iff in E as [E1 E2]. apply Nat.eqb_eq in E1, E2.
      intros [= <- <- <-]. simpl. split; [lia|]. split; [discriminate|]. intros [_ H].
      now destruct H.
    + intros [= H <-].
      pose proof (ScriptFacts.count_clients_sum items (FullResults.mkCounts 0 0 0) true) as Hc.
      cbv zeta in Hc. rewrite H in Hc. cbn [fst snd] in Hc. simpl in Hc.
      destruct Hc as (H1 & _ & ->). split; [lia|].
      apply andb_false_iff in E. rewrite !Nat.eqb_neq in E. rewrite Nat.eqb_eq.
      split; [intros Hp; split; [exact Hp|lia]|tauto].
  - destruct (FullResults.is_zero len && (attempt =? 0)) eqn:E; [|discriminate].
    apply andb_true_iff in E as [_ E2]. apply Nat.eqb_eq in E2.
    intros [= <- <- <-]. simpl. split; [lia|]. split; [discriminate|]. intros [_ H].
    now destruct H.
Qed.

(** Four results on the fourth attempt: two complete, one pending, one
    of a status the script does not count. *)
Lemma summary_counts_witness :
  FullResults.complete (FullResults.mkCounts 2 1 0)
    + FullResults.pending (FullResults.mkCounts 2 1 0)
    + FullResults.failed (FullResults.mkCounts 2 1 0) <= 4 /\
  (false = true <->
   FullResults.pending (FullResults.mkCounts 2 1 0) = 0 /\ ~ (3 = 0 /\ 4 = 0)).
Proof.
  apply (summary_counts 3
           (FullResults.Iterable [JObj [("status", JStr "complete")];
                                  JObj [("status", JStr "pending")];
                                  JObj [("status", JStr "Processing")];
                                  JObj [("status", JStr "complete")]])
           (FullResults.mkCounts 2 1 0) false 4).
  reflexivity.
Defined.

(** ** The manifest entries and the console of the setup script *)

Module PreviewFacts.
Import GlobalSetup StringFacts.











End PreviewFacts.


Module LogFacts.
Import GlobalSetup GlobalSetupFacts SetupFacts.

Section Setup.
Variables TEMP_DIR EMAILS_DIR DEFAULT_CLIENTS_FILE : string.
Variable JSON_parse : string -> option Json.
Variable writable : string -> bool.
Variable create_test : string -> string -> list Json -> option Json.
Variable service : nat -> EmailOnAcid.FetchOutcome.



End Setup.

End LogFacts.


